(** * Luminex donation pipeline: ledger watcher, reconciler, stream listener
      and fan-out hub, embedded from the TypeScript services.

    Sources embedded here:
    - [services/blockchain] (BlockchainService): [processDonationConfirmation],
      [updateCampaignTotals], [handleCampaignCompleted], [handleWithdrawal],
      [runReconciliation], [getTransactionStatus];
    - [services/sds-listener.ts] (SdsListenerService): [handleDisconnect],
      [scheduleReconnect], [handleMessage], [handleEvent],
      [handleDonationEvent], [subscribeToStream], [unsubscribeFromStream],
      [resubscribeToStreams], [subscribeToAllCampaigns], [disconnect];
    - the WebSocket handler: [handleConnection], [handleMessage],
      [handleSubscribe], [handleUnsubscribe], [broadcastToStream],
      [subscribeToChannels], [getStats];
    - [db/redis]: [incrementLeaderboard], [pushToFeed], [getRecentFeed],
      [publish], the client's [retryStrategy];
    - [controllers/analytics]: the cache lookup of [getRecentDonations];
    - [config]: [config.sds], [config.reconciliation], [validateConfig]. *)

From Stdlib Require Import ZArith Lia Bool String Ascii DecimalString.
From stdpp Require Import gmap strings list fin_maps.

Local Open Scope Z_scope.

(** ** JavaScript numbers restricted to integer inputs

    [Number(x)] and [parseFloat(s)] applied to an integer amount give the
    IEEE-754 binary64 value nearest to it (ties to even).  Every binary64 value
    of magnitude at least [2^53] is an integer, so on integer inputs the result
    is an integer or an infinity, and it is represented exactly here. *)
Module JsNumber.

Inductive t : Type :=
| NInf
| Fin (z : Z)
| PInf.

#[global] Instance t_eq_dec : EqDecision t.
Proof. solve_decision. Defined.

(** Nearest representable value of a non-negative integer: below [2^53]
    every integer is representable; above, the integer is cut to a 53-bit
    significand [q] at exponent [e] and the remainder [r] decides the
    rounding direction, ties going to the even significand. *)
Definition round_nonneg (n : Z) : Z :=
  if n <? 2 ^ 53 then n
  else
    let e := Z.log2 n - 52 in
    let q := n / 2 ^ e in
    let r := n mod 2 ^ e in
    let half := 2 ^ (e - 1) in
    let q' := if r <? half then q
              else if half <? r then q + 1
              else if Z.even q then q else q + 1 in
    q' * 2 ^ e.

(** Largest finite binary64 value, [(2^53 - 1) * 2^971]. *)
Definition max_finite : Z := 2 ^ 1024 - 2 ^ 971.

Definition Number (n : Z) : t :=
  if 0 <=? n then
    let r := round_nonneg n in
    if r <=? max_finite then Fin r else PInf
  else
    let r := round_nonneg (- n) in
    if r <=? max_finite then Fin (- r) else NInf.

(** [parseFloat] of the decimal string of an integer amount. *)
Definition parseFloat (n : Z) : t := Number n.

(** JavaScript [a >= b] on these values. *)
Definition ge (a b : t) : bool :=
  match a, b with
  | PInf, _ => true
  | _, NInf => true
  | Fin x, Fin y => y <=? x
  | _, _ => false
  end.

(** JavaScript [a + b]; the sum of two finite values is rounded again.
    Opposite infinities add up to NaN, which has no representation here. *)
Definition add (a b : t) : option t :=
  match a, b with
  | Fin x, Fin y => Some (Number (x + y))
  | PInf, NInf | NInf, PInf => None
  | PInf, _ | _, PInf => Some PInf
  | NInf, _ | _, NInf => Some NInf
  end.

End JsNumber.


(** ** Strings

    Addresses, transaction hashes and identifiers are ASCII strings;
    [toLowerCase] maps the letters [A]-[Z] to [a]-[z] and leaves every other
    character alone, which is what [String.prototype.toLowerCase] does on
    ASCII text. *)
Module JsString.
Local Open Scope nat_scope.

Definition lower_ascii (c : ascii) : ascii :=
  let n := nat_of_ascii c in
  if (65 <=? n) && (n <=? 90) then ascii_of_nat (n + 32) else c.

Fixpoint toLowerCase (s : string) : string :=
  match s with
  | EmptyString => EmptyString
  | String c r => String (lower_ascii c) (toLowerCase r)
  end.

(** Character class [[a-fA-F0-9]]. *)
Definition is_hex (c : ascii) : bool :=
  let n := nat_of_ascii c in
  ((48 <=? n) && (n <=? 57)) || ((65 <=? n) && (n <=? 70))
  || ((97 <=? n) && (n <=? 102)).

Fixpoint all_hex (s : string) : bool :=
  match s with
  | EmptyString => true
  | String c r => is_hex c && all_hex r
  end.

(** [/^0x[a-fA-F0-9]{n}$/]. *)
Definition is_0x_hex (n : nat) (s : string) : bool :=
  match s with
  | String "0" (String "x" r) => (String.length r =? n) && all_hex r
  | _ => false
  end.

(** A run of exactly [n] hex digits at the head of [s]; the rest is returned. *)
Fixpoint take_hex (n : nat) (s : string) : option string :=
  match n, s with
  | O, _ => Some s
  | S k, String c r => if is_hex c then take_hex k r else None
  | S _, EmptyString => None
  end.

(** Groups of hex digits separated by single dashes, nothing after the last. *)
Fixpoint hex_groups (gs : list nat) (s : string) : bool :=
  match gs with
  | [] => false
  | [n] => match take_hex n s with
           | Some EmptyString => true
           | _ => false
           end
  | n :: gs' => match take_hex n s with
                | Some (String "-" r) => hex_groups gs' r
                | _ => false
                end
  end.

(** The 8-4-4-4-12 shape checked by [z.string().uuid()]. *)
Definition is_uuid (s : string) : bool := hex_groups [8; 4; 4; 4; 12] s.

(** The UTF-16 code units one byte of UTF-8 text stands for: one for an
    ASCII byte and for the lead byte of a two- or three-byte character, two
    (a surrogate pair) for the lead byte of a four-byte character, none for
    a continuation byte. *)
Definition utf16_units (c : ascii) : nat :=
  let n := nat_of_ascii c in
  if n <? 128 then 1
  else if n <? 192 then 0
  else if n <? 240 then 1
  else 2.

(** [s.length]: a JavaScript string counts UTF-16 code units; the strings
    here hold the UTF-8 bytes of the text. *)
Fixpoint length (s : string) : nat :=
  match s with
  | EmptyString => 0
  | String c r => utf16_units c + length r
  end.

End JsString.

(** [bigint.toString()] / [String(n)] for integers: plain decimal digits. *)
Definition toString (z : Z) : string :=
  DecimalString.NilZero.string_of_int (Z.to_int z).

(** ** Configuration ([config/index.ts]) *)
Module config.
Module sds.
Definition reconnectInterval : Z := 5000.
Definition maxReconnectAttempts : Z := 10.
End sds.
Module reconciliation.
Definition orphanTimeoutMs : Z := 300000.
Definition checkIntervalMs : Z := 30000.
End reconciliation.
End config.

(** ** Data model (the persistent store's rows)

    Amounts are wei values carried as decimal strings and stored in decimal
    columns; a row or payload holds the integer the string denotes.
    Timestamps are milliseconds.  Row identifiers generated by the store are
    numbered in order of creation. *)

Inductive DonationStatus : Type := PENDING | CONFIRMED | FAILED | ORPHANED.

Inductive CampaignStatus : Type := DRAFT | ACTIVE | PAUSED | COMPLETED | CANCELLED.

#[global] Instance DonationStatus_eq_dec : EqDecision DonationStatus.
Proof. solve_decision. Defined.

#[global] Instance CampaignStatus_eq_dec : EqDecision CampaignStatus.
Proof. solve_decision. Defined.

Module Donation.
Record t : Type := mk {
  id : nat;
  txHash : string;
  campaignId : string;
  donorAddress : string;
  amount : Z;
  message : option string;
  sdsEventId : option string;
  sdsReceivedAt : option Z;
  status : DonationStatus;
  blockNumber : option Z;
  blockTimestamp : option Z;
  confirmedAt : option Z;
  createdAt : Z;
}.
End Donation.

Module Campaign.
Record t : Type := mk {
  id : string;
  onChainId : string;
  title : string;
  sdsStreamId : string;
  targetAmount : Z;
  currentAmount : Z;
  donorCount : Z;
  status : CampaignStatus;
}.
End Campaign.

(** Donor rows are keyed by their (unique) address. *)
Module Donor.
Record t : Type := mk {
  totalDonated : Z;
  donationCount : Z;
  campaignCount : Z;
  firstDonationAt : Z;
  lastDonationAt : Z;
}.
End Donor.

Module Withdrawal.
Inductive Status : Type := PENDING | PROCESSING | COMPLETED | CANCELLED.

#[global] Instance Status_eq_dec : EqDecision Status.
Proof. solve_decision. Defined.

Record t : Type := mk {
  id : nat;
  campaignId : string;
  toAddress : string;
  amount : Z;
  status : Status;
  txHash : option string;
  blockNumber : option Z;
  processedAt : option Z;
}.
End Withdrawal.

(** The payload of a stream donation announcement ([DonationEvent] once it
    has passed [DonationEventSchema]). *)
Module DonationEvent.
Record t : Type := mk {
  version : string;
  eventId : string;
  donor : string;
  amount : Z;
  message : option string;
  category : string;
  campaignId : string;
  campaignOnChainId : string;
  txHash : string;
  timestamp : Z;
  blockNumber : option Z;
}.
End DonationEvent.

(** The envelope received from the stream.  [payload] is [None] when the
    JSON payload is not an object of the donation shape at all. *)
Module RawSdsEvent.
Record t : Type := mk {
  id : string;
  type : string;
  streamId : string;
  payload : option DonationEvent.t;
  timestamp : Z;
}.
End RawSdsEvent.

Module SdsEventRow.
Record t : Type := mk {
  eventId : string;
  streamId : string;
  eventType : string;
  payload : option DonationEvent.t;
  receivedAt : Z;
  processedAt : option Z;
  processingError : option string;
  retryCount : Z;
}.
End SdsEventRow.

(** The settlement layer's [DonationReceived] notification. *)
Module DonationReceivedEvent.
Record t : Type := mk {
  campaignId : Z;
  donor : string;
  amount : Z;
  message : string;
  transactionHash : string;
  blockNumber : Z;
  blockTimestamp : Z;
}.
End DonationReceivedEvent.

(** ** Real-time events *)

Module RealtimeDonationData.
Record t : Type := mk {
  id : nat;
  txHash : string;
  campaignId : string;
  campaignTitle : string;
  donorAddress : string;
  amount : Z;
  message : option string;
  isAnonymous : bool;
  status : DonationStatus;
  timestamp : Z;
}.
End RealtimeDonationData.

(** [progress] of a campaign update is the floating-point quotient
    [Number(currentAmount) / Number(targetAmount) * 100], capped at 100; the
    two converted operands are kept, the quotient is not evaluated. *)
Module RealtimeCampaignUpdateData.
Record t : Type := mk {
  campaignId : string;
  currentAmount : Z;
  donorCount : Z;
  progressOf : JsNumber.t * JsNumber.t;
}.
End RealtimeCampaignUpdateData.

Inductive RealtimeEvent : Type :=
| EvDonation (data : RealtimeDonationData.t)              (* type: 'donation' *)
| EvCampaignUpdate (data : RealtimeCampaignUpdateData.t). (* type: 'campaign_update' *)

(** ** Observable effects

    Writes to the store, cache invalidations, messages published on the
    broadcast channels, emitter signals and log lines are recorded, oldest
    first, in the world's trace. *)

Inductive LogLevel : Type := Debug | Info | Warn | Error.

Inductive DbWrite : Type :=
| DonationCreate (txHash : string) (status : DonationStatus)
| DonationUpdate (id : nat) (status : DonationStatus)
| CampaignIncrement (id : string) (amount : Z)
| CampaignStatusUpdate (id : string) (status : CampaignStatus)
| DonorUpsert (address : string)
| WithdrawalUpdateMany (campaignId toAddress : string) (amount : Z)
| SdsEventCreate (eventId : string)
| SdsEventUpdate (eventId : string).

Inductive Effect : Type :=
| Db (w : DbWrite)
| Publish (channel : string) (event : RealtimeEvent)
| CacheDel (key : string)
| CacheDelPattern (pattern : string)
| Emit (name : string)
| Log (level : LogLevel) (msg : string).

(** ** The world: relational store, cache store and trace *)

Record World : Type := mkWorld {
  donations : list Donation.t;
  campaigns : list Campaign.t;
  donors : gmap string Donor.t;
  withdrawals : list Withdrawal.t;
  sdsEvents : list SdsEventRow.t;
  nextId : nat;
  feeds : gmap string (list RealtimeEvent);
  leaderboards : gmap string (gmap string JsNumber.t);
  trace : list Effect;
}.

Definition set_donations (f : list Donation.t -> list Donation.t) (w : World) : World :=
  mkWorld (f (donations w)) (campaigns w) (donors w) (withdrawals w) (sdsEvents w)
          (nextId w) (feeds w) (leaderboards w) (trace w).

Definition set_campaigns (f : list Campaign.t -> list Campaign.t) (w : World) : World :=
  mkWorld (donations w) (f (campaigns w)) (donors w) (withdrawals w) (sdsEvents w)
          (nextId w) (feeds w) (leaderboards w) (trace w).

Definition set_donors (f : gmap string Donor.t -> gmap string Donor.t) (w : World) : World :=
  mkWorld (donations w) (campaigns w) (f (donors w)) (withdrawals w) (sdsEvents w)
          (nextId w) (feeds w) (leaderboards w) (trace w).

Definition set_withdrawals (f : list Withdrawal.t -> list Withdrawal.t) (w : World) : World :=
  mkWorld (donations w) (campaigns w) (donors w) (f (withdrawals w)) (sdsEvents w)
          (nextId w) (feeds w) (leaderboards w) (trace w).

Definition set_sdsEvents (f : list SdsEventRow.t -> list SdsEventRow.t) (w : World) : World :=
  mkWorld (donations w) (campaigns w) (donors w) (withdrawals w) (f (sdsEvents w))
          (nextId w) (feeds w) (leaderboards w) (trace w).

Definition set_nextId (f : nat -> nat) (w : World) : World :=
  mkWorld (donations w) (campaigns w) (donors w) (withdrawals w) (sdsEvents w)
          (f (nextId w)) (feeds w) (leaderboards w) (trace w).

Definition set_feeds
  (f : gmap string (list RealtimeEvent) -> gmap string (list RealtimeEvent))
  (w : World) : World :=
  mkWorld (donations w) (campaigns w) (donors w) (withdrawals w) (sdsEvents w)
          (nextId w) (f (feeds w)) (leaderboards w) (trace w).

Definition set_leaderboards
  (f : gmap string (gmap string JsNumber.t) -> gmap string (gmap string JsNumber.t))
  (w : World) : World :=
  mkWorld (donations w) (campaigns w) (donors w) (withdrawals w) (sdsEvents w)
          (nextId w) (feeds w) (f (leaderboards w)) (trace w).

Definition set_trace (f : list Effect -> list Effect) (w : World) : World :=
  mkWorld (donations w) (campaigns w) (donors w) (withdrawals w) (sdsEvents w)
          (nextId w) (feeds w) (leaderboards w) (f (trace w)).

(** ** Asynchronous methods as state transformers that may throw *)

Inductive Outcome (A : Type) : Type :=
| Returned (a : A)
| Threw (msg : string).
Arguments Returned {A} a.
Arguments Threw {A} msg.

Definition M (A : Type) : Type := World -> Outcome A * World.

Definition ret {A} (a : A) : M A := fun w => (Returned a, w).

Definition bind {A B} (m : M A) (k : A -> M B) : M B :=
  fun w =>
    match m w with
    | (Returned a, w') => k a w'
    | (Threw e, w') => (Threw e, w')
    end.

Definition throw {A} (msg : string) : M A := fun w => (Threw msg, w).

(** [try { m } catch (error) { h error.message }]. *)
Definition try_catch {A} (m : M A) (h : string -> M A) : M A :=
  fun w =>
    match m w with
    | (Returned a, w') => (Returned a, w')
    | (Threw e, w') => h e w'
    end.

Definition gets {A} (f : World -> A) : M A := fun w => (Returned (f w), w).

Definition modify (f : World -> World) : M unit := fun w => (Returned tt, f w).

Definition effect (e : Effect) : M unit := modify (set_trace (fun t => t ++ [e])).

Definition log (level : LogLevel) (msg : string) : M unit := effect (Log level msg).

Notation "'let!' x ':=' m 'in' k" := (bind m (fun x => k))
  (at level 10, x name, m at level 100, k at level 200).
Notation "m ';>' k" := (bind m (fun _ => k))
  (at level 100, k at level 200, right associativity).

(** The world a computation leaves behind, whether it returned or threw. *)
Definition exec {A} (m : M A) (w : World) : World := snd (m w).

(** [Promise.all]: every started operation runs to its end; the combined
    promise rejects with the first rejection. *)
Fixpoint promise_all (ms : list (M unit)) : M unit :=
  match ms with
  | [] => ret tt
  | m :: rest =>
      fun w =>
        match m w with
        | (Returned _, w') => promise_all rest w'
        | (Threw e, w') => (Threw e, snd (promise_all rest w'))
        end
  end.

(** ** The persistent store's narrow interface ([prisma.*]) *)
Module prisma.

Definition update_where {A} (p : A -> bool) (f : A -> A) (l : list A) : list A :=
  map (fun x => if p x then f x else x) l.

Module donation.
(** [findUnique({ where: { txHash } })]. *)
Definition findUnique (txHash : string) : M (option Donation.t) :=
  gets (fun w =>
    find (fun d => bool_decide (Donation.txHash d = txHash)) (donations w)).

(** [findMany({ where })], in table order. *)
Definition findMany (where_ : Donation.t -> bool) : M (list Donation.t) :=
  gets (fun w => List.filter where_ (donations w)).

(** [create({ data })]: the store assigns [id] and [createdAt]; the
    transaction hash is a unique key. *)
Definition create (now : Z) (data : nat -> Z -> Donation.t) : M Donation.t :=
  let! next := gets nextId in
  let row := data next now in
  let! clash := findUnique (Donation.txHash row) in
  match clash with
  | Some _ => throw "Unique constraint failed on the fields: (`txHash`)"
  | None =>
      modify (fun w => set_nextId S (set_donations (fun ds => ds ++ [row]) w)) ;>
      effect (Db (DonationCreate (Donation.txHash row) (Donation.status row))) ;>
      ret row
  end.

(** [update({ where: { id }, data })]. *)
Definition update (id : nat) (data : Donation.t -> Donation.t) : M Donation.t :=
  let! found := gets (fun w =>
    find (fun d => bool_decide (Donation.id d = id)) (donations w)) in
  match found with
  | None => throw "Record to update not found."
  | Some d =>
      modify (set_donations
                (update_where (fun d => bool_decide (Donation.id d = id)) data)) ;>
      effect (Db (DonationUpdate id (Donation.status (data d)))) ;>
      ret (data d)
  end.
End donation.

Module campaign.
(** [findUnique({ where: { onChainId } })]. *)
Definition findUnique (onChainId : string) : M (option Campaign.t) :=
  gets (fun w =>
    find (fun c => bool_decide (Campaign.onChainId c = onChainId)) (campaigns w)).

(** [update({ where: { id }, data })], returning the updated row. *)
Definition update (id : string) (data : Campaign.t -> Campaign.t) (tag : DbWrite)
  : M Campaign.t :=
  let! found := gets (fun w =>
    find (fun c => bool_decide (Campaign.id c = id)) (campaigns w)) in
  match found with
  | None => throw "Record to update not found."
  | Some c =>
      modify (set_campaigns
                (update_where (fun c => bool_decide (Campaign.id c = id)) data)) ;>
      effect (Db tag) ;>
      ret (data c)
  end.
End campaign.

Module donor.
(** [upsert({ where: { address }, create, update })]. *)
Definition upsert (address : string) (create : Donor.t) (update : Donor.t -> Donor.t)
  : M unit :=
  modify (set_donors (fun ds =>
    match ds !! address with
    | None => <[address := create]> ds
    | Some d => <[address := update d]> ds
    end)) ;>
  effect (Db (DonorUpsert address)).
End donor.

Module withdrawal.
(** [updateMany({ where, data })]. *)
Definition updateMany (where_ : Withdrawal.t -> bool)
  (data : Withdrawal.t -> Withdrawal.t) (tag : DbWrite) : M unit :=
  modify (set_withdrawals (update_where where_ data)) ;>
  effect (Db tag).
End withdrawal.

Module sdsEvent.
Definition find_row (eventId : string) (w : World) : option SdsEventRow.t :=
  find (fun r => bool_decide (SdsEventRow.eventId r = eventId)) (sdsEvents w).

(** [create({ data })]; [eventId] is a unique key. *)
Definition create (row : SdsEventRow.t) : M unit :=
  let! clash := gets (find_row (SdsEventRow.eventId row)) in
  match clash with
  | Some _ => throw "Unique constraint failed on the fields: (`eventId`)"
  | None =>
      modify (set_sdsEvents (fun rs => rs ++ [row])) ;>
      effect (Db (SdsEventCreate (SdsEventRow.eventId row)))
  end.

(** [update({ where: { eventId }, data })]. *)
Definition update (eventId : string) (data : SdsEventRow.t -> SdsEventRow.t) : M unit :=
  let! found := gets (find_row eventId) in
  match found with
  | None => throw "Record to update not found."
  | Some _ =>
      modify (set_sdsEvents
                (update_where (fun r => bool_decide (SdsEventRow.eventId r = eventId))
                              data)) ;>
      effect (Db (SdsEventUpdate eventId))
  end.
End sdsEvent.

End prisma.

(** ** The cache and broker store's narrow interface ([db/redis.ts]) *)
Module CacheKeys.
Definition campaign (id : string) : string := "campaign:" +:+ id.
Definition campaignList (category : string) : string := "campaigns:" +:+ category.
Module leaderboard.
Definition global : string := "leaderboard:global".
Definition campaign (id : string) : string := "leaderboard:campaign:" +:+ id.
End leaderboard.
Module recentDonations.
Definition global : string := "donations:recent:global".
Definition campaign (id : string) : string := "donations:recent:" +:+ id.
End recentDonations.
End CacheKeys.

Module redis.

Definition del (key : string) : M unit := effect (CacheDel key).

Definition delPattern (pattern : string) : M unit := effect (CacheDelPattern pattern).

(** [zincrby key increment member]: sorted-set scores are binary64 values; a
    missing member counts as 0 and a sum that is not a number is refused. *)
Definition zincrby (key : string) (increment : JsNumber.t) (member : string)
  (boards : gmap string (gmap string JsNumber.t))
  : option (gmap string (gmap string JsNumber.t)) :=
  let board := default ∅ (boards !! key) in
  match JsNumber.add (default (JsNumber.Fin 0) (board !! member)) increment with
  | None => None
  | Some score => Some (<[key := <[member := score]> board]> boards)
  end.

Definition incrementLeaderboard (key member : string) (increment : JsNumber.t)
  : M unit :=
  let! boards := gets leaderboards in
  match zincrby key increment member boards with
  | None => throw "ERR resulting score is not a number (NaN)"
  | Some boards' => modify (set_leaderboards (fun _ => boards'))
  end.

(** [lpush] then [ltrim 0 (maxLength - 1)]. *)
Definition pushToFeed (key : string) (data : RealtimeEvent) (maxLength : nat) : M unit :=
  modify (set_feeds (fun fs =>
    <[key := take maxLength (data :: default [] (fs !! key))]> fs)).

Definition publish (channel : string) (message : RealtimeEvent) : M unit :=
  effect (Publish channel message).

End redis.

(** ** Decimal columns

    The amount columns are decimals: a row read from the store carries its
    amount as a [Decimal], and [Decimal.prototype.toString()] writes an
    integer in plain digits only below [10^21] in magnitude; from there on
    it uses exponential notation (["1e+21"]), which [BigInt(...)] refuses. *)
Module Decimal.

Definition toExpPos : Z := 21.

(** Whether [toString()] of the integer [n] is in plain digits. *)
Definition plain (n : Z) : bool := Z.abs n <? 10 ^ toExpPos.

(** [BigInt(n.toString())]: the integer again, or the SyntaxError. *)
Definition toBigInt (n : Z) : string + Z :=
  if plain n then inr n else inl "SyntaxError: Cannot convert to a BigInt".

End Decimal.

(** ** Ledger Watcher and Reconciler ([BlockchainService]) *)

(** Answer of the ledger's point query [getTransactionReceipt]. *)
Inductive ReceiptAnswer : Type :=
| NoReceipt                                          (* resolves to [null] *)
| Receipt (status : option Z) (blockNumber : Z)
| RpcFailure (msg : string).                         (* the call rejects *)

Module BlockchainService.

(** [data: { currentAmount: { increment: BigInt(amountWei) },
            donorCount: { increment: 1 } }]. *)
Definition incrementTotals (amountWei : Z) (c : Campaign.t) : Campaign.t :=
  Campaign.mk (Campaign.id c) (Campaign.onChainId c) (Campaign.title c)
    (Campaign.sdsStreamId c) (Campaign.targetAmount c)
    (Campaign.currentAmount c + amountWei) (Campaign.donorCount c + 1)
    (Campaign.status c).

(** [data: { status }] on a campaign. *)
Definition set_campaign_status (st : CampaignStatus) (c : Campaign.t) : Campaign.t :=
  Campaign.mk (Campaign.id c) (Campaign.onChainId c) (Campaign.title c)
    (Campaign.sdsStreamId c) (Campaign.targetAmount c) (Campaign.currentAmount c)
    (Campaign.donorCount c) st.

(** [data: { status }] on a donation. *)
Definition set_donation_status (st : DonationStatus) (d : Donation.t) : Donation.t :=
  Donation.mk (Donation.id d) (Donation.txHash d) (Donation.campaignId d)
    (Donation.donorAddress d) (Donation.amount d) (Donation.message d)
    (Donation.sdsEventId d) (Donation.sdsReceivedAt d) st
    (Donation.blockNumber d) (Donation.blockTimestamp d) (Donation.confirmedAt d)
    (Donation.createdAt d).

(** [data: { status: 'CONFIRMED', blockNumber, blockTimestamp, confirmedAt }]
    as written by the notification handler. *)
Definition confirmOnChain (blockNumber blockTimestamp now : Z) (d : Donation.t)
  : Donation.t :=
  Donation.mk (Donation.id d) (Donation.txHash d) (Donation.campaignId d)
    (Donation.donorAddress d) (Donation.amount d) (Donation.message d)
    (Donation.sdsEventId d) (Donation.sdsReceivedAt d)
    CONFIRMED (Some blockNumber) (Some (blockTimestamp * 1000)) (Some now)
    (Donation.createdAt d).

(** [data: { status: 'CONFIRMED', blockNumber, confirmedAt }] as written by
    the sweep. *)
Definition confirmFromReceipt (blockNumber now : Z) (d : Donation.t) : Donation.t :=
  Donation.mk (Donation.id d) (Donation.txHash d) (Donation.campaignId d)
    (Donation.donorAddress d) (Donation.amount d) (Donation.message d)
    (Donation.sdsEventId d) (Donation.sdsReceivedAt d)
    CONFIRMED (Some blockNumber) (Donation.blockTimestamp d) (Some now)
    (Donation.createdAt d).

(** The Aggregate Updater. *)
Definition updateCampaignTotals (campaignId : string) (amountWei : Z) : M unit :=
  let! campaign :=
    prisma.campaign.update campaignId
      (incrementTotals amountWei) (CampaignIncrement campaignId amountWei) in
  let progress := (JsNumber.Number (Campaign.currentAmount campaign),
                   JsNumber.Number (Campaign.targetAmount campaign)) in
  let updateEvent :=
    EvCampaignUpdate
      (RealtimeCampaignUpdateData.mk campaignId (Campaign.currentAmount campaign)
         (Campaign.donorCount campaign) progress) in
  redis.publish "campaign_updates" updateEvent ;>
  redis.del (CacheKeys.campaign campaignId) ;>
  redis.delPattern (CacheKeys.campaignList "*") ;>
  if JsNumber.ge (JsNumber.Number (Campaign.currentAmount campaign))
                 (JsNumber.Number (Campaign.targetAmount campaign))
  then
    prisma.campaign.update campaignId (set_campaign_status COMPLETED)
      (CampaignStatusUpdate campaignId COMPLETED) ;>
    log Info "Campaign reached target, marked as completed"
  else ret tt.

(** [data] of the row created for a settlement the stream never announced. *)
Definition confirmedRow (now : Z) (event : DonationReceivedEvent.t)
  (campaign : Campaign.t) (id : nat) (createdAt : Z) : Donation.t :=
  Donation.mk id (DonationReceivedEvent.transactionHash event) (Campaign.id campaign)
    (JsString.toLowerCase (DonationReceivedEvent.donor event))
    (DonationReceivedEvent.amount event)
    (if bool_decide (DonationReceivedEvent.message event = "")
     then None else Some (DonationReceivedEvent.message event))
    None None
    CONFIRMED
    (Some (DonationReceivedEvent.blockNumber event))
    (Some (DonationReceivedEvent.blockTimestamp event * 1000))
    (Some now)
    createdAt.

(** Donation-settled notification. *)
Definition processDonationConfirmation (now : Z) (event : DonationReceivedEvent.t)
  : M unit :=
  let txHash := DonationReceivedEvent.transactionHash event in
  let! found := prisma.donation.findUnique txHash in
  match found with
  | None =>
      log Info "On-chain donation not found in DB, creating..." ;>
      let! campaign :=
        prisma.campaign.findUnique (toString (DonationReceivedEvent.campaignId event)) in
      match campaign with
      | None => log Error "Campaign not found for on-chain donation"
      | Some campaign =>
          prisma.donation.create now (confirmedRow now event campaign) ;>
          updateCampaignTotals (Campaign.id campaign) (DonationReceivedEvent.amount event)
      end
  | Some donation =>
      prisma.donation.update (Donation.id donation)
        (confirmOnChain (DonationReceivedEvent.blockNumber event)
                        (DonationReceivedEvent.blockTimestamp event) now) ;>
      updateCampaignTotals (Donation.campaignId donation)
                           (DonationReceivedEvent.amount event) ;>
      log Info "Donation confirmed on-chain"
  end.

(** Completion notification. *)
Definition handleCampaignCompleted (onChainId txHash : string) : M unit :=
  let! campaign := prisma.campaign.findUnique onChainId in
  match campaign with
  | None => log Warn "Campaign not found for completion event"
  | Some campaign =>
      prisma.campaign.update (Campaign.id campaign) (set_campaign_status COMPLETED)
        (CampaignStatusUpdate (Campaign.id campaign) COMPLETED) ;>
      redis.del (CacheKeys.campaign (Campaign.id campaign)) ;>
      redis.delPattern (CacheKeys.campaignList "*") ;>
      log Info "Campaign marked as completed"
  end.

(** Withdrawal notification. *)
Definition handleWithdrawal (now : Z) (onChainId toAddress : string) (amount : Z)
  (txHash : string) (blockNumber : Z) : M unit :=
  let! campaign := prisma.campaign.findUnique onChainId in
  match campaign with
  | None => log Warn "Campaign not found for withdrawal event"
  | Some campaign =>
      prisma.withdrawal.updateMany
        (fun wd =>
           bool_decide (Withdrawal.campaignId wd = Campaign.id campaign)
           && bool_decide (Withdrawal.toAddress wd = JsString.toLowerCase toAddress)
           && bool_decide (Withdrawal.amount wd = amount)
           && bool_decide (Withdrawal.status wd = Withdrawal.PROCESSING))
        (fun wd => Withdrawal.mk (Withdrawal.id wd) (Withdrawal.campaignId wd)
                     (Withdrawal.toAddress wd) (Withdrawal.amount wd)
                     Withdrawal.COMPLETED (Some txHash) (Some blockNumber) (Some now))
        (WithdrawalUpdateMany (Campaign.id campaign)
           (JsString.toLowerCase toAddress) amount) ;>
      log Info "Withdrawal processed"
  end.

(** The [where] clause of the sweep: still pending and created before the
    orphan deadline. *)
Definition pendingBefore (orphanTimeout : Z) (d : Donation.t) : bool :=
  bool_decide (Donation.status d = PENDING) && (Donation.createdAt d <? orphanTimeout).

(** [this.updateCampaignTotals(donation.campaignId, donation.amount.toString())]
    in the sweep: the amount is the [Decimal] of the row, and the updater's
    [BigInt(amountWei)] throws before anything is written when the string is
    not in plain digits. *)
Definition creditFromRow (donation : Donation.t) : M unit :=
  match Decimal.toBigInt (Donation.amount donation) with
  | inr amountWei => updateCampaignTotals (Donation.campaignId donation) amountWei
  | inl message => throw message
  end.

(** Body of the sweep's loop for one selected donation, [try]/[catch]
    included; [donation] is the row as it was read by the sweep's query. *)
Definition reconcileDonation (now : Z) (getTransactionReceipt : string -> ReceiptAnswer)
  (donation : Donation.t) : M unit :=
  try_catch
    (match getTransactionReceipt (Donation.txHash donation) with
     | RpcFailure msg => throw msg
     | Receipt status blockNumber =>
         if bool_decide (status = Some 1) then
           prisma.donation.update (Donation.id donation)
             (confirmFromReceipt blockNumber now) ;>
           creditFromRow donation ;>
           log Info "Orphan donation reconciled as confirmed"
         else
           prisma.donation.update (Donation.id donation) (set_donation_status FAILED) ;>
           log Info "Orphan donation marked as failed"
     | NoReceipt =>
         prisma.donation.update (Donation.id donation) (set_donation_status ORPHANED) ;>
         log Warn "Donation marked as orphaned - no on-chain record"
     end)
    (fun _ => log Error "Error reconciling donation").

Fixpoint forEach {A} (body : A -> M unit) (l : list A) : M unit :=
  match l with
  | [] => ret tt
  | x :: rest => body x ;> forEach body rest
  end.

(** The sweep's query. *)
Definition selectPending (now : Z) : M (list Donation.t) :=
  let orphanTimeout := now - config.reconciliation.orphanTimeoutMs in
  prisma.donation.findMany (pendingBefore orphanTimeout).

(** The sweep's loop over the rows the query returned. *)
Definition reconcileAll (now : Z) (getTransactionReceipt : string -> ReceiptAnswer)
  (pendingDonations : list Donation.t) : M unit :=
  forEach (reconcileDonation now getTransactionReceipt) pendingDonations ;>
  log Info "Reconciliation run completed".

Definition runReconciliation (now : Z) (getTransactionReceipt : string -> ReceiptAnswer)
  : M unit :=
  log Info "Starting reconciliation run..." ;>
  let! pendingDonations := selectPending now in
  reconcileAll now getTransactionReceipt pendingDonations.

End BlockchainService.

(** ** Stream Listener ([SdsListenerService]): event processing *)
Module SdsListenerService.

(** [DonationEventSchema.safeParse(event.payload)]: the literal version, the
    identifier and hash shapes and the message length ([max(500)], in UTF-16
    code units) are checked. *)
Definition safeParse (payload : option DonationEvent.t) : option DonationEvent.t :=
  match payload with
  | None => None
  | Some p =>
      if bool_decide (DonationEvent.version p = "v1")
         && JsString.is_uuid (DonationEvent.eventId p)
         && JsString.is_0x_hex 40 (DonationEvent.donor p)
         && match DonationEvent.message p with
            | Some m => (JsString.length m <=? 500)%nat
            | None => true
            end
         && JsString.is_0x_hex 64 (DonationEvent.txHash p)
      then Some p else None
  end.

(** [data] of the provisional row. *)
Definition pendingRow (donation : DonationEvent.t) (campaign : Campaign.t)
  (id : nat) (createdAt : Z) : Donation.t :=
  Donation.mk id (DonationEvent.txHash donation) (Campaign.id campaign)
    (JsString.toLowerCase (DonationEvent.donor donation))
    (DonationEvent.amount donation)
    (DonationEvent.message donation)
    (Some (DonationEvent.eventId donation))
    (Some (DonationEvent.timestamp donation))
    PENDING
    (match DonationEvent.blockNumber donation with
     | Some n => if n =? 0 then None else Some n
     | None => None
     end)
    None None createdAt.

(** The [create] and [update] branches of the donor upsert. *)
Definition donorCreate (now : Z) (donation : DonationEvent.t) : Donor.t :=
  Donor.mk (DonationEvent.amount donation) 1 1 now now.

Definition donorUpdate (now : Z) (donation : DonationEvent.t) (d : Donor.t) : Donor.t :=
  Donor.mk (Donor.totalDonated d + DonationEvent.amount donation)
    (Donor.donationCount d + 1) (Donor.campaignCount d)
    (Donor.firstDonationAt d) now.

(** The summary pushed to the feeds and published to viewers. *)
Definition realtimeEvent (newDonation : Donation.t) (donation : DonationEvent.t)
  (campaign : Campaign.t) : RealtimeEvent :=
  EvDonation
    (RealtimeDonationData.mk (Donation.id newDonation)
       (DonationEvent.txHash donation) (Campaign.id campaign)
       (Campaign.title campaign) (DonationEvent.donor donation)
       (DonationEvent.amount donation) (DonationEvent.message donation)
       false PENDING (DonationEvent.timestamp donation)).

Definition handleDonationEvent (now : Z) (event : RawSdsEvent.t) : M unit :=
  match safeParse (RawSdsEvent.payload event) with
  | None => log Warn "Invalid donation event schema"
  | Some donation =>
      let! existing := prisma.donation.findUnique (DonationEvent.txHash donation) in
      match existing with
      | Some _ => log Debug "Duplicate donation event, skipping"
      | None =>
          let! campaign :=
            prisma.campaign.findUnique (DonationEvent.campaignOnChainId donation) in
          match campaign with
          | None => log Warn "Campaign not found for donation"
          | Some campaign =>
              let! newDonation :=
                prisma.donation.create now (pendingRow donation campaign) in
              prisma.donor.upsert (JsString.toLowerCase (DonationEvent.donor donation))
                (donorCreate now donation) (donorUpdate now donation) ;>
              let donationEvent := realtimeEvent newDonation donation campaign in
              promise_all
                [ redis.pushToFeed CacheKeys.recentDonations.global donationEvent 100;
                  redis.pushToFeed (CacheKeys.recentDonations.campaign (Campaign.id campaign))
                                   donationEvent 100;
                  redis.incrementLeaderboard CacheKeys.leaderboard.global
                    (JsString.toLowerCase (DonationEvent.donor donation))
                    (JsNumber.parseFloat (DonationEvent.amount donation));
                  redis.incrementLeaderboard
                    (CacheKeys.leaderboard.campaign (Campaign.id campaign))
                    (JsString.toLowerCase (DonationEvent.donor donation))
                    (JsNumber.parseFloat (DonationEvent.amount donation)) ] ;>
              redis.publish "donations" donationEvent ;>
              effect (Emit "donation") ;>
              log Info "Donation event processed"
          end
      end
  end.

Definition handleEvent (now : Z) (event : RawSdsEvent.t) : M unit :=
  try_catch
    (prisma.sdsEvent.create
       (SdsEventRow.mk (RawSdsEvent.id event) (RawSdsEvent.streamId event)
          (RawSdsEvent.type event) (RawSdsEvent.payload event) now None None 0) ;>
     (if bool_decide (RawSdsEvent.type event = "donation")
      then handleDonationEvent now event else ret tt) ;>
     prisma.sdsEvent.update (RawSdsEvent.id event)
       (fun r => SdsEventRow.mk (SdsEventRow.eventId r) (SdsEventRow.streamId r)
                   (SdsEventRow.eventType r) (SdsEventRow.payload r)
                   (SdsEventRow.receivedAt r) (Some now)
                   (SdsEventRow.processingError r) (SdsEventRow.retryCount r)) ;>
     log Debug "Event processed")
    (fun message =>
       log Error "Failed to process event" ;>
       try_catch
         (prisma.sdsEvent.update (RawSdsEvent.id event)
            (fun r => SdsEventRow.mk (SdsEventRow.eventId r) (SdsEventRow.streamId r)
                        (SdsEventRow.eventType r) (SdsEventRow.payload r)
                        (SdsEventRow.receivedAt r) (SdsEventRow.processedAt r)
                        (Some message) (SdsEventRow.retryCount r + 1)))
         (fun _ => log Error "Failed to update event error")).

End SdsListenerService.

(** ** Stream Listener: connection state and reconnection *)
Module SdsConnection.

Inductive Signal : Type :=
| emit (name : string)
| logged (level : LogLevel) (msg : string)
| send (action streamId : string)
| thrown (message : string).   (* an exception that leaves a handler uncaught *)

(** [state], the two timers, the queued subscriptions and what the service
    has emitted, logged and sent so far (oldest first).  [reconnectTimer]
    holds the delay of the armed timer, if one is armed. *)
Record t : Type := mk {
  connected : bool;
  reconnectAttempts : Z;
  lastError : option string;
  subscribedStreams : list string;
  reconnectTimer : option Z;
  heartbeatTimer : bool;
  pendingSubscriptions : list string;
  signals : list Signal;
}.

Definition initial : t := mk false 0 None [] None false [] [].

Definition signal (s : Signal) (l : t) : t :=
  mk (connected l) (reconnectAttempts l) (lastError l) (subscribedStreams l)
     (reconnectTimer l) (heartbeatTimer l) (pendingSubscriptions l) (signals l ++ [s]).

Definition set_connected (b : bool) (l : t) : t :=
  mk b (reconnectAttempts l) (lastError l) (subscribedStreams l)
     (reconnectTimer l) (heartbeatTimer l) (pendingSubscriptions l) (signals l).

Definition set_reconnectAttempts (n : Z) (l : t) : t :=
  mk (connected l) n (lastError l) (subscribedStreams l)
     (reconnectTimer l) (heartbeatTimer l) (pendingSubscriptions l) (signals l).

Definition set_lastError (e : option string) (l : t) : t :=
  mk (connected l) (reconnectAttempts l) e (subscribedStreams l)
     (reconnectTimer l) (heartbeatTimer l) (pendingSubscriptions l) (signals l).

Definition set_reconnectTimer (tm : option Z) (l : t) : t :=
  mk (connected l) (reconnectAttempts l) (lastError l) (subscribedStreams l)
     tm (heartbeatTimer l) (pendingSubscriptions l) (signals l).

Definition set_heartbeatTimer (b : bool) (l : t) : t :=
  mk (connected l) (reconnectAttempts l) (lastError l) (subscribedStreams l)
     (reconnectTimer l) b (pendingSubscriptions l) (signals l).

Definition set_pendingSubscriptions (p : list string) (l : t) : t :=
  mk (connected l) (reconnectAttempts l) (lastError l) (subscribedStreams l)
     (reconnectTimer l) (heartbeatTimer l) p (signals l).

Definition stopHeartbeat (l : t) : t := set_heartbeatTimer false l.

Definition startHeartbeat (l : t) : t := set_heartbeatTimer true (stopHeartbeat l).

(** The delay [Math.min(reconnectInterval * Math.pow(2, attempts), 60000)].
    For a non-negative attempt count the product is either exact in binary64
    or overflows to infinity, so the minimum is the same as over the
    integers. *)
Definition reconnectDelay (attempts : Z) : Z :=
  Z.min (config.sds.reconnectInterval * 2 ^ attempts) 60000.

(** Replaces any armed timer by a new one. *)
Definition scheduleReconnect (l : t) : t :=
  let delay := reconnectDelay (reconnectAttempts l) in
  set_reconnectTimer (Some delay) (signal (logged Info "Scheduling reconnection...") l).

Definition handleDisconnect (l : t) : t :=
  let l := signal (emit "disconnected") (stopHeartbeat (set_connected false l)) in
  if reconnectAttempts l <? config.sds.maxReconnectAttempts
  then scheduleReconnect l
  else signal (emit "maxReconnectAttemptsReached")
         (signal (logged Error "Max reconnection attempts reached") l).

(** With the socket open every subscription request is sent at once. *)
Definition resubscribeToStreams (l : t) : t :=
  let l := fold_left (fun l s => signal (send "subscribe" s) l) (subscribedStreams l) l in
  let l := fold_left (fun l s => signal (send "subscribe" s) l) (pendingSubscriptions l) l in
  set_pendingSubscriptions [] l.

(** What happens to the [connect()] started by the timer.  On a socket
    error the handler calls [this.emit('error', error)] before it rejects
    the promise; the service is an [EventEmitter], whose [emit('error')]
    throws the error when no 'error' listener is registered, so what follows
    depends on [listened]: whether the application has registered one (the
    service itself registers none). *)
Inductive ConnectOutcome : Type :=
| Opened                                            (* 'open' fired: resolved *)
| SocketError (message : string) (listened : bool)  (* 'error' before 'open' *)
| SetupFailed.                                      (* [new WebSocket] threw: rejected *)

Definition onOpen (l : t) : t :=
  let l := signal (logged Info "Connected to SDS") l in
  let l := set_reconnectAttempts 0 (set_connected true l) in
  signal (emit "connected") (resubscribeToStreams (startHeartbeat l)).

(** The callback armed by [scheduleReconnect]. *)
Definition reconnectTimerCallback (outcome : ConnectOutcome) (l : t) : t :=
  let l := set_reconnectAttempts (reconnectAttempts l + 1) l in
  let l := signal (logged Info "Connecting to SDS...") l in
  match outcome with
  | Opened => onOpen l
  | SocketError message listened =>
      let l := signal (logged Error "SDS WebSocket error") l in
      let l := set_lastError (Some message) l in
      if listened then
        let l := signal (emit "error") l in
        if connected l
        then l   (* [if (!this.state.connected) reject(error)]: left pending *)
        else scheduleReconnect (signal (logged Error "Reconnection failed") l)
      else
        (* [emit] throws out of the socket's handler: the promise is neither
           resolved nor rejected and the callback's [catch] never runs *)
        signal (thrown message) l
  | SetupFailed =>
      let l := signal (logged Error "Failed to connect to SDS") l in
      scheduleReconnect (signal (logged Error "Reconnection failed") l)
  end.

(** What can happen to the listener from outside. *)
Inductive Input : Type :=
| SocketClosed                              (* the socket's 'close' event *)
| TimerElapsed (outcome : ConnectOutcome).  (* the armed timer fires *)

Definition step (l : t) (i : Input) : t :=
  match i with
  | SocketClosed => handleDisconnect l
  | TimerElapsed outcome =>
      match reconnectTimer l with
      | None => l
      | Some _ => reconnectTimerCallback outcome (set_reconnectTimer None l)
      end
  end.

Definition run (l : t) (inputs : list Input) : t := fold_left step inputs l.

(** Inputs after which the listener goes on retrying: the socket's close
    event, and an attempt whose [connect()] rejects - a set-up failure, or a
    socket error while an 'error' listener is registered. *)
Definition rejects (i : Input) : bool :=
  match i with
  | SocketClosed => true
  | TimerElapsed Opened => false
  | TimerElapsed (SocketError _ listened) => listened
  | TimerElapsed SetupFailed => true
  end.

Definition is_attempt (i : Input) : bool :=
  match i with
  | TimerElapsed _ => true
  | SocketClosed => false
  end.

(** A reconnect timer is armed, with the backoff delay of some attempt count
    up to the current one. *)
Definition armed (l : t) : Prop :=
  exists n, 0 <= n <= reconnectAttempts l
            /\ reconnectTimer l = Some (Z.min (5000 * 2 ^ n) 60000).

(** Disconnected, with a reconnect timer armed. *)
Definition retrying (l : t) : Prop := connected l = false /\ armed l.

End SdsConnection.

(** ** Fan-out Hub ([WebSocketHandler]) *)
Module WebSocketHandler.

Inductive ServerMessage : Type :=
| connected_msg (clientId : string)
| subscribed (streams : gset string)
| unsubscribed (streams : list string)
| pong
| event (stream : string) (ev : RealtimeEvent).

(** A viewer connection: whether its socket is in state OPEN, its
    subscription set, and the messages written to its socket (oldest
    first). *)
Record Client : Type := mkClient {
  ws_open : bool;
  subscribedStreams : gset string;
  received : list ServerMessage;
}.

Definition sendToClient (message : ServerMessage) (client : Client) : Client :=
  if ws_open client
  then mkClient (ws_open client) (subscribedStreams client) (received client ++ [message])
  else client.

Definition handleSubscribe (streams : list string) (client : Client) : Client :=
  let client :=
    mkClient (ws_open client)
      (fold_left (fun s x => s ∪ {[x]}) streams (subscribedStreams client))
      (received client) in
  sendToClient (subscribed (subscribedStreams client)) client.

Definition handleUnsubscribe (streams : list string) (client : Client) : Client :=
  let client :=
    mkClient (ws_open client)
      (fold_left (fun s x => s ∖ {[x]}) streams (subscribedStreams client))
      (received client) in
  sendToClient (unsubscribed streams) client.

Definition is_donation (ev : RealtimeEvent) : bool :=
  match ev with
  | EvDonation _ => true
  | EvCampaignUpdate _ => false
  end.

(** The test guarding [sendToClient] in [broadcastToStream]. *)
Definition wants (stream : string) (ev : RealtimeEvent) (client : Client) : bool :=
  bool_decide (stream ∈ subscribedStreams client)
  || bool_decide ("*" ∈ subscribedStreams client)
  || bool_decide ("donations" ∈ subscribedStreams client) && is_donation ev.

(** One pass over the client registry. *)
Definition broadcastToStream (stream : string) (ev : RealtimeEvent)
  (clients : gmap string Client) : gmap string Client :=
  (fun client =>
     if wants stream ev client then sendToClient (event stream ev) client else client)
  <$> clients.

(** [sentCount] as logged by [broadcastToStream]. *)
Definition sentCount (stream : string) (ev : RealtimeEvent)
  (clients : gmap string Client) : nat :=
  size (filter (fun kv => wants stream ev kv.2 = true) clients).

(** The two callbacks registered by [subscribeToChannels], dispatched on
    the broker channel a message arrives on. *)
Definition onChannelMessage (channel : string) (ev : RealtimeEvent)
  (clients : gmap string Client) : gmap string Client :=
  if bool_decide (channel = "donations") then
    let clients := broadcastToStream "donations" ev clients in
    match ev with
    | EvDonation data =>
        broadcastToStream ("campaign:" +:+ RealtimeDonationData.campaignId data) ev clients
    | _ => clients
    end
  else if bool_decide (channel = "campaign_updates") then
    let clients := broadcastToStream "campaign_updates" ev clients in
    match ev with
    | EvCampaignUpdate data =>
        broadcastToStream ("campaign:" +:+ RealtimeCampaignUpdateData.campaignId data)
                          ev clients
    | _ => clients
    end
  else clients.

End WebSocketHandler.

(** ** Sample data used to run the services *)
Module Examples.

Definition txAA : string :=
  "0xaaaaaaaaaaaaaaaaaaaaaaaaaaaaaaaaaaaaaaaaaaaaaaaaaaaaaaaaaaaaaaaa".
Definition txBB : string :=
  "0xbbbbbbbbbbbbbbbbbbbbbbbbbbbbbbbbbbbbbbbbbbbbbbbbbbbbbbbbbbbbbbbb".
Definition donorMixed : string := "0xAbCdEf0123456789abcdef0123456789ABCDEF01".
Definition donorLower : string := "0xabcdef0123456789abcdef0123456789abcdef01".

Definition oneUnit : Z := 1000000000000000000.

(** Campaign [c1], on-chain id 1, target five units, nothing raised yet. *)
Definition campaignC1 : Campaign.t :=
  Campaign.mk "c1" "1" "Clean water" "stream-c1" (5 * oneUnit) 0 0 ACTIVE.

Definition emptyWorld : World := mkWorld [] [] ∅ [] [] 0 ∅ ∅ [].

(** Campaign [c2], on-chain id 2: target of one unit reached, COMPLETED. *)
Definition campaignC2 : Campaign.t :=
  Campaign.mk "c2" "2" "School roof" "stream-c2" oneUnit oneUnit 1 COMPLETED.

Definition worldDone : World := mkWorld [] [campaignC2] ∅ [] [] 0 ∅ ∅ [].

(** Campaign [c3], on-chain id 3, whose target is [2^53 + 1] wei. *)
Definition campaignC3 : Campaign.t :=
  Campaign.mk "c3" "3" "Seed bank" "stream-c3" 9007199254740993 0 0 ACTIVE.

Definition world3 : World := mkWorld [] [campaignC3] ∅ [] [] 0 ∅ ∅ [].

(** Ledger notification: [2^53] wei to campaign 3. *)
Definition ledgerC3 : DonationReceivedEvent.t :=
  DonationReceivedEvent.mk 3 donorMixed 9007199254740992 "" txBB 9 1700000200.

(** Stream announcement: [2^53 + 1] wei to campaign 1. *)
Definition payloadOdd : DonationEvent.t :=
  DonationEvent.mk "v1" "123e4567-e89b-12d3-a456-426614174001" donorMixed
    9007199254740993 None "water" "c1" "1" txBB 1699999999000 None.

Definition streamOdd : RawSdsEvent.t :=
  RawSdsEvent.mk "evt-2" "donation" "stream-c1" (Some payloadOdd) 1699999999000.

(** Ledger notification for a campaign the store does not know. *)
Definition ledgerUnknownCampaign : DonationReceivedEvent.t :=
  DonationReceivedEvent.mk 9 donorMixed oneUnit "" txBB 8 1700000100.

Definition world0 : World := mkWorld [] [campaignC1] ∅ [] [] 0 ∅ ∅ [].



(** A provisional donation of [10^21] wei (a thousand units) to campaign
    [c1], announced long ago. *)
Definition pendingHuge : Donation.t :=
  Donation.mk 0 txBB "c1" donorLower (1000 * oneUnit) None None None
    PENDING None None None 1699999998500.

Definition worldHuge : World := mkWorld [pendingHuge] [campaignC1] ∅ [] [] 1 ∅ ∅ [].

(** Ledger notification for [txAA]: one unit to campaign 1. *)
Definition ledgerAA : DonationReceivedEvent.t :=
  DonationReceivedEvent.mk 1 donorMixed oneUnit "" txAA 7 1700000000.

(** Stream announcement of the same transaction. *)
Definition payloadAA : DonationEvent.t :=
  DonationEvent.mk "v1" "123e4567-e89b-12d3-a456-426614174000" donorMixed oneUnit
    None "water" "c1" "1" txAA 1699999998000 None.

Definition streamAA : RawSdsEvent.t :=
  RawSdsEvent.mk "evt-1" "donation" "stream-c1" (Some payloadAA) 1699999998000.

Definition donationData : RealtimeDonationData.t :=
  RealtimeDonationData.mk 0 txAA "c1" "Clean water" donorMixed oneUnit None false
    PENDING 1699999998000.

(** Eleven reconnection attempts in a row that fail with a socket error
    while the application listens for 'error', each followed by the socket's
    close event. *)
Definition elevenFailures : list SdsConnection.Input :=
  concat (replicate 11
            [SdsConnection.TimerElapsed (SdsConnection.SocketError "ECONNREFUSED" true);
             SdsConnection.SocketClosed]).

(** A viewer subscribed to the channel ["donations"] only. *)
Definition viewer : WebSocketHandler.Client :=
  WebSocketHandler.mkClient true {["donations"]} [].

Definition registry : gmap string WebSocketHandler.Client := {["viewer-1" := viewer]}.

End Examples.

(** ** Interleavings at suspension points

    The services run on one thread and yield at every [await].  The sweep
    suspends between its query and each loop body while the ledger's point
    query is in flight; a notification handled during that suspension runs
    between the two. *)
Module Interleaving.
Import BlockchainService.

(** [runReconciliation] with a donation-settled notification handled after
    the sweep's query has returned and before its loop starts. *)
Definition sweepWithNotification (now : Z)
  (getTransactionReceipt : string -> ReceiptAnswer)
  (notifiedAt : Z) (event : DonationReceivedEvent.t) : M unit :=
  log Info "Starting reconciliation run..." ;>
  let! pendingDonations := selectPending now in
  processDonationConfirmation notifiedAt event ;>
  reconcileAll now getTransactionReceipt pendingDonations.

End Interleaving.

(** ** Sample runs *)
Module Runs.
Import Examples.

(** The stream announces [txAA] first ... *)
Definition announced : World :=
  exec (SdsListenerService.handleEvent 1699999998500 streamAA) world0.

(** The provisional row that announcement creates. *)
Definition pendingAA : Donation.t :=
  Donation.mk 0 txAA "c1" donorLower oneUnit None
    (Some "123e4567-e89b-12d3-a456-426614174000") (Some 1699999998000)
    PENDING None None None 1699999998500.

(** ... the ledger confirms it two seconds later ... *)
Definition confirmed : World :=
  exec (BlockchainService.processDonationConfirmation 1700000000500 ledgerAA) announced.

(** ... and delivers the same confirmation once more. *)
Definition redelivered : World :=
  exec (BlockchainService.processDonationConfirmation 1700000001000 ledgerAA) confirmed.

(** The ledger confirms [txAA] without any announcement. *)
Definition ledgerFirst : World :=
  exec (BlockchainService.processDonationConfirmation 1700000000500 ledgerAA) world0.

(** The ledger answers every receipt query with a successful receipt. *)
Definition settled (txHash : string) : ReceiptAnswer := Receipt (Some 1) 7.

(** The ledger knows no transaction. *)
Definition unknown (txHash : string) : ReceiptAnswer := NoReceipt.

(** Six minutes after the announcement the sweep selects the pending row;
    the notification for the same transaction is handled while the sweep
    waits for the receipt. *)
Definition raced : World :=
  exec (Interleaving.sweepWithNotification 1700000358500 settled 1700000358600 ledgerAA)
       announced.

(** The same sweep with no notification in between. *)
Definition swept : World :=
  exec (BlockchainService.runReconciliation 1700000358500 settled) announced.

(** The sweep when the ledger has no receipt. *)
Definition orphaned : World :=
  exec (BlockchainService.runReconciliation 1700000358500 unknown) announced.

End Runs.

(** ** Repeated sweeps *)
Module Sweeps.

(** One reconciliation run per list entry, each at its own time and with the
    ledger's answers of that time. *)
Fixpoint runAll (sweeps : list (Z * (string -> ReceiptAnswer))) : M unit :=
  match sweeps with
  | [] => ret tt
  | (now, getTransactionReceipt) :: rest =>
      BlockchainService.runReconciliation now getTransactionReceipt ;> runAll rest
  end.

End Sweeps.

(** ** Classes of effects *)
Module Observations.

(** Effects that only concern the raw-event log and the service's own
    log output. *)
Definition bookkeeping (e : Effect) : Prop :=
  match e with
  | Log _ _ | Db (SdsEventCreate _) | Db (SdsEventUpdate _) => True
  | _ => False
  end.

End Observations.

(** ** Events that differ in one field *)
Module Variants.




End Variants.

(** ** Stream Listener: subscriptions, protocol messages, shutdown *)
Module SdsSubscriptions.
Import SdsConnection.

Definition set_subscribedStreams (s : list string) (l : t) : t :=
  mk (connected l) (reconnectAttempts l) (lastError l) s
     (reconnectTimer l) (heartbeatTimer l) (pendingSubscriptions l) (signals l).

(** What [handleMessage] receives, by the [type] field of the parsed JSON;
    [malformed] is text that [JSON.parse] rejects.  An ['event'] message is
    passed on to [handleEvent] and leaves the connection state alone. *)
Inductive Message : Type :=
| event_message
| subscribed (streamId : string)
| unsubscribed (streamId : string)
| error_message
| pong
| unknown
| malformed.

Definition handleMessage (m : Message) (l : t) : t :=
  match m with
  | event_message => l
  | subscribed streamId =>
      let l := signal (logged Info "Subscribed to stream") l in
      if bool_decide (streamId ∈ subscribedStreams l) then l
      else set_subscribedStreams (subscribedStreams l ++ [streamId]) l
  | unsubscribed streamId =>
      let l := signal (logged Info "Unsubscribed from stream") l in
      set_subscribedStreams
        (List.filter (fun s => negb (bool_decide (s = streamId))) (subscribedStreams l)) l
  | error_message => signal (logged Error "SDS error message") l
  | pong => l
  | unknown => signal (logged Debug "Unknown message type") l
  | malformed => signal (logged Error "Failed to parse SDS message") l
  end.

(** [Set.prototype.add] and [Set.prototype.delete] on the queue, which keeps
    insertion order. *)
Definition queue_add (s : string) (q : list string) : list string :=
  if bool_decide (s ∈ q) then q else q ++ [s].

Definition queue_delete (s : string) (q : list string) : list string :=
  List.filter (fun x => negb (bool_decide (x = s))) q.

(** [socketOpen] says whether the socket exists and is in state OPEN. *)
Definition subscribeToStream (socketOpen : bool) (streamId : string) (l : t) : t :=
  if socketOpen then
    signal (logged Info "Subscription request sent") (signal (send "subscribe" streamId) l)
  else
    signal (logged Warn "Not connected, subscription queued")
           (set_pendingSubscriptions (queue_add streamId (pendingSubscriptions l)) l).

Definition unsubscribeFromStream (socketOpen : bool) (streamId : string) (l : t) : t :=
  if socketOpen then signal (send "unsubscribe" streamId) l
  else set_pendingSubscriptions (queue_delete streamId (pendingSubscriptions l)) l.

(** [resubscribeToStreams], called from the socket's 'open' handler: both
    loops run over the collections as they are when the loop starts. *)
Definition resubscribeToStreams (l : t) : t :=
  let l := fold_left (fun l s => subscribeToStream true s l) (subscribedStreams l) l in
  fold_left
    (fun l s =>
       let l := subscribeToStream true s l in
       set_pendingSubscriptions (queue_delete s (pendingSubscriptions l)) l)
    (pendingSubscriptions l) l.

(** The streams [subscribeToAllCampaigns] reads from the store:
    [findMany({ where: { status: 'ACTIVE' }, select: { sdsStreamId } })]. *)
Definition activeStreams (w : World) : list string :=
  map Campaign.sdsStreamId
      (List.filter (fun c => bool_decide (Campaign.status c = ACTIVE)) (campaigns w)).

(** [subscribeToAllCampaigns()]: one [subscribeToStream] per ACTIVE
    campaign.  The loop's awaits settle without waiting for the network, so
    the socket is in the same state for every stream. *)
Definition subscribeToAllCampaigns (socketOpen : bool) (w : World) (l : t) : t :=
  signal (logged Info "Subscribed to all active campaigns")
         (fold_left (fun l s => subscribeToStream socketOpen s l) (activeStreams w) l).

(** [disconnect()]: both timers are cleared and the socket is closed. *)
Definition disconnect (l : t) : t :=
  let l := stopHeartbeat l in
  let l := set_reconnectTimer None l in
  signal (logged Info "SDS listener disconnected") (set_connected false l).

(** The requests written to the socket, oldest first. *)
Definition sent (l : t) : list (string * string) :=
  omap (fun s => match s with
                 | send action streamId => Some (action, streamId)
                 | _ => None
                 end) (signals l).

End SdsSubscriptions.

(** ** Fan-out Hub: connections and control messages *)
Module WebSocketHub.
Import WebSocketHandler.

(** Control messages of a viewer, by the [type] field of the parsed JSON;
    [streams] is [None] when the field is not an array. *)
Inductive ClientMessage : Type :=
| subscribe (streams : option (list string))
| unsubscribe (streams : option (list string))
| ping
| unknown
| malformed.

Definition handleMessage (m : ClientMessage) (client : Client) : Client :=
  match m with
  | subscribe (Some streams) => handleSubscribe streams client
  | unsubscribe (Some streams) => handleUnsubscribe streams client
  | ping => sendToClient pong client
  | subscribe None | unsubscribe None | unknown | malformed => client
  end.

(** [handleConnection]: the new connection is registered under its fresh
    identifier and greeted. *)
Definition handleConnection (clientId : string) (clients : gmap string Client)
  : gmap string Client :=
  <[clientId := sendToClient (connected_msg clientId) (mkClient true ∅ [])]> clients.

(** The socket's 'close' handler. *)
Definition onClose (clientId : string) (clients : gmap string Client)
  : gmap string Client :=
  delete clientId clients.

(** A control message arriving on the connection [clientId]. *)
Definition onMessage (clientId : string) (m : ClientMessage)
  (clients : gmap string Client) : gmap string Client :=
  match clients !! clientId with
  | Some client => <[clientId := handleMessage m client]> clients
  | None => clients
  end.

(** The events among the messages written to a connection. *)
Definition events (client : Client) : list (string * RealtimeEvent) :=
  omap (fun m => match m with
                 | event stream ev => Some (stream, ev)
                 | _ => None
                 end) (received client).

(** The property names an object literal inherits from [Object.prototype].
    For these [subscriptions[stream] || 0] does not start from 0, and the
    table of [getStats] below does not describe them. *)
Definition inheritedNames : list string :=
  ["constructor"; "hasOwnProperty"; "isPrototypeOf"; "propertyIsEnumerable";
   "toLocaleString"; "toString"; "valueOf"; "__proto__";
   "__defineGetter__"; "__defineSetter__"; "__lookupGetter__"; "__lookupSetter__"].

(** [getStats()]: the number of registered connections and, per channel
    name, the number of connections subscribed to it; a channel nobody is
    subscribed to has no entry. *)
Definition countStream (stream : string) (acc : gmap string nat) : gmap string nat :=
  <[stream := S (default 0%nat (acc !! stream))]> acc.

Definition getStats (clients : gmap string Client) : nat * gmap string nat :=
  (size clients,
   map_fold (fun _ client acc => set_fold countStream acc (subscribedStreams client))
            ∅ clients).



End WebSocketHub.

(** ** Reading the cache store, and its connection retries *)
Module RedisReads.

(** [LRANGE key start stop]: negative indices count from the end of the list
    and out-of-range indices are clipped. *)
Definition lrange {A} (l : list A) (start stop : Z) : list A :=
  let len := Z.of_nat (length l) in
  let start := if start <? 0 then start + len else start in
  let stop := if stop <? 0 then stop + len else stop in
  let start := Z.max 0 start in
  if (stop <? start) || (len <=? start) then []
  else take (Z.to_nat (Z.min stop (len - 1) - start + 1)) (drop (Z.to_nat start) l).

(** [getRecentFeed(key, count)]. *)
Definition getRecentFeed (key : string) (count : Z) : M (list RealtimeEvent) :=
  gets (fun w => lrange (default [] (feeds w !! key)) 0 (count - 1)).

(** [Math.min(parseInt(req.query.limit) || 20, 50)]; [None] stands for a
    missing or non-numeric parameter. *)
Definition requestedLimit (limit : option Z) : Z :=
  Z.min (match limit with
         | Some n => if n =? 0 then 20 else n
         | None => 20
         end) 50.


(** [retryStrategy] of the cache client: [None] stops the retries. *)
Definition retryStrategy (times : Z) : option Z :=
  if 10 <? times then None else Some (Z.min (times * 100) 3000).

End RedisReads.

(** ** Configuration from the environment ([validateConfig]) *)
Module Env.

(** [process.env.NAME || fallback]: an unset or empty variable gives the
    fallback. *)
Definition or_else (value : option string) (fallback : string) : string :=
  match value with
  | Some v => if bool_decide (v = "") then fallback else v
  | None => fallback
  end.

Record Settings : Type := mkSettings {
  env : string;
  databaseUrl : string;
  jwtSecret : string;
}.

Definition developmentSecret : string := "development-secret-change-in-production".

Definition load (vars : gmap string string) : Settings :=
  mkSettings (or_else (vars !! "NODE_ENV") "development")
             (or_else (vars !! "DATABASE_URL") "")
             (or_else (vars !! "JWT_SECRET") developmentSecret).

(** The names of the required variables whose value is empty. *)
Definition missing (c : Settings) : list string :=
  fst <$> List.filter (fun kv => bool_decide (snd kv = ""))
            [("DATABASE_URL", databaseUrl c); ("JWT_SECRET", jwtSecret c)].

Fixpoint join (sep : string) (parts : list string) : string :=
  match parts with
  | [] => ""
  | [x] => x
  | x :: rest => x +:+ sep +:+ join sep rest
  end.

(** [validateConfig()]: [inl message] is the error it throws. *)
Definition validateConfig (c : Settings) : string + unit :=
  match missing c with
  | _ :: _ =>
      inl ("Missing required environment variables: " +:+ join ", " (missing c))
  | [] =>
      if bool_decide (env c = "production") && bool_decide (jwtSecret c = developmentSecret)
      then inl "JWT_SECRET must be changed in production"
      else inr tt
  end.

End Env.

(** ** Store invariants and frames *)
Module Invariants.

(** The uniqueness constraints of the donation table: one row per transaction
    hash, one row per identifier, every identifier already handed out. *)
Definition unique_rows (w : World) : Prop :=
  List.NoDup (map Donation.txHash (donations w))
  /\ List.NoDup (map Donation.id (donations w))
  /\ Forall (fun d => (Donation.id d < nextId w)%nat) (donations w).

(** [w'] differs from [w] at most in the campaign table and the trace. *)
Definition same_but_campaigns (w w' : World) : Prop :=
  donations w' = donations w /\ donors w' = donors w
  /\ withdrawals w' = withdrawals w /\ sdsEvents w' = sdsEvents w
  /\ nextId w' = nextId w /\ feeds w' = feeds w /\ leaderboards w' = leaderboards w.

(** [w'] differs from [w] at most in the raw-event table and the trace. *)
Definition same_ledger (w w' : World) : Prop :=
  donations w' = donations w /\ campaigns w' = campaigns w /\ donors w' = donors w
  /\ withdrawals w' = withdrawals w /\ nextId w' = nextId w
  /\ feeds w' = feeds w /\ leaderboards w' = leaderboards w.

(** The [where] clause of the withdrawal notification's [updateMany]. *)
Definition settles (campaignId toAddress : string) (amount : Z) (wd : Withdrawal.t) : bool :=
  bool_decide (Withdrawal.campaignId wd = campaignId)
  && bool_decide (Withdrawal.toAddress wd = JsString.toLowerCase toAddress)
  && bool_decide (Withdrawal.amount wd = amount)
  && bool_decide (Withdrawal.status wd = Withdrawal.PROCESSING).

(** The messages published on the broadcast channels, oldest first. *)
Definition published (t : list Effect) : list (string * RealtimeEvent) :=
  omap (fun e => match e with
                 | Publish channel ev => Some (channel, ev)
                 | _ => None
                 end) t.

End Invariants.

(** ** What the sweep writes for a ledger answer *)
Module SweepOutcome.
Import BlockchainService.

(** The [data] the sweep's loop body writes to the selected row. *)
Definition verdict (now : Z) (answer : ReceiptAnswer) (d : Donation.t) : Donation.t :=
  match answer with
  | NoReceipt => set_donation_status ORPHANED d
  | Receipt status blockNumber =>
      if bool_decide (status = Some 1) then confirmFromReceipt blockNumber now d
      else set_donation_status FAILED d
  | RpcFailure _ => d
  end.

End SweepOutcome.

(** ** The ledger watcher's status query *)
Module TransactionStatus.

Record t : Type := mk {
  exists_ : bool;
  confirmed : bool;
  blockNumber : option Z;
  status : option Z;
}.

(** [getTransactionStatus(txHash)] on the ledger's answer; [inl] is the
    rejection it passes on. *)
Definition getTransactionStatus (answer : ReceiptAnswer) : string + t :=
  match answer with
  | RpcFailure msg => inl msg
  | NoReceipt => inr (mk false false None None)
  | Receipt status blockNumber =>
      inr (mk true (bool_decide (status = Some 1)) (Some blockNumber) status)
  end.

End TransactionStatus.

(** ** Ledgers that fail or report a revert *)
Module Ledgers.

(** The ledger cannot be reached. *)
Definition unreachable (txHash : string) : ReceiptAnswer := RpcFailure "timeout".

(** The ledger reports every transaction as reverted. *)
Definition reverted (txHash : string) : ReceiptAnswer := Receipt (Some 0) 7.

End Ledgers.

(** ** Rows of the raw-event table *)
Module RawEvents.

(** The row stored for a stream event on arrival. *)
Definition received (now : Z) (ev : RawSdsEvent.t) : SdsEventRow.t :=
  SdsEventRow.mk (RawSdsEvent.id ev) (RawSdsEvent.streamId ev) (RawSdsEvent.type ev)
    (RawSdsEvent.payload ev) now None None 0.

(** [data: { processedAt }]. *)
Definition processed (now : Z) (r : SdsEventRow.t) : SdsEventRow.t :=
  SdsEventRow.mk (SdsEventRow.eventId r) (SdsEventRow.streamId r)
    (SdsEventRow.eventType r) (SdsEventRow.payload r) (SdsEventRow.receivedAt r)
    (Some now) (SdsEventRow.processingError r) (SdsEventRow.retryCount r).

(** [data: { processingError, retryCount: { increment: 1 } }]. *)
Definition errored (message : string) (r : SdsEventRow.t) : SdsEventRow.t :=
  SdsEventRow.mk (SdsEventRow.eventId r) (SdsEventRow.streamId r)
    (SdsEventRow.eventType r) (SdsEventRow.payload r) (SdsEventRow.receivedAt r)
    (SdsEventRow.processedAt r) (Some message) (SdsEventRow.retryCount r + 1).

(** Whether the event gets as far as creating a donation row: a donation
    event with a well-formed payload, a transaction hash not yet in the
    table and a known campaign. *)
Definition creates_donation (ev : RawSdsEvent.t) (w : World) : bool :=
  bool_decide (RawSdsEvent.type ev = "donation")
  && match SdsListenerService.safeParse (RawSdsEvent.payload ev) with
     | None => false
     | Some p =>
         match find (fun x => bool_decide (Donation.txHash x = DonationEvent.txHash p))
                    (donations w),
               find (fun x => bool_decide
                                (Campaign.onChainId x = DonationEvent.campaignOnChainId p))
                    (campaigns w) with
         | None, Some _ => true
         | _, _ => false
         end
     end.
End RawEvents.

(** * Properties *)

(** *** Facts about the conversion *)
Module JsNumberFacts.
Import JsNumber.

Lemma round_nonneg_small n : n < 2 ^ 53 -> round_nonneg n = n.
Proof.
  intros H. unfold round_nonneg.
  destruct (Z.ltb_spec n (2 ^ 53)); [reflexivity | lia].
Qed.

(** Shape of the rounding above [2^53]. *)
Lemma round_nonneg_big n :
  2 ^ 53 <= n ->
  let e := Z.log2 n - 52 in
  1 <= e /\ 2 ^ 52 <= n / 2 ^ e < 2 ^ 53 /\
  (n / 2 ^ e) * 2 ^ e <= round_nonneg n <= (n / 2 ^ e + 1) * 2 ^ e.
Proof.
  intros Hn e.
  assert (Hpos : 0 < n) by (assert (0 < 2 ^ 53) by (apply Z.pow_pos_nonneg; lia); lia).
  assert (Hlog : 53 <= Z.log2 n).
  { apply Z.log2_le_pow2; [lia|exact Hn]. }
  assert (He : 1 <= e) by (unfold e; lia).
  destruct (Z.log2_spec n Hpos) as [Hlo Hhi].
  assert (Hpe : 0 < 2 ^ e) by (apply Z.pow_pos_nonneg; lia).
  assert (E1 : 2 ^ Z.log2 n = 2 ^ 52 * 2 ^ e).
  { rewrite <- Z.pow_add_r by lia. f_equal. unfold e. lia. }
  assert (E2 : 2 ^ Z.succ (Z.log2 n) = 2 ^ 53 * 2 ^ e).
  { rewrite <- Z.pow_add_r by lia. f_equal. unfold e. lia. }
  assert (Hq : 2 ^ 52 <= n / 2 ^ e < 2 ^ 53).
  { split.
    - apply Z.div_le_lower_bound; [lia|]. rewrite Z.mul_comm. lia.
    - apply Z.div_lt_upper_bound; [lia|]. rewrite Z.mul_comm. lia. }
  split; [exact He|]. split; [exact Hq|].
  unfold round_nonneg. destruct (Z.ltb_spec n (2 ^ 53)); [lia|].
  fold e. cbv zeta.
  destruct (n mod 2 ^ e <? 2 ^ (e - 1)); [nia|].
  destruct (2 ^ (e - 1) <? n mod 2 ^ e); [nia|].
  destruct (Z.even (n / 2 ^ e)); nia.
Qed.

(** Two integers at the same exponent: the rounding is monotone. *)
Lemma round_cut_mono e m n :
  1 <= e -> 0 <= m <= n ->
  let rnd x :=
    (if x mod 2 ^ e <? 2 ^ (e - 1) then x / 2 ^ e
     else if 2 ^ (e - 1) <? x mod 2 ^ e then x / 2 ^ e + 1
     else if Z.even (x / 2 ^ e) then x / 2 ^ e else x / 2 ^ e + 1) * 2 ^ e in
  rnd m <= rnd n.
Proof.
  intros He Hmn rnd.
  assert (Hpe : 0 < 2 ^ e) by (apply Z.pow_pos_nonneg; lia).
  assert (Hq : m / 2 ^ e <= n / 2 ^ e) by (apply Z.div_le_mono; lia).
  pose proof (Z.div_mod m (2 ^ e) ltac:(lia)) as Dm.
  pose proof (Z.div_mod n (2 ^ e) ltac:(lia)) as Dn.
  pose proof (Z.mod_pos_bound m (2 ^ e) Hpe) as Bm.
  pose proof (Z.mod_pos_bound n (2 ^ e) Hpe) as Bn.
  assert (Hlo : forall x, (x / 2 ^ e) * 2 ^ e <= rnd x <= (x / 2 ^ e + 1) * 2 ^ e).
  { intros x. unfold rnd.
    destruct (x mod 2 ^ e <? 2 ^ (e - 1)); [nia|].
    destruct (2 ^ (e - 1) <? x mod 2 ^ e); [nia|].
    destruct (Z.even (x / 2 ^ e)); nia. }
  destruct (Z.eq_dec (m / 2 ^ e) (n / 2 ^ e)) as [Heq | Hne].
  - assert (Hr : m mod 2 ^ e <= n mod 2 ^ e) by nia.
    unfold rnd. rewrite Heq.
    destruct (Z.ltb_spec (m mod 2 ^ e) (2 ^ (e - 1)));
      destruct (Z.ltb_spec (n mod 2 ^ e) (2 ^ (e - 1))); try lia;
      destruct (Z.ltb_spec (2 ^ (e - 1)) (m mod 2 ^ e));
      destruct (Z.ltb_spec (2 ^ (e - 1)) (n mod 2 ^ e)); try lia;
      destruct (Z.even (n / 2 ^ e)); nia.
  - pose proof (Hlo m). pose proof (Hlo n). nia.
Qed.

Lemma round_nonneg_mono m n :
  0 <= m <= n -> round_nonneg m <= round_nonneg n.
Proof.
  intros Hmn.
  destruct (Z.lt_ge_cases n (2 ^ 53)) as [Hn | Hn].
  { rewrite !round_nonneg_small by lia. lia. }
  destruct (round_nonneg_big n Hn) as (Hen & Hqn & Hrn).
  assert (Hposn : 0 < n) by lia.
  destruct (Z.log2_spec n Hposn) as [Hlon Hhin].
  assert (Hp52 : 0 < 2 ^ (Z.log2 n - 52)) by (apply Z.pow_pos_nonneg; lia).
  assert (En : 2 ^ Z.log2 n = 2 ^ 52 * 2 ^ (Z.log2 n - 52)).
  { rewrite <- Z.pow_add_r by lia. f_equal. lia. }
  destruct (Z.lt_ge_cases m (2 ^ 53)) as [Hm | Hm].
  { rewrite (round_nonneg_small m) by lia.
    assert (2 ^ 1 <= 2 ^ (Z.log2 n - 52)) by (apply Z.pow_le_mono_r; lia).
    change (2 ^ 1) with 2 in *.
    assert (2 ^ 53 = 2 ^ 52 * 2) by reflexivity.
    nia. }
  destruct (round_nonneg_big m Hm) as (Hem & Hqm & Hrm).
  assert (Hposm : 0 < m) by lia.
  assert (Hll : Z.log2 m <= Z.log2 n) by (apply Z.log2_le_mono; lia).
  destruct (Z.eq_dec (Z.log2 m) (Z.log2 n)) as [Heq | Hne].
  - pose proof (round_cut_mono (Z.log2 n - 52) m n Hen Hmn) as H.
    cbv zeta in H. unfold round_nonneg.
    destruct (Z.ltb_spec m (2 ^ 53)); [lia|].
    destruct (Z.ltb_spec n (2 ^ 53)); [lia|].
    rewrite Heq. exact H.
  - assert (Em : 2 ^ (Z.log2 m + 1) = 2 ^ 53 * 2 ^ (Z.log2 m - 52)).
    { rewrite <- Z.pow_add_r by lia. f_equal. lia. }
    assert (Hp52m : 0 < 2 ^ (Z.log2 m - 52)) by (apply Z.pow_pos_nonneg; lia).
    assert (Hstep : 2 ^ (Z.log2 m + 1) <= 2 ^ Z.log2 n)
      by (apply Z.pow_le_mono_r; lia).
    nia.
Qed.

Lemma round_nonneg_nonneg n : 0 <= n -> 0 <= round_nonneg n.
Proof.
  intros H. pose proof (round_nonneg_mono 0 n ltac:(lia)) as M.
  rewrite (round_nonneg_small 0) in M by reflexivity. exact M.
Qed.

(** Conversion is exact on the safe-integer range. *)
Lemma Number_exact n : - 2 ^ 53 < n < 2 ^ 53 -> Number n = Fin n.
Proof.
  intros H. unfold Number.
  assert (Hmax : 2 ^ 53 <= max_finite) by (vm_compute; discriminate).
  destruct (Z.leb_spec 0 n).
  - rewrite round_nonneg_small by lia.
    destruct (Z.leb_spec n max_finite); [reflexivity | lia].
  - rewrite round_nonneg_small by lia.
    destruct (Z.leb_spec (- n) max_finite); [f_equal; lia | lia].
Qed.

(** Rounding never reverses an order: [m <= n] gives [Number n >= Number m]. *)
Lemma Number_mono m n : m <= n -> ge (Number n) (Number m) = true.
Proof.
  intros Hmn. unfold Number.
  destruct (Z.leb_spec 0 m) as [Hm | Hm]; destruct (Z.leb_spec 0 n) as [Hn | Hn];
    try lia.
  - pose proof (round_nonneg_mono m n ltac:(lia)).
    destruct (Z.leb_spec (round_nonneg m) max_finite);
      destruct (Z.leb_spec (round_nonneg n) max_finite); simpl; try reflexivity; lia.
  - pose proof (round_nonneg_nonneg n Hn).
    pose proof (round_nonneg_nonneg (- m) ltac:(lia)).
    destruct (Z.leb_spec (round_nonneg (- m)) max_finite);
      destruct (Z.leb_spec (round_nonneg n) max_finite); simpl; try reflexivity; lia.
  - pose proof (round_nonneg_mono (- n) (- m) ltac:(lia)).
    destruct (Z.leb_spec (round_nonneg (- m)) max_finite);
      destruct (Z.leb_spec (round_nonneg (- n)) max_finite); simpl; try reflexivity; lia.
Qed.

End JsNumberFacts.

(** *** Facts about lower-casing *)
Module JsStringFacts.
Import JsString.
Local Open Scope nat_scope.

Lemma lower_ascii_idem c : lower_ascii (lower_ascii c) = lower_ascii c.
Proof. destruct c as [[] [] [] [] [] [] [] []]; reflexivity. Qed.

Lemma toLowerCase_idem s : toLowerCase (toLowerCase s) = toLowerCase s.
Proof.
  induction s as [|c r IH]; simpl; [reflexivity|].
  now rewrite lower_ascii_idem, IH.
Qed.

Lemma toLowerCase_length s : String.length (toLowerCase s) = String.length s.
Proof. induction s; simpl; congruence. Qed.

Lemma is_hex_lower c : is_hex (lower_ascii c) = is_hex c.
Proof. destruct c as [[] [] [] [] [] [] [] []]; reflexivity. Qed.

End JsStringFacts.

(** ** Stream Listener: reconnection *)
Module SdsConnectionFacts.
Import SdsConnection.

(** The delay armed for attempt count [n] is [min(5000 * 2^n, 60000)]. *)
Lemma scheduleReconnect_delay l :
  reconnectTimer (scheduleReconnect l)
  = Some (Z.min (5000 * 2 ^ reconnectAttempts l) 60000)
  /\ reconnectAttempts (scheduleReconnect l) = reconnectAttempts l.
Proof. split; reflexivity. Qed.

Lemma reconnectDelay_ceiling n : reconnectDelay n <= 60000.
Proof. unfold reconnectDelay. lia. Qed.

Lemma reconnectDelay_capped n : 4 <= n -> reconnectDelay n = 60000.
Proof.
  intros H. unfold reconnectDelay, config.sds.reconnectInterval.
  assert (2 ^ 4 <= 2 ^ n) by (apply Z.pow_le_mono_r; lia).
  change (2 ^ 4) with 16 in *. lia.
Qed.

(** The socket's close path honours the budget: below it a timer is armed
    with the backoff delay, at or above it nothing new is armed and the
    give-up signal is emitted. *)
Lemma handleDisconnect_below_budget l :
  reconnectAttempts l < config.sds.maxReconnectAttempts ->
  reconnectTimer (handleDisconnect l) = Some (reconnectDelay (reconnectAttempts l)).
Proof.
  intros H. unfold handleDisconnect. cbn.
  destruct (Z.ltb_spec (reconnectAttempts l) config.sds.maxReconnectAttempts);
    [reflexivity | lia].
Qed.

Lemma handleDisconnect_budget_spent l :
  config.sds.maxReconnectAttempts <= reconnectAttempts l ->
  reconnectTimer (handleDisconnect l) = reconnectTimer l
  /\ signals (handleDisconnect l)
     = signals l ++ [emit "disconnected";
                     logged Error "Max reconnection attempts reached";
                     emit "maxReconnectAttemptsReached"].
Proof.
  intros H. unfold handleDisconnect. cbn.
  destruct (Z.ltb_spec (reconnectAttempts l) config.sds.maxReconnectAttempts);
    [lia |].
  cbn. split; [reflexivity|]. now rewrite <- !app_assoc.
Qed.

(** A close event or a rejected attempt leaves the listener disconnected
    with a timer armed, and an attempt is counted whatever the counter is. *)
Lemma step_keeps_retrying l i :
  rejects i = true -> retrying l ->
  retrying (step l i)
  /\ reconnectAttempts (step l i)
     = reconnectAttempts l + (if is_attempt i then 1 else 0).
Proof.
  intros Hi (Hc & n & Hn & Ht). destruct i as [|outcome].
  - cbn [step is_attempt]. unfold handleDisconnect. cbn.
    destruct (Z.ltb_spec (reconnectAttempts l) config.sds.maxReconnectAttempts).
    + split; [|cbn; lia]. split; [reflexivity|].
      exists (reconnectAttempts l). cbn. split; [lia | reflexivity].
    + split; [|cbn; lia]. split; [reflexivity|].
      exists n. cbn. split; [lia | exact Ht].
  - cbn [step is_attempt]. rewrite Ht.
    destruct outcome as [|message listened|]; cbn [rejects] in Hi.
    + discriminate.
    + subst listened. unfold reconnectTimerCallback. cbn. rewrite Hc.
      split; [|reflexivity]. split; [exact Hc|].
      exists (reconnectAttempts l + 1). cbn. split; [lia | reflexivity].
    + split; [|reflexivity]. split; [exact Hc|].
      exists (reconnectAttempts l + 1). cbn. split; [lia | reflexivity].
Qed.

Lemma run_keeps_retrying inputs : forall l,
  Forall (fun i => rejects i = true) inputs -> retrying l ->
  retrying (run l inputs)
  /\ reconnectAttempts (run l inputs)
     = reconnectAttempts l + Z.of_nat (length (List.filter is_attempt inputs)).
Proof.
  induction inputs as [|i inputs IH]; intros l Hall Hre.
  - cbn. split; [exact Hre | lia].
  - apply Forall_cons in Hall as [Hi Hall].
    destruct (step_keeps_retrying l i Hi Hre) as [Ha Hc].
    destruct (IH (step l i) Hall Ha) as [Ha' Hc'].
    change (run l (i :: inputs)) with (run (step l i) inputs).
    split; [exact Ha'|]. rewrite Hc', Hc. cbn [List.filter].
    destruct (is_attempt i); cbn [length]; lia.
Qed.

(** With no timer armed, a timer cannot fire. *)
Lemma run_without_timer outcomes : forall l,
  reconnectTimer l = None -> run l (map TimerElapsed outcomes) = l.
Proof.
  induction outcomes as [|o outcomes IH]; intros l Ht; [reflexivity|].
  cbn [map]. change (run l (TimerElapsed o :: map TimerElapsed outcomes))
    with (run (step l (TimerElapsed o)) (map TimerElapsed outcomes)).
  cbn [step]. rewrite Ht. now apply IH.
Qed.

(** C6 (what the code does when a reconnection attempt fails): the listener
    stops after [maxReconnectAttempts] attempts in neither configuration of
    the application.
    - While the application listens for 'error' (or when the attempt fails
      at set-up), every failed attempt is rescheduled from the callback's
      [catch] block, which has no budget check: from a fresh listener whose
      socket has closed, along any sequence of close events and rejected
      attempts, a reconnect timer stays armed - with a delay
      [min(5000 * 2^n, 60000)] - and the attempt counter equals the number
      of attempts made, so it grows past [maxReconnectAttempts] without the
      attempts stopping.
    - With no 'error' listener, as the service is shipped, the first attempt
      that fails with a socket error ends the retries: the error is thrown
      out of the socket's handler, the listener is left disconnected with
      the counter at 1 and no timer armed, the give-up signal is not among
      what it emitted, and no later timer can fire. *)
Theorem C6_reconnect_budget_is_not_enforced inputs message :
  Forall (fun i => rejects i = true) inputs ->
  let heard := run initial (SocketClosed :: inputs) in
  let unheard := run initial [SocketClosed; TimerElapsed (SocketError message false)] in
  (reconnectAttempts heard = Z.of_nat (length (List.filter is_attempt inputs))
   /\ connected heard = false
   /\ exists n, 0 <= n <= reconnectAttempts heard
                /\ reconnectTimer heard = Some (Z.min (5000 * 2 ^ n) 60000))
  /\ (connected unheard = false
      /\ reconnectAttempts unheard = 1
      /\ reconnectTimer unheard = None
      /\ signals unheard
         = [emit "disconnected"; logged Info "Scheduling reconnection...";
            logged Info "Connecting to SDS..."; logged Error "SDS WebSocket error";
            thrown message]
      /\ forall outcomes, run unheard (map TimerElapsed outcomes) = unheard).
Proof.
  intros Hall. cbv zeta. split.
  - change (run initial (SocketClosed :: inputs))
      with (run (step initial SocketClosed) inputs).
    assert (Hre : retrying (step initial SocketClosed)).
    { split; [reflexivity|]. exists 0. split; [cbn; lia | reflexivity]. }
    destruct (run_keeps_retrying inputs _ Hall Hre) as [[Hc Ha] Hn].
    split; [rewrite Hn; reflexivity|]. split; [exact Hc | exact Ha].
  - split; [reflexivity|]. split; [reflexivity|]. split; [reflexivity|].
    split; [reflexivity|]. intros outcomes. now apply run_without_timer.
Qed.

Lemma C6_reconnect_budget_witness :
  (reconnectAttempts (run initial (SocketClosed :: Examples.elevenFailures)) = 11
   /\ reconnectTimer (run initial (SocketClosed :: Examples.elevenFailures)) = Some 60000
   /\ config.sds.maxReconnectAttempts = 10)
  /\ reconnectAttempts
       (run initial [SocketClosed; TimerElapsed (SocketError "ECONNREFUSED" false)]) = 1
  /\ reconnectTimer
       (run initial [SocketClosed; TimerElapsed (SocketError "ECONNREFUSED" false)]) = None.
Proof.
  assert (Hall : Forall (fun i => rejects i = true) Examples.elevenFailures).
  { unfold Examples.elevenFailures. cbn.
    repeat (apply Forall_cons; split; [reflexivity|]). apply Forall_nil_2. }
  destruct (C6_reconnect_budget_is_not_enforced Examples.elevenFailures "ECONNREFUSED" Hall)
    as ((Hn & _ & _) & _ & H1 & Ht & _).
  split; [|split; [exact H1 | exact Ht]].
  split; [exact Hn | split; reflexivity].
Defined.

End SdsConnectionFacts.

(** ** Fan-out Hub *)
Module WebSocketHandlerFacts.
Import WebSocketHandler.

Lemma wants_iff stream ev c :
  wants stream ev c = true <->
  stream ∈ subscribedStreams c \/ "*" ∈ subscribedStreams c
  \/ ("donations" ∈ subscribedStreams c /\ is_donation ev = true).
Proof.
  unfold wants.
  rewrite !orb_true_iff, andb_true_iff, !bool_decide_eq_true. tauto.
Qed.

(** C9 as stated fails: the viewer subscribed to ["donations"] only is sent
    the donation relayed on channel ["campaign:c1"], although neither that
    channel nor the wildcard is in its subscription set. *)
Lemma C9_delivery_outside_subscription_set :
  ~ (forall (clients : gmap string Client) stream ev id c,
       clients !! id = Some c ->
       ((exists c', broadcastToStream stream ev clients !! id = Some c'
                    /\ received c' = received c ++ [event stream ev])
        <-> (stream ∈ subscribedStreams c \/ "*" ∈ subscribedStreams c))).
Proof.
  intros H.
  specialize (H Examples.registry "campaign:c1" (EvDonation Examples.donationData)
                "viewer-1" Examples.viewer eq_refl).
  destruct H as [H _].
  assert (Hin : "campaign:c1" ∈ subscribedStreams Examples.viewer
                \/ "*" ∈ subscribedStreams Examples.viewer).
  { apply H. eexists. split; [vm_compute; reflexivity | reflexivity]. }
  cbn in Hin. destruct Hin as [Hin | Hin]; apply elem_of_singleton in Hin; discriminate.
Qed.

(** C9, amended: one relay on a channel writes at most one message to each
    connection, creates and removes no connection, and writes to a
    connection exactly when its socket is open and its subscription set holds
    the channel, or the wildcard, or - for a donation event - ["donations"]. *)
Theorem C9_broadcast_reaches_matching_open_clients
  (clients : gmap string Client) stream ev id c :
  clients !! id = Some c ->
  broadcastToStream stream ev clients !! id
  = Some (if ws_open c && wants stream ev c
          then mkClient (ws_open c) (subscribedStreams c)
                        (received c ++ [event stream ev])
          else c)
  /\ (wants stream ev c = true <->
      stream ∈ subscribedStreams c \/ "*" ∈ subscribedStreams c
      \/ ("donations" ∈ subscribedStreams c /\ is_donation ev = true))
  /\ dom (broadcastToStream stream ev clients) = dom clients.
Proof.
  intros Hc. split; [|split].
  - unfold broadcastToStream. rewrite lookup_fmap, Hc. cbn.
    unfold sendToClient.
    destruct (wants stream ev c), (ws_open c) eqn:Ho; cbn; reflexivity.
  - apply wants_iff.
  - unfold broadcastToStream. apply dom_fmap_L.
Qed.

Lemma C9_broadcast_witness :
  Examples.registry !! "viewer-1" = Some Examples.viewer
  /\ broadcastToStream "donations" (EvDonation Examples.donationData)
       Examples.registry !! "viewer-1"
     = Some (mkClient true {["donations"]}
               [event "donations" (EvDonation Examples.donationData)]).
Proof.
  split; [reflexivity|].
  destruct (C9_broadcast_reaches_matching_open_clients Examples.registry "donations"
              (EvDonation Examples.donationData) "viewer-1" Examples.viewer eq_refl)
    as (H & _ & _).
  rewrite H. reflexivity.
Defined.

End WebSocketHandlerFacts.

(** ** Ledger Watcher: sample runs *)
Module LedgerWatcherRuns.
Import Examples Runs.

(** C1 (what the code does): the confirmation of [txAA] is delivered to a
    store where [txAA] is already CONFIRMED and campaign [c1] holds one unit
    from one donor; afterwards the row's confirmation time is overwritten,
    the running total is two units and the donor count is two. *)
Theorem C1_redelivered_confirmation_counts_again :
  (Donation.status <$> donations confirmed) = [CONFIRMED]
  /\ (Donation.txHash <$> donations confirmed) = [DonationReceivedEvent.transactionHash ledgerAA]
  /\ (Campaign.currentAmount <$> campaigns confirmed) = [oneUnit]
  /\ (Campaign.donorCount <$> campaigns confirmed) = [1]
  /\ (Donation.status <$> donations redelivered) = [CONFIRMED]
  /\ (Donation.confirmedAt <$> donations confirmed) = [Some 1700000000500]
  /\ (Donation.confirmedAt <$> donations redelivered) = [Some 1700000001000]
  /\ (Campaign.currentAmount <$> campaigns redelivered) = [2 * oneUnit]
  /\ (Campaign.donorCount <$> campaigns redelivered) = [2].
Proof. vm_compute. repeat split. Qed.

(** C3 (what the code does): the sweep has selected the pending row of
    [txAA] when the ledger's notification for [txAA] is handled; the sweep
    then confirms the row it read as PENDING.  One CONFIRMED row results, but
    campaign [c1] has been credited twice. *)
Theorem C3_race_credits_campaign_twice :
  (Donation.status <$> donations announced) = [PENDING]
  /\ (Campaign.currentAmount <$> campaigns announced) = [0]
  /\ (Donation.status <$> donations raced) = [CONFIRMED]
  /\ (Campaign.currentAmount <$> campaigns raced) = [2 * oneUnit]
  /\ (Campaign.donorCount <$> campaigns raced) = [2]
  /\ (Campaign.currentAmount <$> campaigns swept) = [oneUnit]
  /\ (Campaign.donorCount <$> campaigns swept) = [1].
Proof. vm_compute. repeat split. Qed.

End LedgerWatcherRuns.

(** ** Store primitives *)
Module StoreFacts.

Lemma find_update_where {A} (p : A -> bool) (f : A -> A) l c :
  (forall x, p (f x) = p x) ->
  find p l = Some c -> find p (prisma.update_where p f l) = Some (f c).
Proof.
  intros Hp. induction l as [|x l IH]; cbn; [discriminate|].
  destruct (p x) eqn:E.
  - intros [= ->]. now rewrite Hp, E.
  - rewrite E. exact IH.
Qed.

Lemma find_update_where_none {A} (p : A -> bool) (f : A -> A) l :
  (forall x, p (f x) = p x) ->
  find p l = None -> find p (prisma.update_where p f l) = None.
Proof.
  intros Hp. induction l as [|x l IH]; cbn; [reflexivity|].
  destruct (p x) eqn:E; [discriminate|]. rewrite E. exact IH.
Qed.

Lemma update_where_id {A} (p : A -> bool) (l : list A) :
  prisma.update_where p (fun x => x) l = l.
Proof.
  unfold prisma.update_where. induction l as [|x l IH]; cbn; [reflexivity|].
  rewrite IH. now destruct (p x).
Qed.

Lemma In_update_where {A} (p : A -> bool) (f : A -> A) l x :
  In x l -> In (if p x then f x else x) (prisma.update_where p f l).
Proof.
  intros H. unfold prisma.update_where.
  apply (in_map (fun x => if p x then f x else x)) in H. exact H.
Qed.

Lemma find_some_In {A} (p : A -> bool) l x :
  In x l -> p x = true -> exists y, find p l = Some y.
Proof.
  induction l as [|a l IH]; cbn; [tauto|].
  intros [-> | Hin] Hp.
  - rewrite Hp. eauto.
  - destruct (p a); eauto.
Qed.

End StoreFacts.

(** ** Aggregate Updater *)
Module AggregateUpdaterFacts.
Import BlockchainService StoreFacts.

Ltac world_simpl :=
  cbn
    [donations campaigns donors withdrawals sdsEvents nextId feeds leaderboards trace
     set_donations set_campaigns set_donors set_withdrawals set_sdsEvents set_nextId
     set_feeds set_leaderboards set_trace fst snd].

Ltac run_updater :=
  unfold exec, updateCampaignTotals, prisma.campaign.update, redis.publish, redis.del,
         redis.delPattern, log, effect, throw, modify, gets, bind, ret;
  world_simpl.

Lemma same_id_incrementTotals amountWei campaignId x :
  bool_decide (Campaign.id (incrementTotals amountWei x) = campaignId)
  = bool_decide (Campaign.id x = campaignId).
Proof. reflexivity. Qed.

Lemma same_id_set_campaign_status st campaignId x :
  bool_decide (Campaign.id (set_campaign_status st x) = campaignId)
  = bool_decide (Campaign.id x = campaignId).
Proof. reflexivity. Qed.

(** The campaign row after the updater has run. *)
Lemma updateCampaignTotals_row w campaignId amountWei c :
  find (fun c => bool_decide (Campaign.id c = campaignId)) (campaigns w) = Some c ->
  let total := Campaign.currentAmount c + amountWei in
  let reached := JsNumber.ge (JsNumber.Number total)
                             (JsNumber.Number (Campaign.targetAmount c)) in
  let w' := exec (updateCampaignTotals campaignId amountWei) w in
  exists c', find (fun c => bool_decide (Campaign.id c = campaignId)) (campaigns w')
             = Some c'
             /\ Campaign.currentAmount c' = total
             /\ Campaign.donorCount c' = Campaign.donorCount c + 1
             /\ Campaign.targetAmount c' = Campaign.targetAmount c
             /\ Campaign.status c' = if reached then COMPLETED else Campaign.status c.
Proof.
  intros Hf total reached w'.
  pose proof (find_update_where _ (incrementTotals amountWei) _ _
                (same_id_incrementTotals amountWei campaignId) Hf) as Hf1.
  assert (Hr : JsNumber.ge
                 (JsNumber.Number (Campaign.currentAmount (incrementTotals amountWei c)))
                 (JsNumber.Number (Campaign.targetAmount (incrementTotals amountWei c)))
               = reached) by reflexivity.
  subst w'. run_updater. rewrite Hf. world_simpl. rewrite Hr.
  destruct reached; world_simpl.
  - rewrite Hf1. world_simpl.
    eexists. split.
    { apply (find_update_where _ (set_campaign_status COMPLETED) _ _
               (same_id_set_campaign_status COMPLETED campaignId) Hf1). }
    repeat split.
  - eexists. split; [exact Hf1|]. repeat split.
Qed.

(** C2 as stated fails: on the COMPLETED campaign [c2] a further confirmed
    donation raises the running total, and the completion write and its log
    line are issued again. *)
Lemma C2_completion_refires_on_completed_campaign :
  (Campaign.status <$> campaigns Examples.worldDone) = [COMPLETED]
  /\ trace Examples.worldDone = []
  /\ (let w' := exec (updateCampaignTotals "c2" Examples.oneUnit) Examples.worldDone in
      (Campaign.currentAmount <$> campaigns w') = [2 * Examples.oneUnit]
      /\ (Campaign.status <$> campaigns w') = [COMPLETED]
      /\ drop 4 (trace w')
         = [Db (CampaignStatusUpdate "c2" COMPLETED);
            Log Info "Campaign reached target, marked as completed"]).
Proof. vm_compute. repeat split. Qed.

(** C2, amended: the updater adds the amount to the running total and one
    to the donor count; whenever the new total, converted to a number, is at
    least the converted target - in particular whenever total >= target - it
    writes status COMPLETED and logs the completion, whatever the campaign's
    status was; otherwise the status is left as it is.  A COMPLETED campaign
    therefore stays COMPLETED while its total keeps growing, and the
    completion write is issued again each time. *)
Theorem C2_completion_write_follows_threshold_only w campaignId amountWei c :
  find (fun c => bool_decide (Campaign.id c = campaignId)) (campaigns w) = Some c ->
  let total := Campaign.currentAmount c + amountWei in
  let reached := JsNumber.ge (JsNumber.Number total)
                             (JsNumber.Number (Campaign.targetAmount c)) in
  let w' := exec (updateCampaignTotals campaignId amountWei) w in
  (exists c', find (fun c => bool_decide (Campaign.id c = campaignId)) (campaigns w')
              = Some c'
              /\ Campaign.currentAmount c' = total
              /\ Campaign.donorCount c' = Campaign.donorCount c + 1
              /\ Campaign.targetAmount c' = Campaign.targetAmount c
              /\ Campaign.status c' = if reached then COMPLETED else Campaign.status c)
  /\ (exists published,
        trace w' = trace w
          ++ [Db (CampaignIncrement campaignId amountWei);
              Publish "campaign_updates" published;
              CacheDel (CacheKeys.campaign campaignId);
              CacheDelPattern (CacheKeys.campaignList "*")]
          ++ (if reached
              then [Db (CampaignStatusUpdate campaignId COMPLETED);
                    Log Info "Campaign reached target, marked as completed"]
              else []))
  /\ (Campaign.targetAmount c <= total -> reached = true).
Proof.
  intros Hf total reached w'.
  pose proof (find_update_where _ (incrementTotals amountWei) _ _
                (same_id_incrementTotals amountWei campaignId) Hf) as Hf1.
  assert (Hr : JsNumber.ge
                 (JsNumber.Number (Campaign.currentAmount (incrementTotals amountWei c)))
                 (JsNumber.Number (Campaign.targetAmount (incrementTotals amountWei c)))
               = reached) by reflexivity.
  split; [|split].
  - exact (updateCampaignTotals_row w campaignId amountWei c Hf).
  - subst w'. run_updater. rewrite Hf. world_simpl. rewrite Hr.
    eexists.
    destruct reached; world_simpl.
    + rewrite Hf1. world_simpl. rewrite <- !app_assoc. reflexivity.
    + rewrite <- !app_assoc. reflexivity.
  - intros Hle. subst reached. now apply JsNumberFacts.Number_mono.
Qed.

Lemma C2_completion_write_witness :
  find (fun c => bool_decide (Campaign.id c = "c2")) (campaigns Examples.worldDone)
  = Some Examples.campaignC2
  /\ JsNumber.ge (JsNumber.Number (Campaign.currentAmount Examples.campaignC2 + 1))
                 (JsNumber.Number (Campaign.targetAmount Examples.campaignC2)) = true.
Proof.
  split; [reflexivity|].
  apply (C2_completion_write_follows_threshold_only Examples.worldDone "c2" 1
           Examples.campaignC2 eq_refl).
  vm_compute. discriminate.
Defined.

End AggregateUpdaterFacts.

(** ** Reconciler *)
Module ReconcilerFacts.
Import BlockchainService StoreFacts AggregateUpdaterFacts.

Lemma exec_bind_returned {A B} (m : M A) (k : A -> M B) w a w1 :
  m w = (Returned a, w1) -> exec (bind m k) w = exec (k a) w1.
Proof. intros H. unfold exec, bind. now rewrite H. Qed.

Lemma update_where_none {A} (p : A -> bool) (f : A -> A) l :
  find p l = None -> prisma.update_where p f l = l.
Proof.
  unfold prisma.update_where. induction l as [|x l IH]; cbn; [reflexivity|].
  destruct (p x) eqn:E; [discriminate|]. intros H. now rewrite IH.
Qed.

(** The updater never touches donation or donor rows. *)
Lemma updateCampaignTotals_frame campaignId amountWei w :
  donations (snd (updateCampaignTotals campaignId amountWei w)) = donations w
  /\ donors (snd (updateCampaignTotals campaignId amountWei w)) = donors w.
Proof.
  run_updater.
  destruct (find _ (campaigns w)) as [c|] eqn:Hf; world_simpl; [|now split].
  destruct (JsNumber.ge _ _); world_simpl; [|now split].
  match goal with
  | |- context [find ?p (prisma.update_where ?q ?f ?l)] =>
      destruct (find p (prisma.update_where q f l))
  end; world_simpl; now split.
Qed.

Ltac run_store :=
  unfold prisma.donation.update, prisma.donation.findMany, log, effect, throw, modify,
         gets, bind, ret;
  world_simpl.

(** One loop body: it always returns, rewrites only rows carrying the
    selected donation's identifier, and leaves donor rows alone. *)
(** The sweep's credit either is the updater run with the row's amount or
    throws before anything is written. *)
Lemma creditFromRow_cases d w :
  (Decimal.plain (Donation.amount d) = true
   /\ creditFromRow d w
      = updateCampaignTotals (Donation.campaignId d) (Donation.amount d) w)
  \/ (Decimal.plain (Donation.amount d) = false
      /\ exists message, creditFromRow d w = (Threw message, w)).
Proof.
  unfold creditFromRow, Decimal.toBigInt.
  destruct (Decimal.plain (Donation.amount d)); [left | right]; eauto.
Qed.

Lemma creditFromRow_frame d w :
  donations (snd (creditFromRow d w)) = donations w
  /\ donors (snd (creditFromRow d w)) = donors w.
Proof.
  destruct (creditFromRow_cases d w) as [[_ ->] | [_ [message ->]]].
  - apply updateCampaignTotals_frame.
  - now split.
Qed.

Lemma reconcileDonation_frame now rpc d w :
  exists w' f,
    reconcileDonation now rpc d w = (Returned tt, w')
    /\ donations w'
       = prisma.update_where (fun x => bool_decide (Donation.id x = Donation.id d)) f
                             (donations w)
    /\ (forall x, Donation.id (f x) = Donation.id x)
    /\ donors w' = donors w.
Proof.
  unfold reconcileDonation, try_catch.
  destruct (rpc (Donation.txHash d)) as [|status blockNumber|msg].
  - run_store.
    destruct (find _ (donations w)) as [d0|] eqn:Hf; world_simpl.
    + eexists _, (set_donation_status ORPHANED). repeat split.
    + eexists _, (fun x => x). rewrite update_where_id. repeat split.
  - destruct (bool_decide (status = Some 1)).
    + unfold bind at 1. unfold bind at 1.
      unfold prisma.donation.update at 1. run_store.
      destruct (find _ (donations w)) as [d0|] eqn:Hf; world_simpl.
      * match goal with
        | |- context [creditFromRow ?a ?w0] =>
            pose proof (creditFromRow_frame a w0) as [Hd Hdo];
            destruct (creditFromRow a w0) as [[[]|e] w1]
        end; world_simpl;
        cbn [snd donations donors set_trace set_donations] in Hd, Hdo.
        -- eexists _, (confirmFromReceipt blockNumber now).
           split; [reflexivity|]. world_simpl. repeat split; assumption.
        -- eexists _, (confirmFromReceipt blockNumber now).
           split; [reflexivity|]. world_simpl. repeat split; assumption.
      * eexists _, (fun x => x). rewrite update_where_id. repeat split.
    + run_store.
      destruct (find _ (donations w)) as [d0|] eqn:Hf; world_simpl.
      * eexists _, (set_donation_status FAILED). repeat split.
      * eexists _, (fun x => x). rewrite update_where_id. repeat split.
  - run_store. eexists _, (fun x => x). rewrite update_where_id. repeat split.
Qed.

(** The loop body when the ledger has no receipt: the selected row - if
    it still exists - becomes ORPHANED; campaigns, donors and the caches are
    not written. *)
Lemma reconcileDonation_no_receipt now rpc d w :
  rpc (Donation.txHash d) = NoReceipt ->
  exists w',
    reconcileDonation now rpc d w = (Returned tt, w')
    /\ donations w'
       = prisma.update_where (fun x => bool_decide (Donation.id x = Donation.id d))
                             (set_donation_status ORPHANED) (donations w)
    /\ campaigns w' = campaigns w /\ donors w' = donors w
    /\ feeds w' = feeds w /\ leaderboards w' = leaderboards w.
Proof.
  intros Hr. unfold reconcileDonation, try_catch. rewrite Hr. run_store.
  destruct (find _ (donations w)) as [d0|] eqn:Hf; world_simpl.
  - eexists. repeat split.
  - eexists. split; [reflexivity|]. world_simpl.
    rewrite (update_where_none _ _ _ Hf). repeat split.
Qed.

Lemma keeps_other_rows (p : Donation.t -> bool) f l x :
  In x l -> p x = false -> In x (prisma.update_where p f l).
Proof.
  intros Hin Hp. pose proof (In_update_where p f l x Hin) as H.
  now rewrite Hp in H.
Qed.

Lemma update_where_ids f (p : Donation.t -> bool) l :
  (forall x, Donation.id (f x) = Donation.id x) ->
  map Donation.id (prisma.update_where p f l) = map Donation.id l.
Proof.
  intros Hf. unfold prisma.update_where. rewrite map_map.
  apply map_ext. intros x. now destruct (p x).
Qed.

(** Rows whose identifier is not among the selected ones survive the loop
    unchanged, and the loop keeps the table's identifiers. *)
Lemma forEach_keeps_unselected now rpc l : forall w x,
  In x (donations w) ->
  (forall y, In y l -> Donation.id y <> Donation.id x) ->
  In x (donations (exec (forEach (reconcileDonation now rpc) l) w)).
Proof.
  induction l as [|a l IH]; intros w x Hin Hne; [exact Hin|].
  destruct (reconcileDonation_frame now rpc a w) as (w1 & f & Hrun & Hd & Hid & _).
  cbn [forEach]. rewrite (exec_bind_returned _ _ _ _ _ Hrun).
  apply IH.
  - rewrite Hd. apply keeps_other_rows; [exact Hin|].
    apply bool_decide_eq_false. intros E. apply (Hne a); [now left | now symmetry].
  - intros y Hy. apply Hne. now right.
Qed.

Lemma forEach_keeps_ids now rpc l : forall w,
  map Donation.id (donations (exec (forEach (reconcileDonation now rpc) l) w))
  = map Donation.id (donations w).
Proof.
  induction l as [|a l IH]; intros w; [reflexivity|].
  destruct (reconcileDonation_frame now rpc a w) as (w1 & f & Hrun & Hd & Hid & _).
  cbn [forEach]. rewrite (exec_bind_returned _ _ _ _ _ Hrun), IH, Hd.
  now apply update_where_ids.
Qed.

Lemma forEach_keeps_donors now rpc l : forall w,
  donors (exec (forEach (reconcileDonation now rpc) l) w) = donors w.
Proof.
  induction l as [|a l IH]; intros w; [reflexivity|].
  destruct (reconcileDonation_frame now rpc a w) as (w1 & f & Hrun & _ & _ & Hdo).
  cbn [forEach]. now rewrite (exec_bind_returned _ _ _ _ _ Hrun), IH.
Qed.

(** A selected donation without a receipt ends the loop as ORPHANED. *)
Lemma forEach_orphans now rpc l : forall w d,
  In d l -> List.NoDup (map Donation.id l) -> In d (donations w) ->
  rpc (Donation.txHash d) = NoReceipt ->
  In (set_donation_status ORPHANED d)
     (donations (exec (forEach (reconcileDonation now rpc) l) w)).
Proof.
  induction l as [|a l IH]; intros w d Hl Hnd Hin Hr; [destruct Hl|].
  cbn [map] in Hnd. apply List.NoDup_cons_iff in Hnd as [Hfresh Hnd].
  destruct Hl as [-> | Hl].
  - destruct (reconcileDonation_no_receipt now rpc d w Hr) as (w1 & Hrun & Hd & _).
    cbn [forEach]. rewrite (exec_bind_returned _ _ _ _ _ Hrun).
    apply forEach_keeps_unselected.
    + rewrite Hd.
      pose proof (In_update_where
                    (fun x => bool_decide (Donation.id x = Donation.id d))
                    (set_donation_status ORPHANED) _ _ Hin) as H.
      cbn beta in H. now rewrite bool_decide_eq_true_2 in H.
    + intros y Hy E. apply Hfresh. cbn in E. rewrite <- E. now apply in_map.
  - destruct (reconcileDonation_frame now rpc a w) as (w1 & f & Hrun & Hd & Hid & _).
    cbn [forEach]. rewrite (exec_bind_returned _ _ _ _ _ Hrun).
    apply IH; try assumption.
    rewrite Hd. apply keeps_other_rows; [exact Hin|].
    apply bool_decide_eq_false. intros E. apply Hfresh. rewrite <- E. now apply in_map.
Qed.

Lemma NoDup_ids_filter (p : Donation.t -> bool) l :
  List.NoDup (map Donation.id l) -> List.NoDup (map Donation.id (List.filter p l)).
Proof.
  induction l as [|a l IH]; cbn; [trivial|].
  intros H. apply List.NoDup_cons_iff in H as [Hfresh Hnd].
  destruct (p a); cbn; [|now apply IH].
  apply List.NoDup_cons; [|now apply IH].
  intros Hin. apply Hfresh. apply in_map_iff in Hin as (y & Hy & Hin).
  apply filter_In in Hin as [Hin _]. rewrite <- Hy. now apply in_map.
Qed.

Lemma same_id_same_row l (x y : Donation.t) :
  List.NoDup (map Donation.id l) -> In x l -> In y l ->
  Donation.id x = Donation.id y -> x = y.
Proof.
  induction l as [|a l IH]; cbn; [tauto|].
  intros H. apply List.NoDup_cons_iff in H as [Hfresh Hnd].
  intros [-> | Hx] [-> | Hy] E; try reflexivity.
  - exfalso. apply Hfresh. rewrite E. now apply in_map.
  - exfalso. apply Hfresh. rewrite <- E. now apply in_map.
  - now apply IH.
Qed.

(** What one run leaves in the donation table, in terms of its loop. *)
Lemma runReconciliation_donations now rpc w :
  exists w0,
    donations w0 = donations w /\ donors w0 = donors w
    /\ donations (exec (runReconciliation now rpc) w)
       = donations (exec (forEach (reconcileDonation now rpc)
                            (List.filter
                               (pendingBefore (now - config.reconciliation.orphanTimeoutMs))
                               (donations w))) w0)
    /\ donors (exec (runReconciliation now rpc) w)
       = donors (exec (forEach (reconcileDonation now rpc)
                         (List.filter
                            (pendingBefore (now - config.reconciliation.orphanTimeoutMs))
                            (donations w))) w0).
Proof.
  exists (set_trace (fun t => t ++ [Log Info "Starting reconciliation run..."]) w).
  split; [reflexivity|]. split; [reflexivity|].
  unfold runReconciliation, selectPending, reconcileAll, exec.
  run_store.
  match goal with
  | |- context [forEach ?b ?l ?w0] => destruct (forEach b l w0) as [[[]|e] w1]
  end; world_simpl; split; reflexivity.
Qed.

Lemma forEach_returns now rpc l : forall w,
  exists w', forEach (reconcileDonation now rpc) l w = (Returned tt, w').
Proof.
  induction l as [|a l IH]; intros w; [eexists; reflexivity|].
  destruct (reconcileDonation_frame now rpc a w) as (w1 & f & Hrun & _).
  destruct (IH w1) as (w2 & Hrest).
  exists w2. cbn [forEach]. unfold bind. now rewrite Hrun.
Qed.

Lemma runReconciliation_returns now rpc w :
  exists w', runReconciliation now rpc w = (Returned tt, w').
Proof.
  unfold runReconciliation, selectPending, reconcileAll. run_store.
  match goal with
  | |- context [forEach ?b ?l ?w0] => destruct (forEach_returns now rpc l w0) as (w1 & H)
  end.
  rewrite H. eexists. reflexivity.
Qed.

Lemma selected_are_pending deadline (x : Donation.t) l :
  In x (List.filter (pendingBefore deadline) l) ->
  In x l /\ Donation.status x = PENDING /\ Donation.createdAt x < deadline.
Proof.
  intros H. apply filter_In in H as [Hin Hp]. unfold pendingBefore in Hp.
  apply andb_true_iff in Hp as [Hs Hc].
  apply bool_decide_eq_true in Hs. apply Z.ltb_lt in Hc. auto.
Qed.

(** One run leaves every row that is not PENDING exactly as it was, and
    keeps the table's identifiers. *)
Lemma sweep_keeps_terminal_rows now rpc w x :
  In x (donations w) -> Donation.status x <> PENDING ->
  List.NoDup (map Donation.id (donations w)) ->
  In x (donations (exec (runReconciliation now rpc) w))
  /\ List.NoDup (map Donation.id (donations (exec (runReconciliation now rpc) w))).
Proof.
  intros Hin Hst Hnd.
  destruct (runReconciliation_donations now rpc w) as (w0 & Hd0 & _ & Hd & _).
  rewrite Hd. split.
  - apply forEach_keeps_unselected; [now rewrite Hd0|].
    intros y Hy E. apply selected_are_pending in Hy as (Hy & Hp & _).
    apply Hst. rewrite <- (same_id_same_row _ _ _ Hnd Hy Hin E). exact Hp.
  - now rewrite forEach_keeps_ids, Hd0.
Qed.

Lemma sweeps_keep_terminal_rows sweeps : forall w x,
  In x (donations w) -> Donation.status x <> PENDING ->
  List.NoDup (map Donation.id (donations w)) ->
  In x (donations (exec (Sweeps.runAll sweeps) w)).
Proof.
  induction sweeps as [|[now rpc] sweeps IH]; intros w x Hin Hst Hnd; [exact Hin|].
  destruct (runReconciliation_returns now rpc w) as (w1 & Hrun).
  cbn [Sweeps.runAll]. rewrite (exec_bind_returned _ _ _ _ _ Hrun).
  destruct (sweep_keeps_terminal_rows now rpc w x Hin Hst Hnd) as [Hin1 Hnd1].
  unfold exec in Hin1, Hnd1. rewrite Hrun in Hin1, Hnd1.
  now apply IH.
Qed.

(** The sweep on a selected donation without a receipt, and on rows that
    are no longer PENDING. *)
Lemma sweep_orphans_row now rpc w d :
  In d (donations w) ->
  Donation.status d = PENDING ->
  Donation.createdAt d < now - config.reconciliation.orphanTimeoutMs ->
  rpc (Donation.txHash d) = NoReceipt ->
  List.NoDup (map Donation.id (donations w)) ->
  let w' := exec (runReconciliation now rpc) w in
  In (set_donation_status ORPHANED d) (donations w')
  /\ (forall w0,
        campaigns (exec (reconcileDonation now rpc d) w0) = campaigns w0
        /\ donors (exec (reconcileDonation now rpc d) w0) = donors w0)
  /\ donors w' = donors w
  /\ (forall now' w0 selected x,
        fst (selectPending now' w0) = Returned selected ->
        In x selected -> Donation.status x = PENDING)
  /\ (forall sweeps x,
        In x (donations w') -> Donation.status x <> PENDING ->
        In x (donations (exec (Sweeps.runAll sweeps) w'))).
Proof.
  intros Hin Hst Hold Hr Hnd w'.
  destruct (runReconciliation_donations now rpc w) as (w0 & Hd0 & Hdo0 & Hd & Hdo).
  assert (Hnd' : List.NoDup (map Donation.id (donations w'))).
  { subst w'. now rewrite Hd, forEach_keeps_ids, Hd0. }
  split; [|split; [|split; [|split]]].
  - subst w'. rewrite Hd. apply forEach_orphans.
    + apply filter_In. split; [exact Hin|]. unfold pendingBefore.
      apply andb_true_iff. split; [now apply bool_decide_eq_true | now apply Z.ltb_lt].
    + now apply NoDup_ids_filter.
    + now rewrite Hd0.
    + exact Hr.
  - intros w1.
    destruct (reconcileDonation_no_receipt now rpc d w1 Hr) as (w2 & Hrun & _ & Hc & Hdn & _).
    unfold exec. rewrite Hrun. now split.
  - subst w'. now rewrite Hdo, forEach_keeps_donors.
  - intros now' w1 selected x Hsel Hx.
    unfold selectPending, prisma.donation.findMany, gets in Hsel. cbn in Hsel.
    injection Hsel as <-. now apply selected_are_pending in Hx.
  - intros sweeps x Hx Hsx. now apply sweeps_keep_terminal_rows.
Qed.

(** C7: a donation that is PENDING, older than the orphan timeout and
    without a ledger receipt is in the table after the sweep as a row whose
    status is ORPHANED and whose other columns are as before; the loop step
    that writes it changes neither campaigns nor donors, and the sweep as a
    whole writes no donor row.  The sweep's query returns PENDING rows only,
    so no later sweep selects the ORPHANED row, and whatever sweeps follow,
    every row that is no longer PENDING - this one included - is still in
    the table unchanged. *)
Theorem C7_orphaned_without_receipt_and_never_swept_again now rpc w d :
  In d (donations w) ->
  Donation.status d = PENDING ->
  Donation.createdAt d < now - config.reconciliation.orphanTimeoutMs ->
  rpc (Donation.txHash d) = NoReceipt ->
  List.NoDup (map Donation.id (donations w)) ->
  let w' := exec (runReconciliation now rpc) w in
  (exists row,
     In row (donations w')
     /\ Donation.status row = ORPHANED
     /\ Donation.id row = Donation.id d
     /\ Donation.txHash row = Donation.txHash d
     /\ Donation.campaignId row = Donation.campaignId d
     /\ Donation.donorAddress row = Donation.donorAddress d
     /\ Donation.amount row = Donation.amount d
     /\ Donation.blockNumber row = Donation.blockNumber d
     /\ Donation.confirmedAt row = Donation.confirmedAt d
     /\ Donation.createdAt row = Donation.createdAt d
     /\ row = set_donation_status ORPHANED d
     /\ (forall now' w0 selected,
           fst (selectPending now' w0) = Returned selected -> ~ In row selected)
     /\ (forall sweeps, In row (donations (exec (Sweeps.runAll sweeps) w'))))
  /\ (forall w0,
        campaigns (exec (reconcileDonation now rpc d) w0) = campaigns w0
        /\ donors (exec (reconcileDonation now rpc d) w0) = donors w0)
  /\ donors w' = donors w
  /\ (forall now' w0 selected x,
        fst (selectPending now' w0) = Returned selected ->
        In x selected -> Donation.status x = PENDING)
  /\ (forall sweeps x,
        In x (donations w') -> Donation.status x <> PENDING ->
        In x (donations (exec (Sweeps.runAll sweeps) w'))).
Proof.
  intros Hin Hst Hold Hr Hnd w'.
  destruct (sweep_orphans_row now rpc w d Hin Hst Hold Hr Hnd)
    as (Hrow & Hstep & Hdo & Hsel & Hlater).
  fold w' in Hrow, Hdo, Hlater.
  split; [|split; [exact Hstep | split; [exact Hdo | split; [exact Hsel | exact Hlater]]]].
  exists (set_donation_status ORPHANED d).
  assert (Horph : Donation.status (set_donation_status ORPHANED d) = ORPHANED)
    by reflexivity.
  split; [exact Hrow|]. split; [exact Horph|].
  do 9 (split; [reflexivity|]).
  split.
  - intros now' w0 selected Hs Hx.
    pose proof (Hsel now' w0 selected _ Hs Hx) as Hp.
    rewrite Horph in Hp. discriminate.
  - intros sweeps. apply Hlater; [exact Hrow|]. rewrite Horph. discriminate.
Qed.

Lemma C7_orphaned_witness :
  exists row,
    In row (donations (exec (runReconciliation 1700000358500 Runs.unknown) Runs.announced))
    /\ Donation.status row = ORPHANED
    /\ Donation.id row = Donation.id Runs.pendingAA
    /\ Donation.txHash row = Donation.txHash Runs.pendingAA.
Proof.
  assert (Hin : In Runs.pendingAA (donations Runs.announced))
    by (vm_compute; left; reflexivity).
  assert (Hold : Donation.createdAt Runs.pendingAA
                 < 1700000358500 - config.reconciliation.orphanTimeoutMs)
    by (vm_compute; reflexivity).
  assert (Hnd : List.NoDup (map Donation.id (donations Runs.announced)))
    by (vm_compute; repeat constructor; intros []).
  destruct (C7_orphaned_without_receipt_and_never_swept_again
              1700000358500 Runs.unknown Runs.announced Runs.pendingAA
              Hin eq_refl Hold eq_refl Hnd)
    as ((row & Hrow & Hst & Hid & Htx & _) & _).
  exists row. split; [exact Hrow|]. split; [exact Hst|]. split; [exact Hid | exact Htx].
Defined.

End ReconcilerFacts.

(** ** Stream Listener: duplicates *)
Module StreamListenerFacts.
Import SdsListenerService StoreFacts AggregateUpdaterFacts.

Ltac run_listener :=
  unfold prisma.donation.findUnique, prisma.campaign.findUnique,
         prisma.sdsEvent.create, prisma.sdsEvent.update, prisma.sdsEvent.find_row,
         log, effect, throw, modify, gets, bind, ret;
  world_simpl; cbn [SdsEventRow.eventId].

Lemma safeParse_payload payload p : safeParse payload = Some p -> payload = Some p.
Proof.
  unfold safeParse. destruct payload as [q|]; [|discriminate].
  destruct (_ && _); [|discriminate]. now intros [= ->].
Qed.

(** The donation handler on an announcement whose transaction hash already
    has a row: one log line, nothing else. *)
Lemma handleDonationEvent_duplicate now ev p d w :
  RawSdsEvent.payload ev = Some p ->
  find (fun x => bool_decide (Donation.txHash x = DonationEvent.txHash p)) (donations w)
  = Some d ->
  handleDonationEvent now ev w
  = (Returned tt,
     set_trace (fun t => t ++ [match safeParse (Some p) with
                               | Some _ => Log Debug "Duplicate donation event, skipping"
                               | None => Log Warn "Invalid donation event schema"
                               end]) w).
Proof.
  intros Hp Hf. unfold handleDonationEvent. rewrite Hp.
  destruct (safeParse (Some p)) as [q|] eqn:Hq.
  - apply safeParse_payload in Hq as [= <-]. run_listener. now rewrite Hf.
  - reflexivity.
Qed.

(** C8: when the announced transaction hash already has a Donation row,
    the donation handler returns after a single log line (debug level for a
    well-formed payload), and the whole event handler leaves donations,
    campaigns, donors, feeds and leaderboards as they were, publishes and
    emits nothing, and writes only to the raw-event log. *)
Theorem C8_duplicate_announcement_is_dropped now ev p d w :
  RawSdsEvent.payload ev = Some p ->
  find (fun x => bool_decide (Donation.txHash x = DonationEvent.txHash p)) (donations w)
  = Some d ->
  handleDonationEvent now ev w
  = (Returned tt,
     set_trace (fun t => t ++ [match safeParse (Some p) with
                               | Some _ => Log Debug "Duplicate donation event, skipping"
                               | None => Log Warn "Invalid donation event schema"
                               end]) w)
  /\ (let w' := exec (handleEvent now ev) w in
      donations w' = donations w /\ campaigns w' = campaigns w
      /\ donors w' = donors w /\ feeds w' = feeds w
      /\ leaderboards w' = leaderboards w
      /\ exists added, trace w' = trace w ++ added
                       /\ Forall Observations.bookkeeping added).
Proof.
  intros Hp Hf. split; [now apply handleDonationEvent_duplicate with d|].
  unfold handleEvent, try_catch, exec. run_listener.
  destruct (find _ (sdsEvents w)) as [r|] eqn:Hr; world_simpl.
  - rewrite Hr. world_simpl. repeat split.
    eexists. rewrite <- !app_assoc. split; [reflexivity|].
    repeat constructor.
  - destruct (bool_decide (RawSdsEvent.type ev = "donation")).
    + match goal with
      | |- context [handleDonationEvent now ev ?w0] =>
          rewrite (handleDonationEvent_duplicate now ev p d w0 Hp Hf)
      end.
      world_simpl.
      match goal with
      | |- context [find ?q (sdsEvents w ++ ?l)] =>
          destruct (find q (sdsEvents w ++ l)) eqn:Hrow
      end; world_simpl; rewrite ?Hrow; world_simpl; repeat split;
        (eexists; rewrite <- !app_assoc; split; [reflexivity|]);
        destruct (safeParse (Some p)); repeat constructor.
    + world_simpl.
      match goal with
      | |- context [find ?q (sdsEvents w ++ ?l)] =>
          destruct (find q (sdsEvents w ++ l)) eqn:Hrow
      end; world_simpl; rewrite ?Hrow; world_simpl; repeat split;
        (eexists; rewrite <- !app_assoc; split; [reflexivity|]);
        repeat constructor.
Qed.

Lemma C8_duplicate_witness :
  donations (exec (handleEvent 1700000002000 Examples.streamAA) Runs.confirmed)
  = donations Runs.confirmed.
Proof.
  apply (C8_duplicate_announcement_is_dropped 1700000002000 Examples.streamAA
           Examples.payloadAA
           (BlockchainService.confirmOnChain 7 1700000000 1700000000500 Runs.pendingAA)
           Runs.confirmed).
  - reflexivity.
  - vm_compute. reflexivity.
Defined.

End StreamListenerFacts.

(** ** Stream Listener: creating the provisional record *)
Module StreamCreationFacts.
Import SdsListenerService StoreFacts AggregateUpdaterFacts StreamListenerFacts.

(** The handler on a well-formed announcement of a new transaction for a
    known campaign, field by field. *)
Lemma handleDonationEvent_created now ev p c w :
  safeParse (RawSdsEvent.payload ev) = Some p ->
  find (fun x => bool_decide (Donation.txHash x = DonationEvent.txHash p)) (donations w)
  = None ->
  find (fun x => bool_decide (Campaign.onChainId x = DonationEvent.campaignOnChainId p))
       (campaigns w) = Some c ->
  let w' := exec (handleDonationEvent now ev) w in
  let key := JsString.toLowerCase (DonationEvent.donor p) in
  let inc := JsNumber.parseFloat (DonationEvent.amount p) in
  let boards1 :=
    default (leaderboards w)
            (redis.zincrby CacheKeys.leaderboard.global inc key (leaderboards w)) in
  donations w' = donations w ++ [pendingRow p c (nextId w) now]
  /\ campaigns w' = campaigns w
  /\ withdrawals w' = withdrawals w
  /\ nextId w' = S (nextId w)
  /\ donors w'
     = <[key := match donors w !! key with
                | None => donorCreate now p
                | Some d => donorUpdate now p d
                end]> (donors w)
  /\ leaderboards w'
     = default boards1
         (redis.zincrby (CacheKeys.leaderboard.campaign (Campaign.id c)) inc key boards1).
Proof.
  intros Hp Hf Hc w' key inc boards1. subst w'.
  unfold exec, handleDonationEvent. rewrite Hp.
  unfold prisma.donation.create, prisma.donor.upsert, promise_all,
         redis.pushToFeed, redis.incrementLeaderboard, redis.publish.
  run_listener. rewrite Hf. world_simpl. rewrite Hc. world_simpl.
  cbn [Donation.txHash pendingRow]. rewrite Hf. world_simpl.
  fold key. fold inc.
  unfold boards1.
  destruct (redis.zincrby CacheKeys.leaderboard.global inc key (leaderboards w))
    as [b1|] eqn:H1; world_simpl; cbn [default from_option id];
  match goal with
  | |- context [redis.zincrby (CacheKeys.leaderboard.campaign ?i) inc key ?b] =>
      destruct (redis.zincrby (CacheKeys.leaderboard.campaign i) inc key b) as [b2|] eqn:H2
  end; world_simpl; cbn [default from_option id]; repeat split;
    destruct (donors w !! key); reflexivity.
Qed.

End StreamCreationFacts.

(** ** Ledger Watcher *)
Module LedgerWatcherFacts.
Import BlockchainService StoreFacts AggregateUpdaterFacts ReconcilerFacts.

Ltac run_watcher :=
  unfold prisma.donation.create, prisma.donation.update,
         prisma.donation.findUnique, prisma.campaign.findUnique,
         log, effect, throw, modify, gets, bind, ret;
  world_simpl.

(** What the updater does to the campaign table depends on that table
    only. *)
Lemma updateCampaignTotals_campaigns_ext campaignId amountWei w1 w2 :
  campaigns w1 = campaigns w2 ->
  campaigns (exec (updateCampaignTotals campaignId amountWei) w1)
  = campaigns (exec (updateCampaignTotals campaignId amountWei) w2).
Proof.
  intros H. run_updater. rewrite H.
  destruct (find _ (campaigns w2)) as [c|]; world_simpl; [|exact H].
  destruct (JsNumber.ge _ _); world_simpl; [|now rewrite H].
  rewrite H.
  match goal with
  | |- context [find ?p (prisma.update_where ?q ?f ?l)] =>
      destruct (find p (prisma.update_where q f l))
  end; world_simpl; now rewrite ?H.
Qed.

(** A settlement the stream never announced, for a campaign the store
    knows: a CONFIRMED row is appended and the updater runs. *)
Lemma process_unannounced now ev c w :
  find (fun x => bool_decide (Donation.txHash x = DonationReceivedEvent.transactionHash ev))
       (donations w) = None ->
  find (fun x => bool_decide
                   (Campaign.onChainId x = toString (DonationReceivedEvent.campaignId ev)))
       (campaigns w) = Some c ->
  exists w1,
    donations w1 = donations w ++ [confirmedRow now ev c (nextId w) now]
    /\ campaigns w1 = campaigns w
    /\ processDonationConfirmation now ev w
       = updateCampaignTotals (Campaign.id c) (DonationReceivedEvent.amount ev) w1.
Proof.
  intros Hf Hc. unfold processDonationConfirmation. run_watcher.
  rewrite Hf. world_simpl. rewrite Hc. world_simpl.
  cbn [Donation.txHash confirmedRow]. rewrite Hf. world_simpl.
  eexists. split; [|split; [|reflexivity]]; reflexivity.
Qed.

Lemma process_unknown_campaign now ev w :
  find (fun x => bool_decide (Donation.txHash x = DonationReceivedEvent.transactionHash ev))
       (donations w) = None ->
  find (fun x => bool_decide
                   (Campaign.onChainId x = toString (DonationReceivedEvent.campaignId ev)))
       (campaigns w) = None ->
  processDonationConfirmation now ev w
  = (Returned tt,
     set_trace (fun t => (t ++ [Log Info "On-chain donation not found in DB, creating..."])
                         ++ [Log Error "Campaign not found for on-chain donation"]) w).
Proof.
  intros Hf Hc. unfold processDonationConfirmation. run_watcher.
  rewrite Hf. world_simpl. rewrite Hc. reflexivity.
Qed.

(** A settlement whose row exists: the row is rewritten as CONFIRMED,
    whatever its status was, and the updater runs. *)
Lemma process_announced now ev d w :
  find (fun x => bool_decide (Donation.txHash x = DonationReceivedEvent.transactionHash ev))
       (donations w) = Some d ->
  exists w1,
    donations w1
    = prisma.update_where (fun x => bool_decide (Donation.id x = Donation.id d))
        (confirmOnChain (DonationReceivedEvent.blockNumber ev)
                        (DonationReceivedEvent.blockTimestamp ev) now)
        (donations w)
    /\ campaigns w1 = campaigns w
    /\ campaigns (exec (processDonationConfirmation now ev) w)
       = campaigns (exec (updateCampaignTotals (Donation.campaignId d)
                            (DonationReceivedEvent.amount ev)) w1)
    /\ donations (exec (processDonationConfirmation now ev) w) = donations w1.
Proof.
  intros Hf.
  destruct (find_some _ _ Hf) as [Hin _].
  destruct (find_some_In (fun x => bool_decide (Donation.id x = Donation.id d))
              _ _ Hin (bool_decide_eq_true_2 _ eq_refl)) as (d0 & Hid).
  unfold processDonationConfirmation, exec. run_watcher.
  rewrite Hf. world_simpl. rewrite Hid. world_simpl.
  exists (set_trace
            (fun t => t ++ [Db (DonationUpdate (Donation.id d)
                                  (Donation.status
                                     (confirmOnChain (DonationReceivedEvent.blockNumber ev)
                                        (DonationReceivedEvent.blockTimestamp ev) now d0)))])
            (set_donations
               (prisma.update_where (fun x => bool_decide (Donation.id x = Donation.id d))
                  (confirmOnChain (DonationReceivedEvent.blockNumber ev)
                                  (DonationReceivedEvent.blockTimestamp ev) now))
               w)).
  split; [reflexivity|]. split; [reflexivity|].
  match goal with
  | |- context [updateCampaignTotals ?a ?b ?w0] =>
      pose proof (updateCampaignTotals_frame a b w0) as [Hd _];
      destruct (updateCampaignTotals a b w0) as [[[]|e] w2]
  end; world_simpl; cbn [snd] in Hd; split; solve [reflexivity | exact Hd].
Qed.

End LedgerWatcherFacts.

(** ** Address normalisation *)
Module AddressFacts.
Import SdsListenerService BlockchainService StoreFacts AggregateUpdaterFacts
       StreamListenerFacts StreamCreationFacts Variants.

Lemma handleDonationEvent_invalid now ev w :
  safeParse (RawSdsEvent.payload ev) = None ->
  handleDonationEvent now ev w
  = (Returned tt, set_trace (fun t => t ++ [Log Warn "Invalid donation event schema"]) w).
Proof. intros H. unfold handleDonationEvent. now rewrite H. Qed.

Lemma handleDonationEvent_unknown_campaign now ev p w :
  safeParse (RawSdsEvent.payload ev) = Some p ->
  find (fun x => bool_decide (Donation.txHash x = DonationEvent.txHash p)) (donations w)
  = None ->
  find (fun x => bool_decide (Campaign.onChainId x = DonationEvent.campaignOnChainId p))
       (campaigns w) = None ->
  handleDonationEvent now ev w
  = (Returned tt, set_trace (fun t => t ++ [Log Warn "Campaign not found for donation"]) w).
Proof.
  intros Hp Hf Hc. unfold handleDonationEvent. rewrite Hp. run_listener.
  rewrite Hf. world_simpl. now rewrite Hc.
Qed.








End AddressFacts.

(** ** Arithmetic on amounts *)
Module AmountFacts.
Import SdsListenerService BlockchainService StoreFacts AggregateUpdaterFacts
       StreamListenerFacts StreamCreationFacts.

(** In the safe-integer range the comparison of converted values is the
    comparison of the integers. *)
Lemma ge_exact a b :
  - 2 ^ 53 < a < 2 ^ 53 -> - 2 ^ 53 < b < 2 ^ 53 ->
  JsNumber.ge (JsNumber.Number a) (JsNumber.Number b) = (b <=? a).
Proof.
  intros Ha Hb. now rewrite !JsNumberFacts.Number_exact.
Qed.

(** C5 as stated fails: the leaderboard increment for an announced amount
    of [2^53 + 1] wei is [2^53], and a running total of [2^53] wei is taken
    to have reached a target of [2^53 + 1] wei. *)
Lemma C5_amounts_pass_through_binary64 :
  DonationEvent.amount Examples.payloadOdd = 9007199254740993
  /\ leaderboards (exec (handleEvent 1699999999500 Examples.streamOdd) Examples.world0)
       !! CacheKeys.leaderboard.global ≫= (fun board => board !! Examples.donorLower)
     = Some (JsNumber.Fin 9007199254740992)
  /\ (let w := exec (processDonationConfirmation 1700000200500 Examples.ledgerC3)
                    Examples.world3 in
      (Campaign.currentAmount <$> campaigns w) = [9007199254740992]
      /\ (Campaign.targetAmount <$> campaigns w) = [9007199254740993]
      /\ (Campaign.status <$> campaigns w) = [COMPLETED]).
Proof. vm_compute. repeat split. Qed.

(** C5, amended: the campaign aggregate and the donor aggregate are
    incremented by exact integer addition.  The leaderboard increment is the
    amount converted to a binary64 number and the completion threshold
    compares the converted total with the converted target; both agree with
    exact integer arithmetic as long as the values stay below [2^53] in
    magnitude, and a total that has reached the target always passes the
    comparison. *)
Theorem C5_integer_aggregates_and_converted_scores :
  (forall w campaignId amountWei c,
     find (fun c => bool_decide (Campaign.id c = campaignId)) (campaigns w) = Some c ->
     exists c',
       find (fun c => bool_decide (Campaign.id c = campaignId))
            (campaigns (exec (updateCampaignTotals campaignId amountWei) w)) = Some c'
       /\ Campaign.currentAmount c' = Campaign.currentAmount c + amountWei
       /\ Campaign.donorCount c' = Campaign.donorCount c + 1
       /\ Campaign.status c'
          = if JsNumber.ge (JsNumber.Number (Campaign.currentAmount c + amountWei))
                           (JsNumber.Number (Campaign.targetAmount c))
            then COMPLETED else Campaign.status c)
  /\ (forall now ev p c w,
        safeParse (RawSdsEvent.payload ev) = Some p ->
        find (fun x => bool_decide (Donation.txHash x = DonationEvent.txHash p))
             (donations w) = None ->
        find (fun x => bool_decide
                (Campaign.onChainId x = DonationEvent.campaignOnChainId p))
             (campaigns w) = Some c ->
        let w' := exec (handleDonationEvent now ev) w in
        let key := JsString.toLowerCase (DonationEvent.donor p) in
        let boards1 :=
          default (leaderboards w)
            (redis.zincrby CacheKeys.leaderboard.global
               (JsNumber.Number (DonationEvent.amount p)) key (leaderboards w)) in
        donors w' !! key
        = Some match donors w !! key with
               | None => Donor.mk (DonationEvent.amount p) 1 1 now now
               | Some d => Donor.mk (Donor.totalDonated d + DonationEvent.amount p)
                             (Donor.donationCount d + 1) (Donor.campaignCount d)
                             (Donor.firstDonationAt d) now
               end
        /\ leaderboards w'
           = default boards1
               (redis.zincrby (CacheKeys.leaderboard.campaign (Campaign.id c))
                  (JsNumber.Number (DonationEvent.amount p)) key boards1))
  /\ (forall key member (boards : gmap string (gmap string JsNumber.t)) x a,
        default ∅ (boards !! key) !! member = Some (JsNumber.Fin x) ->
        - 2 ^ 53 < x + a < 2 ^ 53 ->
        - 2 ^ 53 < a < 2 ^ 53 ->
        redis.zincrby key (JsNumber.parseFloat a) member boards
        = Some (<[key := <[member := JsNumber.Fin (x + a)]> (default ∅ (boards !! key))]>
                  boards))
  /\ (forall a b,
        - 2 ^ 53 < a < 2 ^ 53 -> - 2 ^ 53 < b < 2 ^ 53 ->
        JsNumber.ge (JsNumber.Number a) (JsNumber.Number b) = (b <=? a))
  /\ (forall a b, b <= a -> JsNumber.ge (JsNumber.Number a) (JsNumber.Number b) = true).
Proof.
  split; [|split; [|split; [|split]]].
  - intros w campaignId amountWei c Hf.
    destruct (updateCampaignTotals_row w campaignId amountWei c Hf)
      as (c' & Hc' & Hcur & Hcnt & _ & Hst).
    exists c'. repeat split; assumption.
  - intros now ev p c w Hp Hf Hc w' key boards1.
    destruct (handleDonationEvent_created now ev p c w Hp Hf Hc)
      as (_ & _ & _ & _ & Ho & Hl).
    cbv zeta in *. split.
    + subst w' key. rewrite Ho, lookup_insert_eq. reflexivity.
    + subst w' key boards1. exact Hl.
  - intros key member boards x a Hold Hsum Ha.
    unfold redis.zincrby, JsNumber.parseFloat. rewrite Hold. cbn [default from_option id].
    rewrite (JsNumberFacts.Number_exact a Ha). cbn [JsNumber.add].
    now rewrite (JsNumberFacts.Number_exact (x + a) Hsum).
  - exact ge_exact.
  - intros a b Hba. now apply JsNumberFacts.Number_mono.
Qed.

Lemma C5_integer_aggregates_witness :
  (exists c',
     find (fun c => bool_decide (Campaign.id c = "c1"))
          (campaigns (exec (updateCampaignTotals "c1" 9007199254740993) Examples.world0))
     = Some c'
     /\ Campaign.currentAmount c' = 9007199254740993)
  /\ JsNumber.ge (JsNumber.Number 7) (JsNumber.Number 5) = true.
Proof.
  destruct C5_integer_aggregates_and_converted_scores as (H1 & _ & _ & H4 & _).
  split.
  - destruct (H1 Examples.world0 "c1" 9007199254740993 Examples.campaignC1 eq_refl)
      as (c' & Hc' & Hcur & _).
    exists c'. split; [exact Hc' | exact Hcur].
  - apply (H4 7 5); split; reflexivity.
Defined.

End AmountFacts.

(** * Further properties of the services *)

(** ** Ledger Watcher: completion and withdrawal notifications *)
Module NotificationFacts.
Import BlockchainService StoreFacts AggregateUpdaterFacts ReconcilerFacts
       LedgerWatcherFacts Invariants.



Lemma update_where_spent {A} (q : A -> bool) (f g : A -> A) l :
  (forall x, q x = true -> q (f x) = false) ->
  prisma.update_where q g (prisma.update_where q f l) = prisma.update_where q f l.
Proof.
  intros Hq. unfold prisma.update_where. rewrite map_map.
  apply map_ext. intros x. destruct (q x) eqn:E; [|now rewrite E].
  now rewrite (Hq x E).
Qed.

Ltac world_simpl_in H :=
  cbn
    [donations campaigns donors withdrawals sdsEvents nextId feeds leaderboards trace
     set_donations set_campaigns set_donors set_withdrawals set_sdsEvents set_nextId
     set_feeds set_leaderboards set_trace fst snd] in H.

Ltac run_notification :=
  unfold exec, handleCampaignCompleted, handleWithdrawal, prisma.campaign.findUnique,
         prisma.campaign.update, prisma.withdrawal.updateMany, redis.del,
         redis.delPattern, log, effect, throw, modify, gets, bind, ret;
  world_simpl.



(** The updater writes the campaign table and the trace only. *)
Lemma updateCampaignTotals_same campaignId amountWei w :
  same_but_campaigns w (snd (updateCampaignTotals campaignId amountWei w)).
Proof.
  unfold same_but_campaigns. run_updater.
  destruct (find _ (campaigns w)) as [c|] eqn:Hf; world_simpl; [|repeat split].
  destruct (JsNumber.ge _ _); world_simpl; [|repeat split].
  match goal with
  | |- context [find ?p (prisma.update_where ?q ?f ?l)] =>
      destruct (find p (prisma.update_where q f l))
  end; world_simpl; repeat split.
Qed.

Lemma creditFromRow_same d w :
  same_but_campaigns w (snd (creditFromRow d w)).
Proof.
  destruct (creditFromRow_cases d w) as [[_ ->] | [_ [message ->]]].
  - apply updateCampaignTotals_same.
  - repeat split.
Qed.

Lemma handleWithdrawal_run now onChainId toAddress amount txHash blockNumber w :
  let w' := exec (handleWithdrawal now onChainId toAddress amount txHash blockNumber) w in
  withdrawals w'
  = match find (fun c => bool_decide (Campaign.onChainId c = onChainId)) (campaigns w) with
    | Some c =>
        prisma.update_where (settles (Campaign.id c) toAddress amount)
          (fun wd => Withdrawal.mk (Withdrawal.id wd) (Withdrawal.campaignId wd)
                       (Withdrawal.toAddress wd) (Withdrawal.amount wd)
                       Withdrawal.COMPLETED (Some txHash) (Some blockNumber) (Some now))
          (withdrawals w)
    | None => withdrawals w
    end
  /\ donations w' = donations w /\ campaigns w' = campaigns w /\ donors w' = donors w
  /\ feeds w' = feeds w /\ leaderboards w' = leaderboards w.
Proof.
  run_notification.
  destruct (find _ (campaigns w)) as [c|]; world_simpl; repeat split.
Qed.

(** X2: a withdrawal notification completes exactly the withdrawal requests of
    its campaign that are in status PROCESSING with the notified amount and
    the lower-cased recipient, writes no other table, and a second
    notification for the same campaign, recipient and amount - whatever its
    transaction - changes no row: a request is settled once. *)
Theorem withdrawal_notification_settles_once
  now now' onChainId toAddress amount txHash txHash' blockNumber blockNumber' w :
  let w' := exec (handleWithdrawal now onChainId toAddress amount txHash blockNumber) w in
  withdrawals w'
  = match find (fun c => bool_decide (Campaign.onChainId c = onChainId)) (campaigns w) with
    | Some c =>
        prisma.update_where (settles (Campaign.id c) toAddress amount)
          (fun wd => Withdrawal.mk (Withdrawal.id wd) (Withdrawal.campaignId wd)
                       (Withdrawal.toAddress wd) (Withdrawal.amount wd)
                       Withdrawal.COMPLETED (Some txHash) (Some blockNumber) (Some now))
          (withdrawals w)
    | None => withdrawals w
    end
  /\ donations w' = donations w /\ campaigns w' = campaigns w /\ donors w' = donors w
  /\ withdrawals
       (exec (handleWithdrawal now' onChainId toAddress amount txHash' blockNumber') w')
     = withdrawals w'.
Proof.
  intros w'.
  destruct (handleWithdrawal_run now onChainId toAddress amount txHash blockNumber w)
    as (Hw & Hd & Hc & Ho & _).
  fold w' in Hw, Hd, Hc, Ho.
  split; [exact Hw|]. split; [exact Hd|]. split; [exact Hc|]. split; [exact Ho|].
  destruct (handleWithdrawal_run now' onChainId toAddress amount txHash' blockNumber' w')
    as (Hw2 & _).
  cbv zeta in Hw2. rewrite Hw2, Hc.
  destruct (find _ (campaigns w)) as [c|]; [|reflexivity].
  rewrite Hw. apply update_where_spent.
  intros wd Hm. unfold settles in *. cbn.
  apply andb_false_iff. right. now apply bool_decide_eq_false.
Qed.

(** The settlement handler on a transaction that already has a row, table
    by table. *)
Lemma processDonationConfirmation_announced now ev d w :
  find (fun x => bool_decide (Donation.txHash x = DonationReceivedEvent.transactionHash ev))
       (donations w) = Some d ->
  let w' := exec (processDonationConfirmation now ev) w in
  let confirmed := confirmOnChain (DonationReceivedEvent.blockNumber ev)
                                  (DonationReceivedEvent.blockTimestamp ev) now in
  donations w'
  = prisma.update_where (fun x => bool_decide (Donation.id x = Donation.id d)) confirmed
                        (donations w)
  /\ In (confirmed d) (donations w')
  /\ Donation.status (confirmed d) = CONFIRMED
  /\ Donation.amount (confirmed d) = Donation.amount d
  /\ campaigns w'
     = campaigns (exec (updateCampaignTotals (Donation.campaignId d)
                          (DonationReceivedEvent.amount ev)) w)
  /\ donors w' = donors w /\ feeds w' = feeds w /\ leaderboards w' = leaderboards w
  /\ nextId w' = nextId w.
Proof.
  intros Hf w' confirmed.
  destruct (process_announced now ev d w Hf) as (w1 & Hd1 & Hc1 & Hc & Hd).
  fold w' in Hc, Hd. fold confirmed in Hd1.
  destruct (find_some _ _ Hf) as [Hin _].
  split; [now rewrite Hd|].
  split.
  { rewrite Hd, Hd1.
    pose proof (In_update_where (fun x => bool_decide (Donation.id x = Donation.id d))
                  confirmed _ _ Hin) as H.
    cbn beta in H. now rewrite bool_decide_eq_true_2 in H. }
  split; [reflexivity|]. split; [reflexivity|].
  split.
  { rewrite Hc. now apply updateCampaignTotals_campaigns_ext. }
  destruct (find_some_In (fun x => bool_decide (Donation.id x = Donation.id d))
              _ _ Hin (bool_decide_eq_true_2 _ eq_refl)) as (d0 & Hid).
  subst w'. unfold processDonationConfirmation, exec. run_watcher.
  rewrite Hf. world_simpl. rewrite Hid. world_simpl.
  match goal with
  | |- context [updateCampaignTotals ?a ?b ?w0] =>
      pose proof (updateCampaignTotals_same a b w0) as Hs;
      destruct (updateCampaignTotals a b w0) as [[[]|e] w2]
  end; world_simpl; cbn [snd] in Hs;
    destruct Hs as (_ & Hdo & _ & _ & Hn & Hfe & Hl);
    world_simpl_in Hdo; world_simpl_in Hn; world_simpl_in Hfe; world_simpl_in Hl;
    repeat split; assumption.
Qed.



End NotificationFacts.

(** ** The donation table's uniqueness constraints *)
Module InvariantFacts.
Import BlockchainService SdsListenerService StoreFacts AggregateUpdaterFacts
       ReconcilerFacts StreamListenerFacts StreamCreationFacts LedgerWatcherFacts
       AddressFacts NotificationFacts Invariants.

Lemma unique_rows_ext w w' :
  donations w' = donations w -> nextId w' = nextId w ->
  unique_rows w -> unique_rows w'.
Proof. unfold unique_rows. intros -> ->. trivial. Qed.

Lemma find_none_fresh txHash l :
  find (fun x => bool_decide (Donation.txHash x = txHash)) l = None ->
  ~ In txHash (map Donation.txHash l).
Proof.
  induction l as [|a l IH]; cbn; [tauto|].
  destruct (bool_decide (Donation.txHash a = txHash)) eqn:E; [discriminate|].
  apply bool_decide_eq_false in E. intros H [Ha | Hin]; [contradiction | now apply IH].
Qed.

Lemma NoDup_snoc {A} (l : list A) x :
  List.NoDup l -> ~ In x l -> List.NoDup (l ++ [x]).
Proof.
  intros Hl Hx. apply List.NoDup_app; [exact Hl | repeat constructor; intros []|].
  intros a Ha [-> | []]. contradiction.
Qed.

(** Appending the row the store creates keeps the constraints. *)
Lemma unique_rows_create w w' row :
  find (fun x => bool_decide (Donation.txHash x = Donation.txHash row)) (donations w)
  = None ->
  Donation.id row = nextId w ->
  donations w' = donations w ++ [row] -> nextId w' = S (nextId w) ->
  unique_rows w -> unique_rows w'.
Proof.
  intros Hf Hid Hd Hn (Htx & Hids & Hlt). unfold unique_rows. rewrite Hd, Hn.
  rewrite !map_app. cbn [map]. split; [|split].
  - apply NoDup_snoc; [exact Htx | now apply find_none_fresh].
  - apply NoDup_snoc; [exact Hids|]. rewrite Hid. intros Hin.
    apply in_map_iff in Hin as (y & Hy & Hin).
    rewrite Forall_forall in Hlt. apply list_elem_of_In in Hin.
    specialize (Hlt y Hin). lia.
  - apply Forall_app. split.
    + eapply Forall_impl; [exact Hlt|]. cbn. intros; lia.
    + constructor; [lia | constructor].
Qed.

(** Rewriting rows in place keeps the constraints when hash and identifier
    stay as they are. *)
Lemma unique_rows_update w w' (p : Donation.t -> bool) f :
  (forall x, Donation.txHash (f x) = Donation.txHash x) ->
  (forall x, Donation.id (f x) = Donation.id x) ->
  donations w' = prisma.update_where p f (donations w) -> nextId w' = nextId w ->
  unique_rows w -> unique_rows w'.
Proof.
  intros Htx Hid Hd Hn (H1 & H2 & H3). unfold unique_rows. rewrite Hd, Hn.
  unfold prisma.update_where. rewrite !map_map.
  split; [|split].
  - erewrite map_ext; [exact H1|]. intros x. cbn. now destruct (p x).
  - erewrite map_ext; [exact H2|]. intros x. cbn. now destruct (p x).
  - apply Forall_map. eapply Forall_impl; [exact H3|].
    intros x Hx. cbn. destruct (p x); [now rewrite Hid | exact Hx].
Qed.

Lemma same_ledger_refl w : same_ledger w w.
Proof. repeat split. Qed.

Lemma same_ledger_trans w1 w2 w3 :
  same_ledger w1 w2 -> same_ledger w2 w3 -> same_ledger w1 w3.
Proof.
  unfold same_ledger. intros (A1 & A2 & A3 & A4 & A5 & A6 & A7) (B1 & B2 & B3 & B4 & B5 & B6 & B7).
  repeat split; congruence.
Qed.

(** The settlement handler when it creates the row, with the whole store. *)
Lemma process_unannounced_store now ev c w :
  find (fun x => bool_decide (Donation.txHash x = DonationReceivedEvent.transactionHash ev))
       (donations w) = None ->
  find (fun x => bool_decide
                   (Campaign.onChainId x = toString (DonationReceivedEvent.campaignId ev)))
       (campaigns w) = Some c ->
  exists w1,
    donations w1 = donations w ++ [confirmedRow now ev c (nextId w) now]
    /\ nextId w1 = S (nextId w)
    /\ campaigns w1 = campaigns w /\ donors w1 = donors w
    /\ feeds w1 = feeds w /\ leaderboards w1 = leaderboards w
    /\ processDonationConfirmation now ev w
       = updateCampaignTotals (Campaign.id c) (DonationReceivedEvent.amount ev) w1.
Proof.
  intros Hf Hc. unfold processDonationConfirmation. run_watcher.
  rewrite Hf. world_simpl. rewrite Hc. world_simpl.
  cbn [Donation.txHash confirmedRow]. rewrite Hf. world_simpl.
  eexists. split; [|split; [|split; [|split; [|split; [|split]]]]].
  7: reflexivity.
  all: reflexivity.
Qed.

Lemma settlement_keeps_unique_rows now ev w :
  unique_rows w -> unique_rows (exec (processDonationConfirmation now ev) w).
Proof.
  intros Hu.
  destruct (find (fun x => bool_decide
                    (Donation.txHash x = DonationReceivedEvent.transactionHash ev))
                 (donations w)) as [d|] eqn:Hf.
  - destruct (processDonationConfirmation_announced now ev d w Hf)
      as (Hd & _ & _ & _ & _ & _ & _ & _ & Hn).
    eapply unique_rows_update; [| |exact Hd|exact Hn|exact Hu]; reflexivity.
  - destruct (find (fun x => bool_decide
                      (Campaign.onChainId x
                       = toString (DonationReceivedEvent.campaignId ev)))
                   (campaigns w)) as [c|] eqn:Hc.
    + destruct (process_unannounced_store now ev c w Hf Hc)
        as (w1 & Hd1 & Hn1 & _ & _ & _ & _ & Hrun).
      unfold exec. rewrite Hrun.
      destruct (updateCampaignTotals_same (Campaign.id c)
                  (DonationReceivedEvent.amount ev) w1) as (Hd & _ & _ & _ & Hn & _).
      eapply (unique_rows_ext w1); [exact Hd | exact Hn |].
      eapply (unique_rows_create w w1); [| |exact Hd1|exact Hn1|exact Hu].
      * exact Hf.
      * reflexivity.
    + unfold exec. rewrite (process_unknown_campaign now ev w Hf Hc).
      now apply (unique_rows_ext w).
Qed.

(** The four ways the donation handler can go. *)
Lemma handleDonationEvent_cases now ev w :
  (exists line, handleDonationEvent now ev w
                = (Returned tt, set_trace (fun t => t ++ [line]) w))
  \/ (exists p c,
        safeParse (RawSdsEvent.payload ev) = Some p
        /\ find (fun x => bool_decide (Donation.txHash x = DonationEvent.txHash p))
                (donations w) = None
        /\ find (fun x => bool_decide
                            (Campaign.onChainId x = DonationEvent.campaignOnChainId p))
                (campaigns w) = Some c).
Proof.
  destruct (safeParse (RawSdsEvent.payload ev)) as [p|] eqn:Hp.
  - pose proof (safeParse_payload _ _ Hp) as Hpay.
    destruct (find (fun x => bool_decide (Donation.txHash x = DonationEvent.txHash p))
                   (donations w)) as [d|] eqn:Hf.
    + left. eexists. apply (handleDonationEvent_duplicate now ev p d w Hpay Hf).
    + destruct (find (fun x => bool_decide
                        (Campaign.onChainId x = DonationEvent.campaignOnChainId p))
                     (campaigns w)) as [c|] eqn:Hc.
      * right. exists p, c. auto.
      * left. eexists. apply (handleDonationEvent_unknown_campaign now ev p w Hp Hf Hc).
  - left. eexists. apply (handleDonationEvent_invalid now ev w Hp).
Qed.

Lemma announcement_keeps_unique_rows now ev w :
  unique_rows w -> unique_rows (exec (handleDonationEvent now ev) w).
Proof.
  intros Hu.
  destruct (handleDonationEvent_cases now ev w) as [(line & Hrun) | (p & c & Hp & Hf & Hc)].
  - unfold exec. rewrite Hrun. now apply (unique_rows_ext w).
  - destruct (handleDonationEvent_created now ev p c w Hp Hf Hc)
      as (Hd & _ & _ & Hn & _).
    cbv zeta in Hd, Hn.
    eapply (unique_rows_create w); [| |exact Hd|exact Hn|exact Hu].
    + exact Hf.
    + reflexivity.
Qed.

(** The event handler wraps the donation handler between writes to the
    raw-event table: seen from the other tables it either does nothing or
    does what the donation handler does. *)
Lemma handleEvent_decompose now ev w :
  exists w0 w1,
    same_ledger w w0
    /\ (w1 = w0 \/ w1 = exec (handleDonationEvent now ev) w0)
    /\ same_ledger w1 (exec (handleEvent now ev) w)
    /\ (sdsEvents w0 = sdsEvents w
        \/ sdsEvents w0
           = sdsEvents w
             ++ [SdsEventRow.mk (RawSdsEvent.id ev) (RawSdsEvent.streamId ev)
                   (RawSdsEvent.type ev) (RawSdsEvent.payload ev) now None None 0]).
Proof.
  unfold handleEvent, try_catch, exec. run_listener.
  destruct (find _ (sdsEvents w)) as [r|] eqn:Hr; world_simpl.
  - rewrite Hr. world_simpl.
    exists w, w. split; [apply same_ledger_refl|]. split; [now left|].
    split; [repeat split | now left].
  - destruct (bool_decide (RawSdsEvent.type ev = "donation")).
    + match goal with
      | |- context [handleDonationEvent now ev ?w0] =>
          exists w0; destruct (handleDonationEvent now ev w0) as [[[]|e] wD]
      end; eexists; world_simpl;
      (split; [repeat split|]);
      (split; [right; reflexivity|]); cbn [snd];
      match goal with
      | |- context [find ?q (sdsEvents ?x)] =>
          destruct (find q (sdsEvents x)) eqn:Hrow
      end; world_simpl; rewrite ?Hrow; world_simpl;
        (split; [repeat split | now right]).
    + world_simpl.
      match goal with
      | |- context [find ?q (sdsEvents w ++ ?l)] =>
          destruct (find q (sdsEvents w ++ l)) eqn:Hrow
      end; world_simpl; rewrite ?Hrow; world_simpl;
        exists w, w; (split; [|split; [left; reflexivity|split; [|now left]]]);
        repeat split.
Qed.

Lemma stream_event_keeps_unique_rows now ev w :
  unique_rows w -> unique_rows (exec (handleEvent now ev) w).
Proof.
  intros Hu.
  destruct (handleEvent_decompose now ev w)
    as (w0 & w1 & (Hd0 & _ & _ & _ & Hn0 & _) & H1 & (Hd & _ & _ & _ & Hn & _) & _).
  apply (unique_rows_ext w1); [exact Hd | exact Hn|].
  assert (Hu0 : unique_rows w0) by now apply (unique_rows_ext w).
  destruct H1 as [-> | ->]; [exact Hu0|].
  now apply announcement_keeps_unique_rows.
Qed.

End InvariantFacts.

(** ** Reconciler: the verdict for every row *)
Module SweepFacts.
Import BlockchainService StoreFacts AggregateUpdaterFacts ReconcilerFacts
       LedgerWatcherFacts NotificationFacts InvariantFacts Invariants SweepOutcome.

Lemma verdict_keeps_keys now answer d :
  Donation.txHash (verdict now answer d) = Donation.txHash d
  /\ Donation.id (verdict now answer d) = Donation.id d.
Proof.
  destruct answer as [|status blockNumber|msg]; cbn; [auto| |auto].
  destruct (bool_decide (status = Some 1)); auto.
Qed.

(** One loop body, whole store: the selected row gets its verdict, no other
    donation row changes, and only a successful receipt can reach the
    campaign table. *)
Lemma reconcileDonation_verdict now rpc d w :
  exists w1,
    reconcileDonation now rpc d w = (Returned tt, w1)
    /\ donations w1
       = prisma.update_where (fun x => bool_decide (Donation.id x = Donation.id d))
           (verdict now (rpc (Donation.txHash d))) (donations w)
    /\ nextId w1 = nextId w /\ donors w1 = donors w
    /\ feeds w1 = feeds w /\ leaderboards w1 = leaderboards w
    /\ ((forall blockNumber, rpc (Donation.txHash d) <> Receipt (Some 1) blockNumber) ->
        campaigns w1 = campaigns w).
Proof.
  unfold reconcileDonation, try_catch.
  destruct (rpc (Donation.txHash d)) as [|status blockNumber|msg] eqn:Hrpc.
  - run_store.
    destruct (find _ (donations w)) as [d0|] eqn:Hf; world_simpl.
    + eexists. repeat split.
    + eexists. split; [reflexivity|]. world_simpl.
      rewrite (update_where_none _ _ _ Hf). repeat split.
  - unfold verdict. destruct (bool_decide (status = Some 1)) eqn:Hs.
    + apply bool_decide_eq_true in Hs. subst status.
      unfold bind at 1. unfold bind at 1.
      unfold prisma.donation.update at 1. run_store.
      destruct (find _ (donations w)) as [d0|] eqn:Hf; world_simpl.
      * match goal with
        | |- context [creditFromRow ?a ?w0] =>
            pose proof (creditFromRow_same a w0) as Hs;
            destruct (creditFromRow a w0) as [[[]|e] w2]
        end; world_simpl; cbn [snd] in Hs;
          destruct Hs as (Hd & Hdo & _ & _ & Hn & Hfe & Hl);
          world_simpl_in Hd; world_simpl_in Hdo; world_simpl_in Hn;
          world_simpl_in Hfe; world_simpl_in Hl;
          (eexists; split; [reflexivity|]); world_simpl;
          repeat split; try assumption;
          intros Hne; now contradiction (Hne blockNumber).
      * eexists. split; [reflexivity|]. world_simpl.
        rewrite (update_where_none _ _ _ Hf). repeat split.
    + run_store.
      destruct (find _ (donations w)) as [d0|] eqn:Hf; world_simpl.
      * eexists. repeat split.
      * eexists. split; [reflexivity|]. world_simpl.
        rewrite (update_where_none _ _ _ Hf). repeat split.
  - run_store. eexists. split; [reflexivity|]. world_simpl.
    change (verdict now (RpcFailure msg)) with (fun x : Donation.t => x).
    rewrite update_where_id. repeat split.
Qed.

Lemma forEach_verdict now rpc l : forall w d,
  In d l -> List.NoDup (map Donation.id l) -> In d (donations w) ->
  In (verdict now (rpc (Donation.txHash d)) d)
     (donations (exec (forEach (reconcileDonation now rpc) l) w)).
Proof.
  induction l as [|a l IH]; intros w d Hl Hnd Hin; [destruct Hl|].
  cbn [map] in Hnd. apply List.NoDup_cons_iff in Hnd as [Hfresh Hnd].
  destruct (reconcileDonation_verdict now rpc a w) as (w1 & Hrun & Hd & _).
  cbn [forEach]. rewrite (exec_bind_returned _ _ _ _ _ Hrun).
  destruct Hl as [-> | Hl].
  - apply forEach_keeps_unselected.
    + rewrite Hd.
      pose proof (In_update_where
                    (fun x => bool_decide (Donation.id x = Donation.id d))
                    (verdict now (rpc (Donation.txHash d))) _ _ Hin) as H.
      cbn beta in H. now rewrite bool_decide_eq_true_2 in H.
    + intros y Hy E. apply Hfresh.
      rewrite (proj2 (verdict_keeps_keys now _ d)) in E. rewrite <- E. now apply in_map.
  - apply IH; try assumption.
    rewrite Hd. apply keeps_other_rows; [exact Hin|].
    apply bool_decide_eq_false. intros E. apply Hfresh. rewrite <- E. now apply in_map.
Qed.

Lemma forEach_keeps_unique_rows now rpc l : forall w,
  unique_rows w -> unique_rows (exec (forEach (reconcileDonation now rpc) l) w).
Proof.
  induction l as [|a l IH]; intros w Hu; [exact Hu|].
  destruct (reconcileDonation_verdict now rpc a w) as (w1 & Hrun & Hd & Hn & _).
  cbn [forEach]. rewrite (exec_bind_returned _ _ _ _ _ Hrun).
  apply IH.
  eapply (unique_rows_update w w1); [| |exact Hd|exact Hn|exact Hu];
    intros x; apply verdict_keeps_keys.
Qed.

Lemma runReconciliation_store now rpc w :
  exists w0 w1,
    donations w0 = donations w /\ nextId w0 = nextId w
    /\ w1 = exec (forEach (reconcileDonation now rpc)
                    (List.filter
                       (pendingBefore (now - config.reconciliation.orphanTimeoutMs))
                       (donations w))) w0
    /\ donations (exec (runReconciliation now rpc) w) = donations w1
    /\ nextId (exec (runReconciliation now rpc) w) = nextId w1.
Proof.
  exists (set_trace (fun t => t ++ [Log Info "Starting reconciliation run..."]) w).
  eexists. split; [reflexivity|]. split; [reflexivity|]. split; [reflexivity|].
  unfold runReconciliation, selectPending, reconcileAll, exec.
  run_store.
  match goal with
  | |- context [forEach ?b ?l ?w0] => destruct (forEach b l w0) as [[[]|e] w1]
  end; world_simpl; split; reflexivity.
Qed.

Lemma sweep_keeps_unique_rows now rpc w :
  unique_rows w -> unique_rows (exec (runReconciliation now rpc) w).
Proof.
  intros Hu.
  destruct (runReconciliation_store now rpc w) as (w0 & w1 & Hd0 & Hn0 & -> & Hd & Hn).
  eapply unique_rows_ext; [exact Hd | exact Hn|].
  apply forEach_keeps_unique_rows. now apply (unique_rows_ext w).
Qed.

Lemma selected_iff deadline (x : Donation.t) l :
  In x (List.filter (pendingBefore deadline) l)
  <-> In x l /\ pendingBefore deadline x = true.
Proof. apply filter_In. Qed.

(** X4: the donation table keeps its uniqueness constraints - one row per
    transaction hash, one row per identifier, identifiers below the store's
    counter - under every writer: the stream's event handler, the ledger's
    settlement handler and the reconciliation sweep, for any input. *)
Theorem writers_keep_donation_rows_unique w :
  unique_rows w ->
  (forall now ev, unique_rows (exec (SdsListenerService.handleEvent now ev) w))
  /\ (forall now ev, unique_rows (exec (processDonationConfirmation now ev) w))
  /\ (forall now rpc, unique_rows (exec (runReconciliation now rpc) w)).
Proof.
  intros Hu. split; [|split].
  - intros now ev. now apply stream_event_keeps_unique_rows.
  - intros now ev. now apply settlement_keeps_unique_rows.
  - intros now rpc. now apply sweep_keeps_unique_rows.
Qed.

Lemma writers_keep_donation_rows_unique_witness :
  unique_rows Runs.announced /\ unique_rows Runs.confirmed.
Proof.
  assert (Hu : unique_rows Runs.announced).
  { unfold unique_rows. vm_compute.
    split; [|split]; repeat constructor; intros []. }
  split; [exact Hu|].
  exact (proj1 (proj2 (writers_keep_donation_rows_unique Runs.announced Hu))
               1700000000500 Examples.ledgerAA).
Defined.

(** The sweep, row by row. *)
Lemma runReconciliation_rows now rpc w d :
  In d (donations w) ->
  List.NoDup (map Donation.id (donations w)) ->
  In (if pendingBefore (now - config.reconciliation.orphanTimeoutMs) d
      then verdict now (rpc (Donation.txHash d)) d else d)
     (donations (exec (runReconciliation now rpc) w)).
Proof.
  intros Hin Hnd.
  destruct (runReconciliation_donations now rpc w) as (w0 & Hd0 & Hdo0 & Hd & Hdo).
  rewrite Hd.
  destruct (pendingBefore _ d) eqn:Hp.
  - apply forEach_verdict.
    + apply selected_iff. auto.
    + now apply NoDup_ids_filter.
    + now rewrite Hd0.
  - apply forEach_keeps_unselected; [now rewrite Hd0|].
    intros y Hy E. apply selected_iff in Hy as [Hy Hpy].
    rewrite (same_id_same_row _ _ _ Hnd Hy Hin E) in Hpy. congruence.
Qed.

(** X5: after a sweep every donation row that was in the table is still there
    under its identifier, hash, campaign and amount.  If the sweep selected
    it (PENDING and created before the deadline) its status is set by the
    ledger's answer - ORPHANED without a receipt, CONFIRMED (with the
    receipt's block number and the confirmation time) for a receipt with
    status 1, FAILED for any other receipt, unchanged when the query fails;
    a row the sweep did not select is unchanged.  The sweep returns normally
    whatever the ledger answers and writes no donor row. *)
Theorem sweep_gives_every_row_its_verdict now rpc w d :
  In d (donations w) ->
  List.NoDup (map Donation.id (donations w)) ->
  let w' := exec (runReconciliation now rpc) w in
  let selected := pendingBefore (now - config.reconciliation.orphanTimeoutMs) d in
  (exists row,
     In row (donations w')
     /\ Donation.id row = Donation.id d
     /\ Donation.txHash row = Donation.txHash d
     /\ Donation.campaignId row = Donation.campaignId d
     /\ Donation.amount row = Donation.amount d
     /\ Donation.status row
        = (if selected
           then match rpc (Donation.txHash d) with
                | NoReceipt => ORPHANED
                | Receipt status _ =>
                    if bool_decide (status = Some 1) then CONFIRMED else FAILED
                | RpcFailure _ => PENDING
                end
           else Donation.status d)
     /\ Donation.blockNumber row
        = (if selected
           then match rpc (Donation.txHash d) with
                | Receipt status blockNumber =>
                    if bool_decide (status = Some 1) then Some blockNumber
                    else Donation.blockNumber d
                | _ => Donation.blockNumber d
                end
           else Donation.blockNumber d)
     /\ Donation.confirmedAt row
        = (if selected
           then match rpc (Donation.txHash d) with
                | Receipt status _ =>
                    if bool_decide (status = Some 1) then Some now
                    else Donation.confirmedAt d
                | _ => Donation.confirmedAt d
                end
           else Donation.confirmedAt d)
     /\ (selected = false -> row = d)
     /\ row = (if selected then verdict now (rpc (Donation.txHash d)) d else d))
  /\ (exists w'', runReconciliation now rpc w = (Returned tt, w''))
  /\ donors w' = donors w.
Proof.
  intros Hin Hnd w' selected.
  split; [|split].
  - pose proof (runReconciliation_rows now rpc w d Hin Hnd) as Hrow.
    fold w' selected in Hrow.
    exists (if selected then verdict now (rpc (Donation.txHash d)) d else d).
    split; [exact Hrow|].
    destruct selected eqn:Hsel.
    + assert (Hst : Donation.status d = PENDING).
      { unfold selected, pendingBefore in Hsel. apply andb_true_iff in Hsel as [Hs _].
        now apply bool_decide_eq_true in Hs. }
      unfold verdict.
      destruct (rpc (Donation.txHash d)) as [|status blockNumber|msg].
      * repeat split; discriminate.
      * destruct (bool_decide (status = Some 1)); repeat split; discriminate.
      * repeat split; solve [exact Hst | discriminate].
    + repeat split.
  - apply runReconciliation_returns.
  - subst w'.
    destruct (runReconciliation_donations now rpc w) as (w0 & _ & Hdo0 & _ & Hdo).
    now rewrite Hdo, forEach_keeps_donors.
Qed.

Lemma sweep_verdict_witness :
  exists row,
    In row (donations (exec (runReconciliation 1700000358500 Runs.settled) Runs.announced))
    /\ Donation.id row = Donation.id Runs.pendingAA
    /\ Donation.status row = CONFIRMED
    /\ Donation.blockNumber row = Some 7.
Proof.
  assert (Hin : In Runs.pendingAA (donations Runs.announced))
    by (vm_compute; left; reflexivity).
  assert (Hnd : List.NoDup (map Donation.id (donations Runs.announced)))
    by (vm_compute; repeat constructor; intros []).
  destruct (sweep_gives_every_row_its_verdict 1700000358500 Runs.settled Runs.announced
              Runs.pendingAA Hin Hnd)
    as ((row & Hrow & Hid & _ & _ & _ & Hst & Hbn & _) & _).
  exists row. split; [exact Hrow|]. split; [exact Hid|]. split; [exact Hst | exact Hbn].
Defined.

(** X6: a selected donation whose query to the ledger fails stays in the table
    exactly as it was - still PENDING - and, unlike an orphaned one, is
    selected again by any later sweep. *)
Theorem failed_query_leaves_donation_for_next_sweep now now' rpc msg w d :
  In d (donations w) ->
  Donation.status d = PENDING ->
  Donation.createdAt d < now - config.reconciliation.orphanTimeoutMs ->
  rpc (Donation.txHash d) = RpcFailure msg ->
  List.NoDup (map Donation.id (donations w)) ->
  now <= now' ->
  let w' := exec (runReconciliation now rpc) w in
  In d (donations w')
  /\ exists selected, fst (selectPending now' w') = Returned selected /\ In d selected.
Proof.
  intros Hin Hst Hold Hrpc Hnd Hlater w'.
  destruct (runReconciliation_donations now rpc w) as (w0 & Hd0 & _ & Hd & _).
  assert (Hsel : pendingBefore (now - config.reconciliation.orphanTimeoutMs) d = true).
  { unfold pendingBefore. apply andb_true_iff.
    split; [now apply bool_decide_eq_true | now apply Z.ltb_lt]. }
  assert (Hin' : In d (donations w')).
  { subst w'. rewrite Hd.
    pose proof (forEach_verdict now rpc _ w0 d
                  (proj2 (selected_iff _ _ _) (conj Hin Hsel))
                  (NoDup_ids_filter _ _ Hnd)) as H.
    rewrite Hd0 in H. specialize (H Hin). now rewrite Hrpc in H. }
  split; [exact Hin'|].
  eexists. split; [reflexivity|].
  apply selected_iff. split; [exact Hin'|].
  unfold pendingBefore. apply andb_true_iff.
  split; [now apply bool_decide_eq_true | apply Z.ltb_lt; lia].
Qed.

Lemma failed_query_witness :
  In Runs.pendingAA
     (donations (exec (runReconciliation 1700000358500 Ledgers.unreachable) Runs.announced)).
Proof.
  apply (failed_query_leaves_donation_for_next_sweep 1700000358500 1700000388500
           Ledgers.unreachable "timeout" Runs.announced Runs.pendingAA).
  - vm_compute. left. reflexivity.
  - reflexivity.
  - vm_compute. reflexivity.
  - reflexivity.
  - vm_compute. repeat constructor. intros [].
  - vm_compute. discriminate.
Defined.

(** X7: a selected donation whose receipt reports anything but status 1 is
    in the table after the sweep as a row whose status is FAILED and whose
    other columns are as before, and the loop step that writes it changes
    neither campaign nor donor rows. *)
Theorem reverted_receipt_marks_failed now rpc status blockNumber w d :
  In d (donations w) ->
  Donation.status d = PENDING ->
  Donation.createdAt d < now - config.reconciliation.orphanTimeoutMs ->
  rpc (Donation.txHash d) = Receipt status blockNumber ->
  status <> Some 1 ->
  List.NoDup (map Donation.id (donations w)) ->
  (exists row,
     In row (donations (exec (runReconciliation now rpc) w))
     /\ Donation.status row = FAILED
     /\ Donation.id row = Donation.id d
     /\ Donation.txHash row = Donation.txHash d
     /\ Donation.campaignId row = Donation.campaignId d
     /\ Donation.donorAddress row = Donation.donorAddress d
     /\ Donation.amount row = Donation.amount d
     /\ Donation.blockNumber row = Donation.blockNumber d
     /\ Donation.confirmedAt row = Donation.confirmedAt d
     /\ Donation.createdAt row = Donation.createdAt d
     /\ row = set_donation_status FAILED d)
  /\ (forall w0,
        campaigns (exec (reconcileDonation now rpc d) w0) = campaigns w0
        /\ donors (exec (reconcileDonation now rpc d) w0) = donors w0).
Proof.
  intros Hin Hst Hold Hrpc Hstatus Hnd.
  assert (Hsel : pendingBefore (now - config.reconciliation.orphanTimeoutMs) d = true).
  { unfold pendingBefore. apply andb_true_iff.
    split; [now apply bool_decide_eq_true | now apply Z.ltb_lt]. }
  split.
  - pose proof (runReconciliation_rows now rpc w d Hin Hnd) as H.
    rewrite Hsel, Hrpc in H. unfold verdict in H.
    rewrite bool_decide_eq_false_2 in H by exact Hstatus.
    exists (set_donation_status FAILED d). split; [exact H|].
    assert (Hf : Donation.status (set_donation_status FAILED d) = FAILED) by reflexivity.
    split; [exact Hf|]. repeat split.
  - intros w1.
    destruct (reconcileDonation_verdict now rpc d w1)
      as (w2 & Hrun & _ & _ & Hdo & _ & _ & Hc).
    unfold exec. rewrite Hrun. split; [|exact Hdo].
    apply Hc. intros bn. rewrite Hrpc. intros [= E _]. now apply Hstatus.
Qed.

Lemma reverted_receipt_witness :
  exists row,
    In row (donations (exec (runReconciliation 1700000358500 Ledgers.reverted)
                            Runs.announced))
    /\ Donation.status row = FAILED
    /\ Donation.id row = Donation.id Runs.pendingAA.
Proof.
  assert (Hin : In Runs.pendingAA (donations Runs.announced))
    by (vm_compute; left; reflexivity).
  assert (Hold : Donation.createdAt Runs.pendingAA
                 < 1700000358500 - config.reconciliation.orphanTimeoutMs)
    by (vm_compute; reflexivity).
  assert (Hne : Some 0 <> Some 1) by discriminate.
  assert (Hnd : List.NoDup (map Donation.id (donations Runs.announced)))
    by (vm_compute; repeat constructor; intros []).
  destruct (reverted_receipt_marks_failed 1700000358500 Ledgers.reverted (Some 0) 7
              Runs.announced Runs.pendingAA Hin eq_refl Hold eq_refl Hne Hnd)
    as ((row & Hrow & Hst & Hid & _) & _).
  exists row. split; [exact Hrow|]. split; [exact Hst | exact Hid].
Defined.

(** X8: the loop step for a donation with a successful receipt, when the row
    still exists: the row becomes CONFIRMED with the receipt's block number
    and the confirmation time and keeps its block time.  The campaign is
    then credited with the amount of the row as the sweep read it - by one
    run of the updater - only if that amount is below [10^21] in magnitude:
    from [10^21] on, the decimal's [toString()] is in exponential notation,
    [BigInt] refuses it, the loop's [catch] logs the error, and the row
    stays CONFIRMED with the campaign table unchanged.  No donor row is
    written either way. *)
Theorem successful_receipt_credits_plain_amounts_only now rpc blockNumber w d d0 :
  rpc (Donation.txHash d) = Receipt (Some 1) blockNumber ->
  find (fun x => bool_decide (Donation.id x = Donation.id d)) (donations w) = Some d0 ->
  let w' := exec (reconcileDonation now rpc d) w in
  donations w'
  = prisma.update_where (fun x => bool_decide (Donation.id x = Donation.id d))
      (confirmFromReceipt blockNumber now) (donations w)
  /\ Donation.status (confirmFromReceipt blockNumber now d0) = CONFIRMED
  /\ Donation.blockNumber (confirmFromReceipt blockNumber now d0) = Some blockNumber
  /\ Donation.confirmedAt (confirmFromReceipt blockNumber now d0) = Some now
  /\ Donation.blockTimestamp (confirmFromReceipt blockNumber now d0)
     = Donation.blockTimestamp d0
  /\ (Z.abs (Donation.amount d) < 10 ^ 21 ->
      campaigns w'
      = campaigns (exec (updateCampaignTotals (Donation.campaignId d)
                           (Donation.amount d)) w))
  /\ (10 ^ 21 <= Z.abs (Donation.amount d) ->
      campaigns w' = campaigns w
      /\ exists line, trace w' = trace w ++ [line; Log Error "Error reconciling donation"])
  /\ donors w' = donors w.
Proof.
  intros Hrpc Hf w'.
  destruct (reconcileDonation_verdict now rpc d w) as (w1 & Hrun & Hd & _ & Hdo & _).
  assert (Hw' : w' = w1) by (subst w'; unfold exec; now rewrite Hrun).
  rewrite Hrpc in Hd. unfold verdict in Hd. cbn in Hd.
  split; [now rewrite Hw'|]. do 4 (split; [reflexivity|]).
  split; [|split; [|now rewrite Hw']];
    intros Hamount; subst w'; clear Hw' Hrun Hd Hdo w1;
    unfold exec, reconcileDonation, try_catch; rewrite Hrpc;
    rewrite bool_decide_eq_true_2 by reflexivity;
    unfold bind at 1; unfold bind at 1;
    unfold prisma.donation.update at 1; run_store; rewrite Hf; world_simpl;
    unfold creditFromRow, Decimal.toBigInt, Decimal.plain, Decimal.toExpPos.
  - rewrite (proj2 (Z.ltb_lt _ _) Hamount).
    match goal with
    | |- context [updateCampaignTotals ?a ?b ?w0] =>
        pose proof (updateCampaignTotals_campaigns_ext a b w0 w eq_refl) as Hext;
        unfold exec in Hext;
        destruct (updateCampaignTotals a b w0) as [[[]|e] w2]
    end; world_simpl; exact Hext.
  - rewrite (proj2 (Z.ltb_ge _ _) Hamount). unfold throw. world_simpl.
    split; [reflexivity|]. eexists. rewrite <- app_assoc. reflexivity.
Qed.

Lemma successful_receipt_witness :
  (Campaign.currentAmount
     <$> campaigns (exec (reconcileDonation 1700000358500 Runs.settled Runs.pendingAA)
                         Runs.announced))
  = [Examples.oneUnit]
  /\ (Donation.status
        <$> donations (exec (reconcileDonation 1700000358500 Runs.settled
                               Examples.pendingHuge) Examples.worldHuge))
     = [CONFIRMED]
  /\ campaigns (exec (reconcileDonation 1700000358500 Runs.settled Examples.pendingHuge)
                     Examples.worldHuge)
     = campaigns Examples.worldHuge.
Proof.
  destruct (successful_receipt_credits_plain_amounts_only 1700000358500 Runs.settled 7
              Runs.announced Runs.pendingAA Runs.pendingAA eq_refl eq_refl)
    as (_ & _ & _ & _ & _ & Hc & _).
  destruct (successful_receipt_credits_plain_amounts_only 1700000358500 Runs.settled 7
              Examples.worldHuge Examples.pendingHuge Examples.pendingHuge eq_refl eq_refl)
    as (Hd & _ & _ & _ & _ & _ & Hhuge & _).
  cbv zeta in Hc, Hd, Hhuge.
  split; [rewrite Hc by (vm_compute; reflexivity); reflexivity|].
  split; [rewrite Hd; reflexivity|].
  apply Hhuge. vm_compute. discriminate.
Defined.

End SweepFacts.

(** ** Stream Listener: the event handler as a whole *)
Module StreamEventFacts.
Import SdsListenerService StoreFacts AggregateUpdaterFacts ReconcilerFacts
       StreamListenerFacts StreamCreationFacts AddressFacts NotificationFacts
       InvariantFacts Invariants RawEvents JsNumberFacts JsNumber.

Lemma published_app t added :
  published (t ++ added) = published t ++ published added.
Proof. unfold published. apply omap_app. Qed.

Lemma find_app_fresh {A} (p : A -> bool) l x :
  find p l = None -> p x = true -> find p (l ++ [x]) = Some x.
Proof.
  induction l as [|a l IH]; cbn; intros Hf Hp; [now rewrite Hp|].
  destruct (p a); [discriminate | now apply IH].
Qed.

Lemma update_where_app_fresh {A} (p : A -> bool) f l x :
  find p l = None -> p x = true ->
  prisma.update_where p f (l ++ [x]) = l ++ [f x].
Proof.
  intros Hf Hp. unfold prisma.update_where. rewrite map_app. cbn. rewrite Hp.
  f_equal. apply (update_where_none p f l Hf).
Qed.

(** X9: the event handler contains every failure: it returns normally for any
    event and any store. *)
Theorem event_handler_never_throws now ev w :
  exists w', handleEvent now ev w = (Returned tt, w').
Proof.
  unfold handleEvent, try_catch.
  match goal with
  | |- context [match ?body w with _ => _ end] => destruct (body w) as [[[]|e] w1]
  end; [eexists; reflexivity|].
  unfold bind, log, effect, modify. world_simpl.
  match goal with
  | |- context [prisma.sdsEvent.update ?i ?f ?w0] =>
      destruct (prisma.sdsEvent.update i f w0) as [[[]|e'] w2]
  end; eexists; reflexivity.
Qed.

(** X10: replay protection: an event whose identifier is already in the raw-event
    table is not processed, whatever its type and payload - no donation,
    donor, campaign, feed or leaderboard changes and nothing is published;
    the stored raw row gets the store's error text and one more retry
    counted. *)
Theorem replayed_event_is_not_processed now ev r w :
  find (fun x => bool_decide (SdsEventRow.eventId x = RawSdsEvent.id ev)) (sdsEvents w)
  = Some r ->
  let w' := exec (handleEvent now ev) w in
  same_ledger w w'
  /\ published (trace w') = published (trace w)
  /\ exists message,
       sdsEvents w'
       = prisma.update_where
           (fun x => bool_decide (SdsEventRow.eventId x = RawSdsEvent.id ev))
           (errored message) (sdsEvents w).
Proof.
  intros Hr w'. subst w'.
  unfold handleEvent, try_catch, exec. run_listener.
  rewrite Hr. world_simpl. rewrite Hr. world_simpl.
  split; [repeat split|]. split; [|eexists; reflexivity].
  rewrite !published_app. cbn. now rewrite !app_nil_r.
Qed.

Lemma replayed_event_witness :
  same_ledger Runs.announced
    (exec (handleEvent 1699999999500 Examples.streamAA) Runs.announced).
Proof.
  refine (proj1 (replayed_event_is_not_processed 1699999999500 Examples.streamAA
                   (processed 1699999998500 (received 1699999998500 Examples.streamAA))
                   Runs.announced _)).
  vm_compute. reflexivity.
Defined.

(** The event handler around a donation handler that returned normally. *)
Lemma handleEvent_fresh now ev w :
  find (fun x => bool_decide (SdsEventRow.eventId x = RawSdsEvent.id ev)) (sdsEvents w)
  = None ->
  let w0 := set_trace (fun t => t ++ [Db (SdsEventCreate (RawSdsEvent.id ev))])
              (set_sdsEvents (fun l => l ++ [received now ev]) w) in
  forall wD,
  (if bool_decide (RawSdsEvent.type ev = "donation")
   then handleDonationEvent now ev w0 else (Returned tt, w0)) = (Returned tt, wD) ->
  sdsEvents wD = sdsEvents w0 ->
  let w' := exec (handleEvent now ev) w in
  same_ledger wD w'
  /\ sdsEvents w' = sdsEvents w ++ [processed now (received now ev)]
  /\ published (trace w') = published (trace wD).
Proof.
  intros Hr w0 wD HD Hs w'. subst w'.
  assert (Hrow : find (fun x => bool_decide (SdsEventRow.eventId x = RawSdsEvent.id ev))
                      (sdsEvents wD) = Some (received now ev)).
  { rewrite Hs. subst w0. world_simpl. apply find_app_fresh; [exact Hr|].
    now apply bool_decide_eq_true. }
  assert (Hupd : forall f,
            prisma.update_where
              (fun x => bool_decide (SdsEventRow.eventId x = RawSdsEvent.id ev)) f
              (sdsEvents wD) = sdsEvents w ++ [f (received now ev)]).
  { intros f. rewrite Hs. subst w0. world_simpl. apply update_where_app_fresh; [exact Hr|].
    now apply bool_decide_eq_true. }
  unfold handleEvent, try_catch, exec. run_listener. rewrite Hr. world_simpl.
  fold (received now ev). fold w0.
  destruct (bool_decide (RawSdsEvent.type ev = "donation"));
    [rewrite HD | injection HD as HD; rewrite HD];
    world_simpl; rewrite Hrow; world_simpl; rewrite Hupd;
    (split; [repeat split|]); (split; [reflexivity|]);
    rewrite !published_app; cbn; now rewrite !app_nil_r.
Qed.

(** The donation handler when it creates nothing: one log line. *)
Lemma handleDonationEvent_dropped now ev w :
  creates_donation ev w = false ->
  RawSdsEvent.type ev = "donation" ->
  exists level text,
    handleDonationEvent now ev w
    = (Returned tt, set_trace (fun t => t ++ [Log level text]) w).
Proof.
  unfold creates_donation. intros Hc Hty.
  rewrite (bool_decide_eq_true_2 _ Hty) in Hc. cbn [andb] in Hc.
  destruct (safeParse (RawSdsEvent.payload ev)) as [p|] eqn:Hp.
  - pose proof (safeParse_payload _ _ Hp) as Hpay.
    destruct (find (fun x => bool_decide (Donation.txHash x = DonationEvent.txHash p))
                   (donations w)) as [d|] eqn:Hf.
    + rewrite (handleDonationEvent_duplicate now ev p d w Hpay Hf).
      rewrite <- Hpay, Hp. eauto.
    + destruct (find (fun x => bool_decide
                        (Campaign.onChainId x = DonationEvent.campaignOnChainId p))
                     (campaigns w)) as [c|] eqn:Hcm; [discriminate|].
      rewrite (handleDonationEvent_unknown_campaign now ev p w Hp Hf Hcm). eauto.
  - rewrite (handleDonationEvent_invalid now ev w Hp). eauto.
Qed.

(** X11: an event with a fresh identifier that does not get as far as creating a
    donation - another event type, a malformed payload, a transaction hash
    already in the table, an unknown campaign - is recorded in the raw-event
    table and marked as processed, with no error and no retry counted; the
    other tables, the feeds and the leaderboards stay as they are and
    nothing is published. *)
Theorem dropped_event_is_recorded_as_processed now ev w :
  find (fun x => bool_decide (SdsEventRow.eventId x = RawSdsEvent.id ev)) (sdsEvents w)
  = None ->
  creates_donation ev w = false ->
  let w' := exec (handleEvent now ev) w in
  same_ledger w w'
  /\ published (trace w') = published (trace w)
  /\ sdsEvents w' = sdsEvents w ++ [processed now (received now ev)].
Proof.
  intros Hr Hc w'.
  set (w0 := set_trace (fun t => t ++ [Db (SdsEventCreate (RawSdsEvent.id ev))])
               (set_sdsEvents (fun l => l ++ [received now ev]) w)).
  assert (Hc0 : creates_donation ev w0 = false) by exact Hc.
  assert (HD : exists line,
             (if bool_decide (RawSdsEvent.type ev = "donation")
              then handleDonationEvent now ev w0 else (Returned tt, w0))
             = (Returned tt, set_trace (fun t => t ++ line) w0)
             /\ published line = []).
  { destruct (bool_decide (RawSdsEvent.type ev = "donation")) eqn:Hty.
    - apply bool_decide_eq_true in Hty.
      destruct (handleDonationEvent_dropped now ev w0 Hc0 Hty) as (level & text & Hrun).
      exists [Log level text]. now split.
    - exists []. split; [|reflexivity].
      destruct w0. unfold set_trace. cbn. now rewrite app_nil_r. }
  destruct HD as (line & HD & Hline).
  destruct (handleEvent_fresh now ev w Hr _ HD eq_refl) as (Hl & Hs & Hp).
  fold w' in Hl, Hs, Hp.
  split; [|split; [|exact Hs]].
  - destruct Hl as (H1 & H2 & H3 & H4 & H5 & H6 & H7). repeat split; assumption.
  - rewrite Hp. subst w0. world_simpl. rewrite !published_app, Hline. cbn.
    now rewrite !app_nil_r.
Qed.

Lemma dropped_event_witness :
  same_ledger Examples.worldDone
    (exec (handleEvent 1699999999500 Examples.streamOdd) Examples.worldDone).
Proof.
  refine (proj1 (dropped_event_is_recorded_as_processed 1699999999500 Examples.streamOdd
                   Examples.worldDone _ _)); vm_compute; reflexivity.
Defined.

Lemma Number_finite n : - 2 ^ 1023 <= n <= 2 ^ 1023 -> exists x, Number n = Fin x.
Proof.
  intros Hn. unfold Number.
  assert (Hcap : round_nonneg (2 ^ 1023) <= max_finite) by (vm_compute; discriminate).
  destruct (0 <=? n) eqn:Hs.
  - apply Z.leb_le in Hs.
    pose proof (round_nonneg_mono n (2 ^ 1023) (conj Hs (proj2 Hn))) as Hm.
    destruct (round_nonneg n <=? max_finite) eqn:Hle; [eauto|].
    apply Z.leb_gt in Hle. exfalso. revert Hm Hcap Hle.
    generalize (round_nonneg n), (round_nonneg (2 ^ 1023)), max_finite. lia.
  - apply Z.leb_gt in Hs.
    assert (H0 : 0 <= - n <= 2 ^ 1023).
    { destruct Hn as [Hlo _]. revert Hlo Hs. generalize (2 ^ 1023). lia. }
    pose proof (round_nonneg_mono (- n) (2 ^ 1023) H0) as Hm.
    destruct (round_nonneg (- n) <=? max_finite) eqn:Hle; [eauto|].
    apply Z.leb_gt in Hle. exfalso. revert Hm Hcap Hle.
    generalize (round_nonneg (- n)), (round_nonneg (2 ^ 1023)), max_finite. lia.
Qed.

Lemma zincrby_finite key x member boards :
  exists boards', redis.zincrby key (Fin x) member boards = Some boards'.
Proof.
  unfold redis.zincrby.
  destruct (default (Fin 0) (default ∅ (boards !! key) !! member)); cbn; eauto.
Qed.

(** The donation handler on a new, well-formed announcement for a known
    campaign, when the amount converts to a finite score: what it logs and
    publishes, and the two feeds. *)
Lemma handleDonationEvent_announces now ev p c w :
  safeParse (RawSdsEvent.payload ev) = Some p ->
  find (fun x => bool_decide (Donation.txHash x = DonationEvent.txHash p)) (donations w)
  = None ->
  find (fun x => bool_decide (Campaign.onChainId x = DonationEvent.campaignOnChainId p))
       (campaigns w) = Some c ->
  - 2 ^ 1023 <= DonationEvent.amount p <= 2 ^ 1023 ->
  let summary := realtimeEvent (pendingRow p c (nextId w) now) p c in
  let feeds1 :=
    <[CacheKeys.recentDonations.global :=
        take 100 (summary :: default [] (feeds w !! CacheKeys.recentDonations.global))]>
      (feeds w) in
  exists wD,
    handleDonationEvent now ev w = (Returned tt, wD)
    /\ sdsEvents wD = sdsEvents w
    /\ trace wD
       = trace w
         ++ [Db (DonationCreate (DonationEvent.txHash p) PENDING);
             Db (DonorUpsert (JsString.toLowerCase (DonationEvent.donor p)));
             Publish "donations" summary; Emit "donation";
             Log Info "Donation event processed"]
    /\ feeds wD
       = <[CacheKeys.recentDonations.campaign (Campaign.id c) :=
             take 100 (summary
                       :: default [] (feeds1 !! CacheKeys.recentDonations.campaign
                                                  (Campaign.id c)))]> feeds1.
Proof.
  intros Hp Hf Hc Ha summary feeds1.
  unfold handleDonationEvent. rewrite Hp.
  unfold prisma.donation.create, prisma.donor.upsert, promise_all,
         redis.pushToFeed, redis.incrementLeaderboard, redis.publish.
  run_listener. rewrite Hf. world_simpl. rewrite Hc. world_simpl.
  cbn [Donation.txHash pendingRow]. rewrite Hf. world_simpl.
  unfold parseFloat. destruct (Number_finite _ Ha) as [x ->].
  match goal with
  | |- context [redis.zincrby ?k (Fin x) ?m ?b] =>
      destruct (zincrby_finite k x m b) as [b1 ->]
  end. world_simpl.
  match goal with
  | |- context [redis.zincrby ?k (Fin x) ?m ?b] =>
      destruct (zincrby_finite k x m b) as [b2 ->]
  end. world_simpl.
  eexists. split; [reflexivity|]. world_simpl.
  split; [reflexivity|]. split; [|reflexivity].
  now rewrite <- !app_assoc.
Qed.

Lemma take_cons_length {A} (x : A) l :
  exists rest, take 100 (x :: l) = x :: rest /\ (length rest < 100)%nat.
Proof.
  exists (take 99 l). split; [reflexivity|].
  rewrite length_take. lia.
Qed.

(** The event handler on a new announcement, table by table. *)
Lemma handleEvent_announcement now ev p c w :
  find (fun x => bool_decide (SdsEventRow.eventId x = RawSdsEvent.id ev)) (sdsEvents w)
  = None ->
  RawSdsEvent.type ev = "donation" ->
  safeParse (RawSdsEvent.payload ev) = Some p ->
  find (fun x => bool_decide (Donation.txHash x = DonationEvent.txHash p)) (donations w)
  = None ->
  find (fun x => bool_decide (Campaign.onChainId x = DonationEvent.campaignOnChainId p))
       (campaigns w) = Some c ->
  - 2 ^ 1023 <= DonationEvent.amount p <= 2 ^ 1023 ->
  let w' := exec (handleEvent now ev) w in
  let row := pendingRow p c (nextId w) now in
  let summary := realtimeEvent row p c in
  donations w' = donations w ++ [row]
  /\ Donation.status row = PENDING
  /\ campaigns w' = campaigns w
  /\ published (trace w') = published (trace w) ++ [("donations", summary)]
  /\ (forall key,
        key = CacheKeys.recentDonations.global
        \/ key = CacheKeys.recentDonations.campaign (Campaign.id c) ->
        exists rest,
          feeds w' !! key = Some (summary :: rest) /\ (length rest < 100)%nat)
  /\ sdsEvents w' = sdsEvents w ++ [processed now (received now ev)].
Proof.
  intros Hr Hty Hp Hf Hc Ha w' row summary.
  set (w0 := set_trace (fun t => t ++ [Db (SdsEventCreate (RawSdsEvent.id ev))])
               (set_sdsEvents (fun l => l ++ [received now ev]) w)).
  destruct (handleDonationEvent_announces now ev p c w0 Hp Hf Hc Ha)
    as (wD & Hrun & HsD & Htr & Hfeeds).
  destruct (handleDonationEvent_created now ev p c w0 Hp Hf Hc)
    as (Hd & Hcm & _).
  cbv zeta in Hd, Hcm. unfold exec in Hd, Hcm. rewrite Hrun in Hd, Hcm. cbn [snd] in Hd, Hcm.
  assert (HD : (if bool_decide (RawSdsEvent.type ev = "donation")
                then handleDonationEvent now ev w0 else (Returned tt, w0))
               = (Returned tt, wD)).
  { now rewrite (bool_decide_eq_true_2 _ Hty). }
  destruct (handleEvent_fresh now ev w Hr _ HD HsD) as (Hl & Hs & Hpub).
  fold w' in Hl, Hs, Hpub.
  destruct Hl as (H1 & H2 & _ & _ & _ & H6 & _).
  split; [now rewrite H1, Hd|]. split; [reflexivity|].
  split; [now rewrite H2, Hcm|].
  split; [|split; [|exact Hs]].
  - rewrite Hpub, Htr. subst w0. world_simpl. rewrite !published_app. cbn.
    now rewrite app_nil_r.
  - intros key Hkey. rewrite H6, Hfeeds. subst w0. world_simpl.
    destruct (decide (key = CacheKeys.recentDonations.campaign (Campaign.id c)))
      as [-> | Hne].
    + rewrite lookup_insert_eq.
      match goal with
      | |- context [take 100 (?x :: ?l)] =>
          destruct (take_cons_length x l) as (rest & -> & Hlen)
      end. eauto.
    + destruct Hkey as [-> | ->]; [|congruence].
      rewrite lookup_insert_ne by congruence. rewrite lookup_insert_eq.
      match goal with
      | |- context [take 100 (?x :: ?l)] =>
          destruct (take_cons_length x l) as (rest & -> & Hlen)
      end. eauto.
Qed.

(** X12: a well-formed announcement of a new transaction for a known campaign,
    arriving as an event with a fresh identifier and an amount that converts
    to a finite score: the provisional row is appended as PENDING, the
    campaign table is not touched (the campaign is credited on
    confirmation only), one summary is published on the channel
    [donations], the same summary is the newest entry of the global feed
    and of the campaign's feed, each kept to at most 100 entries, and the
    raw event is recorded as processed. *)
Theorem new_announcement_is_stored_pending_and_published now ev p c w :
  find (fun x => bool_decide (SdsEventRow.eventId x = RawSdsEvent.id ev)) (sdsEvents w)
  = None ->
  RawSdsEvent.type ev = "donation" ->
  safeParse (RawSdsEvent.payload ev) = Some p ->
  find (fun x => bool_decide (Donation.txHash x = DonationEvent.txHash p)) (donations w)
  = None ->
  find (fun x => bool_decide (Campaign.onChainId x = DonationEvent.campaignOnChainId p))
       (campaigns w) = Some c ->
  - 2 ^ 1023 <= DonationEvent.amount p <= 2 ^ 1023 ->
  let w' := exec (handleEvent now ev) w in
  let row := pendingRow p c (nextId w) now in
  let summary := realtimeEvent row p c in
  donations w' = donations w ++ [row]
  /\ Donation.status row = PENDING
  /\ campaigns w' = campaigns w
  /\ published (trace w') = published (trace w) ++ [("donations", summary)]
  /\ (forall key,
        key = CacheKeys.recentDonations.global
        \/ key = CacheKeys.recentDonations.campaign (Campaign.id c) ->
        exists rest,
          feeds w' !! key = Some (summary :: rest) /\ (length rest < 100)%nat)
  /\ sdsEvents w' = sdsEvents w ++ [processed now (received now ev)].
Proof. exact (handleEvent_announcement now ev p c w). Qed.

Lemma new_announcement_witness :
  donations (exec (handleEvent 1699999998500 Examples.streamAA) Examples.world0)
  = donations Examples.world0
    ++ [pendingRow Examples.payloadAA Examples.campaignC1 (nextId Examples.world0)
          1699999998500].
Proof.
  refine (proj1 (new_announcement_is_stored_pending_and_published 1699999998500
                   Examples.streamAA Examples.payloadAA Examples.campaignC1
                   Examples.world0 _ _ _ _ _ _));
    try (vm_compute; reflexivity).
  split; vm_compute; discriminate.
Defined.

End StreamEventFacts.

(** ** Stream Listener: subscriptions and shutdown *)
Module SubscriptionFacts.
Import SdsConnection SdsSubscriptions.

Lemma sent_signal s l :
  sent (signal s l)
  = sent l ++ match s with
              | send action streamId => [(action, streamId)]
              | _ => []
              end.
Proof.
  unfold sent, signal. cbn [signals]. rewrite omap_app.
  destruct s; reflexivity.
Qed.

(** Requests written while the socket is open. *)
Lemma subscribe_all_open xs : forall l,
  let l' := fold_left (fun l s => subscribeToStream true s l) xs l in
  sent l' = sent l ++ map (pair "subscribe") xs
  /\ subscribedStreams l' = subscribedStreams l
  /\ pendingSubscriptions l' = pendingSubscriptions l
  /\ connected l' = connected l
  /\ reconnectAttempts l' = reconnectAttempts l
  /\ reconnectTimer l' = reconnectTimer l
  /\ heartbeatTimer l' = heartbeatTimer l.
Proof.
  induction xs as [|x xs IH]; intros l; cbn [fold_left map].
  - rewrite app_nil_r. repeat split.
  - specialize (IH (subscribeToStream true x l)). cbv zeta in IH.
    destruct IH as (Hs & H1 & H2 & H3 & H4 & H5 & H6).
    cbv zeta. rewrite Hs, H1, H2, H3, H4, H5, H6.
    unfold subscribeToStream. rewrite !sent_signal, app_nil_r, <- app_assoc.
    repeat split.
Qed.

Lemma queue_delete_In s q x : In x (queue_delete s q) <-> In x q /\ x <> s.
Proof.
  unfold queue_delete. rewrite filter_In, negb_true_iff, bool_decide_eq_false.
  reflexivity.
Qed.

Lemma drain_all xs : forall q,
  (forall x, In x q -> In x xs) ->
  fold_left (fun q s => queue_delete s q) xs q = [].
Proof.
  induction xs as [|a xs IH]; intros q Hq; cbn [fold_left].
  - destruct q as [|x q]; [reflexivity|]. destruct (Hq x (or_introl eq_refl)).
  - apply IH. intros x Hx. apply queue_delete_In in Hx as [Hx Hne].
    destruct (Hq x Hx) as [<- | Hin]; [congruence | exact Hin].
Qed.

Lemma subscribe_and_dequeue xs : forall l,
  let l' := fold_left
              (fun l s =>
                 let l := subscribeToStream true s l in
                 set_pendingSubscriptions (queue_delete s (pendingSubscriptions l)) l)
              xs l in
  sent l' = sent l ++ map (pair "subscribe") xs
  /\ subscribedStreams l' = subscribedStreams l
  /\ pendingSubscriptions l'
     = fold_left (fun q s => queue_delete s q) xs (pendingSubscriptions l).
Proof.
  induction xs as [|x xs IH]; intros l; cbn [fold_left map].
  - rewrite app_nil_r. repeat split.
  - match goal with
    | |- context [fold_left ?f xs ?l1] => specialize (IH l1)
    end.
    cbv zeta in IH. destruct IH as (Hs & H1 & H2).
    cbv zeta. rewrite Hs, H1, H2.
    unfold subscribeToStream, sent, set_pendingSubscriptions, signal.
    cbn [signals subscribedStreams pendingSubscriptions].
    rewrite !omap_app. cbn. rewrite app_nil_r, <- app_assoc. repeat split.
Qed.

Lemma resend_all xs : forall l,
  let l' := fold_left (fun l s => signal (send "subscribe" s) l) xs l in
  sent l' = sent l ++ map (pair "subscribe") xs
  /\ subscribedStreams l' = subscribedStreams l
  /\ pendingSubscriptions l' = pendingSubscriptions l
  /\ connected l' = connected l
  /\ reconnectAttempts l' = reconnectAttempts l
  /\ reconnectTimer l' = reconnectTimer l
  /\ heartbeatTimer l' = heartbeatTimer l.
Proof.
  induction xs as [|x xs IH]; intros l; cbn [fold_left map].
  - rewrite app_nil_r. repeat split.
  - specialize (IH (signal (send "subscribe" x) l)). cbv zeta in IH.
    destruct IH as (Hs & H1 & H2 & H3 & H4 & H5 & H6).
    cbv zeta. rewrite Hs, H1, H2, H3, H4, H5, H6.
    rewrite sent_signal, <- app_assoc. repeat split.
Qed.

(** What the 'open' handler's resubscription does, request by request. *)
Lemma resubscribe_run l :
  let l' := SdsSubscriptions.resubscribeToStreams l in
  sent l' = sent l ++ map (pair "subscribe") (subscribedStreams l ++ pendingSubscriptions l)
  /\ pendingSubscriptions l' = []
  /\ subscribedStreams l' = subscribedStreams l.
Proof.
  unfold SdsSubscriptions.resubscribeToStreams. cbv zeta.
  destruct (subscribe_all_open (subscribedStreams l) l) as (Hs & H1 & H2 & _).
  cbv zeta in Hs, H1, H2.
  set (l1 := fold_left (fun l s => subscribeToStream true s l) (subscribedStreams l) l) in *.
  destruct (subscribe_and_dequeue (pendingSubscriptions l1) l1) as (Hs' & H1' & H2').
  cbv zeta in Hs', H1', H2'. rewrite Hs', H1', H2', Hs, H1, H2.
  rewrite map_app, app_assoc. split; [reflexivity|]. split; [|reflexivity].
  apply drain_all. auto.
Qed.

(** X13: when the socket opens, one subscribe request is written for every
    acknowledged stream and then for every queued one, in order; the queue
    is empty afterwards and the list of acknowledged streams is as before.
    The listener's state machine sends the same requests. *)
Theorem reconnect_resubscribes_every_stream l :
  let l' := SdsSubscriptions.resubscribeToStreams l in
  sent l' = sent l ++ map (pair "subscribe") (subscribedStreams l ++ pendingSubscriptions l)
  /\ pendingSubscriptions l' = []
  /\ subscribedStreams l' = subscribedStreams l
  /\ sent (SdsConnection.resubscribeToStreams l) = sent l'
  /\ pendingSubscriptions (SdsConnection.resubscribeToStreams l) = [].
Proof.
  destruct (resubscribe_run l) as (Hs & Hp & Hst). cbv zeta in *.
  split; [exact Hs|]. split; [exact Hp|]. split; [exact Hst|].
  rewrite Hs. unfold SdsConnection.resubscribeToStreams. cbv zeta.
  destruct (resend_all (subscribedStreams l) l) as (Hs1 & _ & H2 & _).
  cbv zeta in Hs1, H2.
  set (l1 := fold_left (fun l s => signal (send "subscribe" s) l) (subscribedStreams l) l) in *.
  destruct (resend_all (pendingSubscriptions l1) l1) as (Hs2 & _).
  cbv zeta in Hs2. split; [|reflexivity].
  unfold sent in *. cbn [signals set_pendingSubscriptions].
  rewrite Hs2, Hs1, H2, map_app, app_assoc. reflexivity.
Qed.

(** X14: an unsubscribe issued while the socket is not open only edits the
    queue: for a stream the endpoint has acknowledged nothing is written
    and the stream stays in the acknowledged list, so the next 'open'
    subscribes to it again. *)
Theorem offline_unsubscribe_is_not_remembered s l :
  In s (subscribedStreams l) ->
  let l1 := unsubscribeFromStream false s l in
  sent l1 = sent l
  /\ subscribedStreams l1 = subscribedStreams l
  /\ sent (SdsSubscriptions.resubscribeToStreams l1)
     = sent l ++ map (pair "subscribe")
                     (subscribedStreams l ++ queue_delete s (pendingSubscriptions l))
  /\ In ("subscribe", s) (map (pair "subscribe") (subscribedStreams l)).
Proof.
  intros Hin l1.
  destruct (resubscribe_run l1) as (Hs & _). cbv zeta in Hs.
  split; [reflexivity|]. split; [reflexivity|]. split; [exact Hs|].
  now apply in_map.
Qed.

Lemma offline_unsubscribe_witness :
  sent (SdsSubscriptions.resubscribeToStreams
          (unsubscribeFromStream false "stream-c1"
             (mk false 0 None ["stream-c1"] None false ["stream-c2"] [])))
  = [("subscribe", "stream-c1"); ("subscribe", "stream-c2")].
Proof.
  refine (proj1 (proj2 (proj2 (offline_unsubscribe_is_not_remembered "stream-c1"
            (mk false 0 None ["stream-c1"] None false ["stream-c2"] []) _)))).
  left. reflexivity.
Defined.

Lemma handleMessage_connection m l :
  connected (handleMessage m l) = connected l
  /\ reconnectAttempts (handleMessage m l) = reconnectAttempts l
  /\ reconnectTimer (handleMessage m l) = reconnectTimer l
  /\ pendingSubscriptions (handleMessage m l) = pendingSubscriptions l
  /\ sent (handleMessage m l) = sent l.
Proof.
  destruct m; cbn [handleMessage]; cbv zeta;
    try match goal with
        | |- context [bool_decide ?P] => destruct (bool_decide P)
        end;
    unfold sent; cbn; rewrite ?omap_app, ?app_nil_r; cbn; rewrite ?app_nil_r;
    repeat split.
Qed.

Lemma handleMessage_NoDup m l :
  List.NoDup (subscribedStreams l) -> List.NoDup (subscribedStreams (handleMessage m l)).
Proof.
  intros Hnd. destruct m; cbn [handleMessage]; cbv zeta; try exact Hnd.
  - cbn [signal subscribedStreams].
    destruct (bool_decide (streamId ∈ subscribedStreams l)) eqn:Hin; [exact Hnd|].
    cbn [set_subscribedStreams subscribedStreams].
    apply bool_decide_eq_false in Hin. rewrite list_elem_of_In in Hin.
    now apply InvariantFacts.NoDup_snoc.
  - cbn [signal set_subscribedStreams subscribedStreams]. now apply List.NoDup_filter.
Qed.

(** X15: acknowledgements from the endpoint keep the list of acknowledged streams
    free of duplicates: ['subscribed'] adds its stream unless it is there,
    ['unsubscribed'] removes it, every other message leaves the list alone;
    no message changes the connection flag, the attempt counter, the timer
    or the queue, and none makes the listener write to the socket. *)
Theorem acknowledgements_keep_streams_duplicate_free ms l :
  List.NoDup (subscribedStreams l) ->
  let l' := fold_left (fun l m => handleMessage m l) ms l in
  List.NoDup (subscribedStreams l')
  /\ (forall s x, In x (subscribedStreams (handleMessage (subscribed s) l'))
                  <-> x = s \/ In x (subscribedStreams l'))
  /\ (forall s x, In x (subscribedStreams (handleMessage (unsubscribed s) l'))
                  <-> x <> s /\ In x (subscribedStreams l'))
  /\ connected l' = connected l
  /\ reconnectAttempts l' = reconnectAttempts l
  /\ reconnectTimer l' = reconnectTimer l
  /\ pendingSubscriptions l' = pendingSubscriptions l
  /\ sent l' = sent l.
Proof.
  intros Hnd l'.
  assert (Hinv : List.NoDup (subscribedStreams l')
                 /\ connected l' = connected l
                 /\ reconnectAttempts l' = reconnectAttempts l
                 /\ reconnectTimer l' = reconnectTimer l
                 /\ pendingSubscriptions l' = pendingSubscriptions l
                 /\ sent l' = sent l).
  { subst l'. revert l Hnd. induction ms as [|m ms IH]; intros l Hnd; cbn [fold_left].
    - repeat split; assumption.
    - destruct (IH (handleMessage m l) (handleMessage_NoDup m l Hnd))
        as (H0 & H1 & H2 & H3 & H4 & H5).
      destruct (handleMessage_connection m l) as (G1 & G2 & G3 & G4 & G5).
      rewrite H1, H2, H3, H4, H5. repeat split; assumption. }
  destruct Hinv as (H0 & H1 & H2 & H3 & H4 & H5).
  split; [exact H0|]. split; [|split; [|repeat split; assumption]].
  - intros s x. cbn [handleMessage]. cbv zeta. cbn [signal subscribedStreams].
    destruct (bool_decide (s ∈ subscribedStreams l')) eqn:Hin.
    + apply bool_decide_eq_true in Hin. rewrite list_elem_of_In in Hin.
      split; [auto|]. intros [-> | Hx]; assumption.
    + cbn [set_subscribedStreams subscribedStreams]. rewrite in_app_iff. cbn.
      split; [intros [Hx | [<- | []]]; auto | intros [-> | Hx]; auto].
  - intros s x. cbn [handleMessage]. cbv zeta.
    cbn [signal set_subscribedStreams subscribedStreams].
    rewrite filter_In, negb_true_iff, bool_decide_eq_false. tauto.
Qed.

Lemma acknowledgements_witness :
  List.NoDup
    (subscribedStreams
       (fold_left (fun l m => handleMessage m l)
          [subscribed "stream-c1"; subscribed "stream-c1"; unsubscribed "stream-c2"]
          (mk true 0 None ["stream-c2"] None true [] []))).
Proof.
  refine (proj1 (acknowledgements_keep_streams_duplicate_free
                   [subscribed "stream-c1"; subscribed "stream-c1"; unsubscribed "stream-c2"]
                   (mk true 0 None ["stream-c2"] None true [] []) _)).
  repeat constructor. intros [].
Defined.

Lemma successful_reconnect_run l d :
  reconnectTimer l = Some d ->
  let l' := step l (TimerElapsed Opened) in
  connected l' = true
  /\ reconnectAttempts l' = 0
  /\ reconnectTimer l' = None
  /\ heartbeatTimer l' = true
  /\ pendingSubscriptions l' = []
  /\ connected (step l' SocketClosed) = false
  /\ reconnectTimer (step l' SocketClosed) = Some config.sds.reconnectInterval.
Proof.
  intros Ht l'. subst l'. cbn [step]. rewrite Ht.
  unfold reconnectTimerCallback, onOpen, SdsConnection.resubscribeToStreams. cbv zeta.
  match goal with
  | |- context [fold_left ?f (subscribedStreams ?a) ?a] =>
      destruct (resend_all (subscribedStreams a) a) as (_ & _ & P2 & P3 & P4 & P5 & P6);
      cbv zeta in P2, P3, P4, P5, P6;
      set (l1 := fold_left f (subscribedStreams a) a) in *
  end.
  destruct (resend_all (pendingSubscriptions l1) l1) as (_ & _ & _ & Q3 & Q4 & Q5 & Q6).
  cbv zeta in Q3, Q4, Q5, Q6.
  set (l2 := fold_left (fun l s => signal (send "subscribe" s) l)
               (pendingSubscriptions l1) l1) in *.
  assert (Hc : connected l2 = true) by (rewrite Q3, P3; reflexivity).
  assert (Ha : reconnectAttempts l2 = 0) by (rewrite Q4, P4; reflexivity).
  assert (Htm : reconnectTimer l2 = None) by (rewrite Q5, P5; reflexivity).
  assert (Hh : heartbeatTimer l2 = true) by (rewrite Q6, P6; reflexivity).
  unfold handleDisconnect, scheduleReconnect, reconnectDelay. cbv zeta.
  cbn [signal set_pendingSubscriptions set_connected stopHeartbeat set_heartbeatTimer
       set_reconnectTimer connected reconnectAttempts reconnectTimer heartbeatTimer
       pendingSubscriptions].
  rewrite Hc, Ha, Htm, Hh. repeat split.
Qed.

(** X16: a reconnection attempt that succeeds gives the listener its whole retry
    budget back: it is connected, the attempt counter is 0, no timer is
    armed, the heartbeat runs and the queue has been sent; when that
    connection closes, the next attempt is scheduled after the base delay
    again. *)
Theorem successful_reconnect_restores_budget l d :
  reconnectTimer l = Some d ->
  let l' := step l (TimerElapsed Opened) in
  connected l' = true
  /\ reconnectAttempts l' = 0
  /\ reconnectTimer l' = None
  /\ heartbeatTimer l' = true
  /\ pendingSubscriptions l' = []
  /\ connected (step l' SocketClosed) = false
  /\ reconnectTimer (step l' SocketClosed) = Some config.sds.reconnectInterval.
Proof. exact (successful_reconnect_run l d). Qed.

Lemma successful_reconnect_witness :
  connected (step (step initial SocketClosed) (TimerElapsed Opened)) = true.
Proof.
  refine (proj1 (successful_reconnect_restores_budget (step initial SocketClosed) 5000 _)).
  reflexivity.
Defined.

(** X17: [disconnect()] clears both timers and the connection flag, but the close
    event of the socket it closes still runs the disconnect handler: with
    retry budget left a reconnect timer is armed again, and when it fires
    and the endpoint accepts, the listener is connected once more. *)
Theorem close_event_after_disconnect_rearms_reconnect l :
  reconnectAttempts l < config.sds.maxReconnectAttempts ->
  let stopped := disconnect l in
  let l' := step stopped SocketClosed in
  reconnectTimer stopped = None
  /\ heartbeatTimer stopped = false
  /\ connected stopped = false
  /\ reconnectTimer l' = Some (reconnectDelay (reconnectAttempts l))
  /\ connected (step l' (TimerElapsed Opened)) = true.
Proof.
  intros Hlt stopped l'.
  assert (Ht : reconnectTimer l' = Some (reconnectDelay (reconnectAttempts l))).
  { subst l' stopped. cbn [step]. unfold handleDisconnect, disconnect. cbv zeta.
    cbn [signal set_connected stopHeartbeat set_heartbeatTimer set_reconnectTimer
         reconnectAttempts].
    apply Z.ltb_lt in Hlt. rewrite Hlt. reflexivity. }
  split; [reflexivity|]. split; [reflexivity|]. split; [reflexivity|].
  split; [exact Ht|].
  exact (proj1 (successful_reconnect_run l' _ Ht)).
Qed.

Lemma close_after_disconnect_witness :
  reconnectTimer (step (disconnect (mk true 0 None ["stream-c1"] None true [] []))
                       SocketClosed)
  = Some (reconnectDelay 0).
Proof.
  refine (proj1 (proj2 (proj2 (proj2
            (close_event_after_disconnect_rearms_reconnect
               (mk true 0 None ["stream-c1"] None true [] []) _))))).
  reflexivity.
Defined.

Lemma queue_add_In s q x : In x (queue_add s q) <-> In x q \/ x = s.
Proof.
  unfold queue_add. destruct (bool_decide (s ∈ q)) eqn:Hs.
  - apply bool_decide_eq_true in Hs. rewrite list_elem_of_In in Hs.
    split; [auto | intros [H | ->]; assumption].
  - rewrite in_app_iff. cbn. split; [intros [H | [<- | []]]; auto | intros [H | ->]; auto].
Qed.

(** Requests made while the socket is not open. *)
Lemma queue_all_offline xs : forall l,
  let l' := fold_left (fun l s => subscribeToStream false s l) xs l in
  sent l' = sent l
  /\ subscribedStreams l' = subscribedStreams l
  /\ (forall x, In x (pendingSubscriptions l') <-> In x (pendingSubscriptions l) \/ In x xs).
Proof.
  induction xs as [|a xs IH]; intros l; cbn [fold_left].
  - repeat split; [tauto | intros [H | []]; exact H].
  - specialize (IH (subscribeToStream false a l)). cbv zeta in IH.
    destruct IH as (Hs & Hst & Hq). cbv zeta. rewrite Hs, Hst.
    unfold subscribeToStream at 1 2. rewrite sent_signal, app_nil_r.
    split; [reflexivity|]. split; [reflexivity|].
    intros x. rewrite Hq. unfold subscribeToStream.
    cbn [signal set_pendingSubscriptions pendingSubscriptions].
    rewrite queue_add_In. cbn [In]. intuition congruence.
Qed.

(** X18: subscriptions asked for before the connection exists are not lost:
    called while the socket is not open, [subscribeToAllCampaigns] writes
    nothing and queues the stream of every ACTIVE campaign, and the next
    'open' sends a subscribe request for each of them and empties the
    queue. *)
Theorem campaign_streams_queued_offline_are_sent_on_open w l c :
  In c (campaigns w) ->
  Campaign.status c = ACTIVE ->
  let l1 := subscribeToAllCampaigns false w l in
  let l2 := SdsSubscriptions.resubscribeToStreams l1 in
  sent l1 = sent l
  /\ In (Campaign.sdsStreamId c) (pendingSubscriptions l1)
  /\ In ("subscribe", Campaign.sdsStreamId c) (drop (length (sent l1)) (sent l2))
  /\ pendingSubscriptions l2 = [].
Proof.
  intros Hin Hst l1 l2.
  destruct (queue_all_offline (activeStreams w) l) as (Hs & _ & Hq). cbv zeta in Hs, Hq.
  assert (Hs1 : sent l1 = sent l).
  { unfold l1, subscribeToAllCampaigns. now rewrite sent_signal, app_nil_r. }
  assert (Hq1 : In (Campaign.sdsStreamId c) (pendingSubscriptions l1)).
  { unfold l1, subscribeToAllCampaigns. cbn [signal pendingSubscriptions].
    apply Hq. right. unfold activeStreams. apply in_map. apply filter_In.
    split; [exact Hin | now apply bool_decide_eq_true]. }
  destruct (resubscribe_run l1) as (Hs2 & Hp2 & _). cbv zeta in Hs2, Hp2. fold l2 in Hs2, Hp2.
  split; [exact Hs1|]. split; [exact Hq1|]. split; [|exact Hp2].
  rewrite Hs2, drop_app_length. apply in_map. apply in_or_app. now right.
Qed.

Lemma campaign_streams_witness :
  In "stream-c1"
     (pendingSubscriptions (subscribeToAllCampaigns false Examples.world0 initial)).
Proof.
  refine (proj1 (proj2 (campaign_streams_queued_offline_are_sent_on_open
                          Examples.world0 initial Examples.campaignC1 _ _))).
  - left. reflexivity.
  - reflexivity.
Defined.

End SubscriptionFacts.

(** ** Fan-out Hub: control messages and the two broker channels *)
Module HubFacts.
Import WebSocketHandler WebSocketHub SdsListenerService StreamEventFacts Invariants.

Lemma fold_add (streams : list string) : forall s : gset string,
  fold_left (fun s x => s ∪ {[x]}) streams s = s ∪ list_to_set streams.
Proof.
  induction streams as [|x streams IH]; intros s; cbn [fold_left list_to_set].
  - now rewrite union_empty_r_L.
  - now rewrite IH, (assoc_L (∪)).
Qed.

Lemma fold_remove (streams : list string) : forall s : gset string,
  fold_left (fun s x => s ∖ {[x]}) streams s = s ∖ list_to_set streams.
Proof.
  induction streams as [|x streams IH]; intros s; cbn [fold_left list_to_set].
  - now rewrite difference_empty_L.
  - now rewrite IH, difference_difference_l_L.
Qed.

(** X19: a viewer's control messages: [subscribe] adds the listed channels to its
    set and answers with the whole set, [unsubscribe] removes them and
    echoes the request, a [streams] field that is not an array is ignored
    without an answer; answers are written only while the socket is open. *)
Theorem control_messages_edit_the_subscription_set streams c :
  let c1 := handleMessage (subscribe (Some streams)) c in
  let c2 := handleMessage (unsubscribe (Some streams)) c in
  subscribedStreams c1 = subscribedStreams c ∪ list_to_set streams
  /\ received c1
     = received c
       ++ (if ws_open c then [subscribed (subscribedStreams c ∪ list_to_set streams)]
           else [])
  /\ subscribedStreams c2 = subscribedStreams c ∖ list_to_set streams
  /\ received c2 = received c ++ (if ws_open c then [unsubscribed streams] else [])
  /\ handleMessage (subscribe None) c = c
  /\ handleMessage (unsubscribe None) c = c.
Proof.
  cbn [handleMessage]. unfold handleSubscribe, handleUnsubscribe, sendToClient.
  cbn [ws_open subscribedStreams received]. rewrite fold_add, fold_remove.
  destruct (ws_open c); cbn [ws_open subscribedStreams received];
    rewrite ?app_nil_r; repeat split.
Qed.

Lemma events_sendToClient stream ev c :
  events (sendToClient (event stream ev) c)
  = events c ++ (if ws_open c then [(stream, ev)] else []).
Proof.
  unfold sendToClient, events. destruct (ws_open c); cbn [received].
  - now rewrite omap_app.
  - now rewrite app_nil_r.
Qed.

(** One relay, seen from one connection. *)
Lemma broadcast_lookup stream ev clients k c :
  clients !! k = Some c ->
  exists c',
    broadcastToStream stream ev clients !! k = Some c'
    /\ ws_open c' = ws_open c
    /\ subscribedStreams c' = subscribedStreams c
    /\ events c'
       = events c ++ (if wants stream ev c && ws_open c then [(stream, ev)] else []).
Proof.
  intros Hk. unfold broadcastToStream. rewrite lookup_fmap, Hk. cbn.
  eexists. split; [reflexivity|].
  destruct (wants stream ev c).
  - rewrite events_sendToClient. unfold sendToClient.
    destruct (ws_open c) eqn:Ho; cbn; rewrite ?Ho; repeat split.
  - cbn. rewrite app_nil_r. repeat split.
Qed.

(** A donation message from the broker, seen from one connection. *)
Lemma onChannelMessage_donation data clients k c :
  clients !! k = Some c ->
  let ev := EvDonation data in
  let stream := "campaign:" +:+ RealtimeDonationData.campaignId data in
  exists c',
    onChannelMessage "donations" ev clients !! k = Some c'
    /\ events c'
       = events c
         ++ (if wants "donations" ev c && ws_open c then [("donations", ev)] else [])
         ++ (if wants stream ev c && ws_open c then [(stream, ev)] else []).
Proof.
  intros Hk ev stream. unfold onChannelMessage.
  rewrite bool_decide_eq_true_2 by reflexivity. cbv zeta. cbn [ev].
  destruct (broadcast_lookup "donations" ev clients k c Hk)
    as (c1 & Hk1 & Ho1 & Hs1 & He1).
  destruct (broadcast_lookup stream ev _ k c1 Hk1) as (c2 & Hk2 & _ & _ & He2).
  exists c2. split; [exact Hk2|].
  rewrite He2, He1, Ho1, <- app_assoc. unfold wants. now rewrite Hs1.
Qed.

(** X20: a donation published on the broker channel [donations] is relayed twice,
    once under [donations] and once under the campaign's channel, and the
    test guarding each relay lets a viewer subscribed to [donations] or to
    ["*"] through both times: such a viewer with an open socket is sent the
    same donation twice. *)
Theorem donation_reaches_general_viewer_twice data clients k c :
  clients !! k = Some c ->
  ws_open c = true ->
  "donations" ∈ subscribedStreams c \/ "*" ∈ subscribedStreams c ->
  let ev := EvDonation data in
  exists c',
    onChannelMessage "donations" ev clients !! k = Some c'
    /\ events c'
       = events c
         ++ [("donations", ev);
             ("campaign:" +:+ RealtimeDonationData.campaignId data, ev)].
Proof.
  intros Hk Ho Hsub ev.
  destruct (onChannelMessage_donation data clients k c Hk) as (c' & Hk' & He).
  exists c'. split; [exact Hk'|]. cbv zeta in He. rewrite He, Ho.
  assert (Hw : forall stream, wants stream ev c = true).
  { intros stream. unfold wants. cbn [is_donation ev]. rewrite andb_true_r.
    destruct Hsub as [H | H]; rewrite (bool_decide_eq_true_2 _ H);
      now rewrite ?orb_true_r. }
  now rewrite !Hw.
Qed.

Lemma general_viewer_witness :
  exists c',
    onChannelMessage "donations" (EvDonation Examples.donationData) Examples.registry
      !! "viewer-1" = Some c'
    /\ events c'
       = events Examples.viewer
         ++ [("donations", EvDonation Examples.donationData);
             ("campaign:" +:+ RealtimeDonationData.campaignId Examples.donationData,
              EvDonation Examples.donationData)].
Proof.
  refine (donation_reaches_general_viewer_twice Examples.donationData Examples.registry
            "viewer-1" Examples.viewer _ _ _).
  - reflexivity.
  - reflexivity.
  - left. change ("donations" ∈ ({["donations"]} : gset string)).
    now apply elem_of_singleton_2.
Defined.



Lemma countStream_lookup stream s acc :
  default 0%nat (countStream s acc !! stream)
  = (default 0%nat (acc !! stream) + (if bool_decide (stream = s) then 1 else 0))%nat.
Proof.
  unfold countStream. destruct (decide (stream = s)) as [-> | Hne].
  - rewrite lookup_insert_eq, bool_decide_eq_true_2 by reflexivity. cbn. lia.
  - rewrite lookup_insert_ne by congruence.
    rewrite bool_decide_eq_false_2 by exact Hne. lia.
Qed.

Lemma countStream_positive s acc :
  map_Forall (fun _ n => (0 < n)%nat) acc ->
  map_Forall (fun _ n => (0 < n)%nat) (countStream s acc).
Proof.
  intros H. unfold countStream. apply map_Forall_insert_2; [lia | exact H].
Qed.

(** The channels of one connection, counted into the table. *)
Lemma count_client (X : gset string) acc stream :
  default 0%nat (set_fold countStream acc X !! stream)
  = (default 0%nat (acc !! stream) + (if bool_decide (stream ∈ X) then 1 else 0))%nat
  /\ (map_Forall (fun _ n => (0 < n)%nat) acc ->
      map_Forall (fun _ n => (0 < n)%nat) (set_fold countStream acc X)).
Proof.
  pose (P := fun (r : gmap string nat) (Y : gset string) =>
               default 0%nat (r !! stream)
               = (default 0%nat (acc !! stream)
                  + (if bool_decide (stream ∈ Y) then 1 else 0))%nat
               /\ (map_Forall (fun _ n => (0 < n)%nat) acc ->
                   map_Forall (fun _ n => (0 < n)%nat) r)).
  change (P (set_fold countStream acc X) X).
  apply (set_fold_ind_L P); unfold P; clear P.
  - rewrite bool_decide_eq_false_2 by apply not_elem_of_empty. split; [lia | auto].
  - intros x Y r Hx [IH Hpos]. split.
    + rewrite countStream_lookup, IH.
      destruct (decide (stream = x)) as [-> | Hne].
      * rewrite (bool_decide_eq_false_2 (x ∈ Y)) by exact Hx.
        rewrite bool_decide_eq_true_2 by reflexivity.
        rewrite bool_decide_eq_true_2 by (apply elem_of_union_l, elem_of_singleton_2;
                                           reflexivity).
        lia.
      * rewrite (bool_decide_eq_false_2 (stream = x)) by exact Hne.
        destruct (decide (stream ∈ Y)) as [HY | HY].
        -- rewrite !bool_decide_eq_true_2; [lia | now apply elem_of_union_r | exact HY].
        -- rewrite !bool_decide_eq_false_2; [lia | | exact HY].
           intros [H | H]%elem_of_union; [|contradiction].
           apply elem_of_singleton in H. contradiction.
    + intros H. apply countStream_positive. now apply Hpos.
Qed.

(** X22: the hub's statistics: the number of registered connections, and for
    every channel name the number of connections whose subscription set
    contains it; an entry is never 0, so a channel without subscribers has
    no entry.  Stated for channel names that are not inherited property
    names of the table object. *)
Theorem stats_count_subscribers clients stream :
  ~ In stream inheritedNames ->
  (getStats clients).1 = size clients
  /\ default 0%nat ((getStats clients).2 !! stream)
     = size (filter (fun kv => stream ∈ subscribedStreams kv.2) clients)
  /\ (forall n, (getStats clients).2 !! stream = Some n -> (0 < n)%nat).
Proof.
  intros _. split; [reflexivity|]. unfold getStats. cbn [snd].
  assert (H : default 0%nat
                (map_fold (fun _ client acc =>
                             set_fold countStream acc (subscribedStreams client))
                          ∅ clients !! stream)
              = size (filter (fun kv => stream ∈ subscribedStreams kv.2) clients)
              /\ map_Forall (fun _ n => (0 < n)%nat)
                   (map_fold (fun _ client acc =>
                                set_fold countStream acc (subscribedStreams client))
                             ∅ clients)).
  { pose (P := fun (r : gmap string nat) (m : gmap string Client) =>
                 default 0%nat (r !! stream)
                 = size (filter (fun kv => stream ∈ subscribedStreams kv.2) m)
                 /\ map_Forall (fun _ n => (0 < n)%nat) r).
    match goal with
    | |- context [map_fold ?f ∅ clients] => change (P (map_fold f ∅ clients) clients)
    end.
    apply (map_fold_weak_ind P); unfold P; clear P.
    - rewrite lookup_empty, map_filter_empty, map_size_empty.
      split; [reflexivity | apply map_Forall_empty].
    - intros i x m r Hi [IH Hpos].
      destruct (count_client (subscribedStreams x) r stream) as [Hc Hp].
      split; [|now apply Hp]. rewrite Hc, IH.
      destruct (decide (stream ∈ subscribedStreams x)) as [Hx | Hx].
      + rewrite bool_decide_eq_true_2 by exact Hx.
        rewrite map_filter_insert_True by exact Hx.
        rewrite map_size_insert_None; [lia|].
        apply map_lookup_filter_None_2. now left.
      + rewrite bool_decide_eq_false_2 by exact Hx.
        rewrite map_filter_insert_False by exact Hx.
        rewrite delete_id by exact Hi. lia. }
  destruct H as [Hcount Hpos]. split; [exact Hcount|].
  intros n Hn. exact (Hpos stream n Hn).
Qed.

Lemma stats_witness :
  default 0%nat ((getStats Examples.registry).2 !! "donations")
  = size (filter (fun kv => "donations" ∈ subscribedStreams kv.2) Examples.registry).
Proof.
  refine (proj1 (proj2 (stats_count_subscribers Examples.registry "donations" _))).
  cbn. intuition discriminate.
Defined.

End HubFacts.

(** ** Cache: reading the recent-donations feed, reconnecting *)
Module FeedFacts.
Import RedisReads SdsListenerService StreamEventFacts.

(** [LRANGE key 0 (count - 1)]: the first [count] entries for a positive
    count, everything but the last [-count] entries otherwise. *)
Lemma lrange_prefix {A} (l : list A) count :
  lrange l 0 (count - 1)
  = if 0 <? count then take (Z.to_nat count) l
    else take (length l - Z.to_nat (- count)) l.
Proof.
  unfold lrange. cbn [Z.ltb Z.compare]. rewrite Z.max_id.
  change (Z.to_nat 0) with 0%nat. rewrite drop_0.
  destruct (0 <? count) eqn:Hc.
  - apply Z.ltb_lt in Hc.
    rewrite (proj2 (Z.ltb_ge (count - 1) 0)) by lia.
    rewrite (proj2 (Z.ltb_ge (count - 1) 0)) by lia. cbn [orb].
    destruct (Z.of_nat (length l) <=? 0) eqn:Hl.
    + apply Z.leb_le in Hl. destruct l; [now rewrite take_nil | cbn in Hl; lia].
    + apply Z.leb_gt in Hl.
      destruct (Z.min_spec (count - 1) (Z.of_nat (length l) - 1)) as [[Hm ->] | [Hm ->]].
      * f_equal. lia.
      * rewrite !take_ge; [reflexivity | lia | lia].
  - apply Z.ltb_ge in Hc.
    rewrite (proj2 (Z.ltb_lt (count - 1) 0)) by lia.
    destruct (count - 1 + Z.of_nat (length l) <? 0) eqn:Hs; cbn [orb].
    + apply Z.ltb_lt in Hs.
      replace (length l - Z.to_nat (- count))%nat with 0%nat by lia. reflexivity.
    + apply Z.ltb_ge in Hs.
      destruct (Z.of_nat (length l) <=? 0) eqn:Hl; [apply Z.leb_le in Hl; lia|].
      f_equal. lia.
Qed.

Lemma requestedLimit_range limit :
  match limit with Some n => 0 <= n | None => True end ->
  1 <= requestedLimit limit <= 50.
Proof.
  unfold requestedLimit. destruct limit as [n|]; [|lia].
  intros Hn. destruct (n =? 0) eqn:H0; [lia|]. apply Z.eqb_neq in H0. lia.
Qed.

(** X23: the cached feed as the recent-donations endpoint reads it: for a limit
    parameter that is absent, not a number or non-negative, the newest
    [min (limit || 20) 50] entries, never more than 50. *)
Theorem cached_feed_read_is_capped key limit w :
  match limit with Some n => 0 <= n | None => True end ->
  let feed := default [] (feeds w !! key) in
  fst (getRecentFeed key (requestedLimit limit) w)
  = Returned (take (Z.to_nat (requestedLimit limit)) feed)
  /\ (length (take (Z.to_nat (requestedLimit limit)) feed) <= 50)%nat
  /\ requestedLimit limit
     = match limit with
       | Some n => if n =? 0 then 20 else Z.min n 50
       | None => 20
       end.
Proof.
  intros Hl feed. pose proof (requestedLimit_range limit Hl) as Hr.
  unfold getRecentFeed, gets. cbn [fst]. rewrite lrange_prefix.
  rewrite (proj2 (Z.ltb_lt 0 _)) by lia.
  split; [reflexivity|]. split; [rewrite length_take; lia|].
  unfold requestedLimit. destruct limit as [n|]; [|reflexivity].
  destruct (n =? 0); reflexivity.
Qed.

Lemma cached_feed_read_witness :
  fst (getRecentFeed CacheKeys.recentDonations.global (requestedLimit (Some 200))
         Runs.announced)
  = Returned (take (Z.to_nat (requestedLimit (Some 200)))
                   (default [] (feeds Runs.announced !! CacheKeys.recentDonations.global))).
Proof.
  refine (proj1 (cached_feed_read_is_capped CacheKeys.recentDonations.global (Some 200)
                   Runs.announced _)).
  vm_compute. discriminate.
Defined.

(** X24: a negative limit parameter passes [Math.min(..., 50)] unchanged and
    reaches [LRANGE] as a negative stop index: the read returns the whole
    cached feed except its last [-limit] entries, however long the feed
    is. *)
Theorem negative_limit_reads_past_the_cap key n w :
  n < 0 ->
  let feed := default [] (feeds w !! key) in
  requestedLimit (Some n) = n
  /\ fst (getRecentFeed key (requestedLimit (Some n)) w)
     = Returned (take (length feed - Z.to_nat (- n)) feed).
Proof.
  intros Hn feed.
  assert (Hr : requestedLimit (Some n) = n).
  { unfold requestedLimit. rewrite (proj2 (Z.eqb_neq n 0)) by lia. lia. }
  split; [exact Hr|]. rewrite Hr.
  unfold getRecentFeed, gets. cbn [fst]. rewrite lrange_prefix.
  now rewrite (proj2 (Z.ltb_ge 0 n)) by lia.
Qed.

Lemma negative_limit_witness :
  requestedLimit (Some (-1)) = -1
  /\ fst (getRecentFeed CacheKeys.recentDonations.global (requestedLimit (Some (-1)))
            Runs.announced)
     = Returned (take (length (default [] (feeds Runs.announced
                                             !! CacheKeys.recentDonations.global))
                       - Z.to_nat (- -1))
                      (default [] (feeds Runs.announced
                                     !! CacheKeys.recentDonations.global))).
Proof.
  refine (negative_limit_reads_past_the_cap CacheKeys.recentDonations.global (-1)
            Runs.announced _).
  reflexivity.
Defined.



(** X26: the cache client's retry policy: it gives up from the eleventh attempt
    on, and until then the delay is [times * 100] milliseconds, at most one
    second - the cap of three seconds is never the smaller argument. *)
Theorem cache_retry_delay_is_linear_until_it_stops times :
  (retryStrategy times = None <-> 10 < times)
  /\ (forall delay, retryStrategy times = Some delay ->
                    delay = times * 100 /\ delay <= 1000).
Proof.
  unfold retryStrategy. destruct (10 <? times) eqn:Ht.
  - apply Z.ltb_lt in Ht. split; [tauto | discriminate].
  - apply Z.ltb_ge in Ht. split; [split; [discriminate | lia]|].
    intros delay [= <-]. lia.
Qed.

End FeedFacts.

(** ** Configuration: the start-up check *)
Module EnvFacts.
Import Env.

Lemma or_else_eq value fallback x :
  or_else value fallback = x
  <-> (exists v, value = Some v /\ v <> "" /\ v = x)
      \/ (~ (exists v, value = Some v /\ v <> "") /\ fallback = x).
Proof.
  unfold or_else. destruct value as [v|].
  - destruct (bool_decide (v = "")) eqn:Hv.
    + apply bool_decide_eq_true in Hv. subst v. split.
      * intros <-. right. split; [|reflexivity]. intros (v & [= <-] & Hne). contradiction.
      * intros [(v & [= <-] & Hne & _) | [_ H]]; [contradiction | exact H].
    + apply bool_decide_eq_false in Hv. split.
      * intros <-. left. eauto.
      * intros [(v' & [= <-] & _ & H) | [H _]]; [exact H|]. destruct H. eauto.
  - split.
    + intros <-. right. split; [|reflexivity]. intros (v & Hv & _). discriminate.
    + intros [(v & Hv & _) | [_ H]]; [discriminate | exact H].
Qed.

(** The check on settings whose secret is not empty. *)
Lemma validateConfig_cases c :
  jwtSecret c <> "" ->
  (validateConfig c = inr tt
   <-> databaseUrl c <> ""
       /\ ~ (env c = "production" /\ jwtSecret c = developmentSecret))
  /\ (validateConfig c = inr tt
      \/ validateConfig c = inl "Missing required environment variables: DATABASE_URL"
      \/ validateConfig c = inl "JWT_SECRET must be changed in production").
Proof.
  intros Hj. unfold validateConfig, missing. cbn [List.filter snd].
  rewrite (bool_decide_eq_false_2 (jwtSecret c = "")) by exact Hj.
  destruct (bool_decide (databaseUrl c = "")) eqn:Hu.
  - apply bool_decide_eq_true in Hu. cbn.
    split; [|right; left; reflexivity].
    split; [discriminate | intros [H _]; contradiction].
  - apply bool_decide_eq_false in Hu. cbn [fmap list_fmap].
    destruct (bool_decide (env c = "production")) eqn:He;
      [apply bool_decide_eq_true in He | apply bool_decide_eq_false in He];
      (destruct (bool_decide (jwtSecret c = developmentSecret)) eqn:Hd;
       [apply bool_decide_eq_true in Hd | apply bool_decide_eq_false in Hd]);
      cbn [andb].
    + split; [|right; right; reflexivity].
      split; [discriminate | intros [_ H]; destruct H; auto].
    + split; [|left; reflexivity]. split; [|reflexivity]. intros _. tauto.
    + split; [|left; reflexivity]. split; [|reflexivity]. intros _. tauto.
    + split; [|left; reflexivity]. split; [|reflexivity]. intros _. tauto.
Qed.

(** X27: the start-up check on the settings read from the environment passes
    exactly when [DATABASE_URL] is set to a non-empty value and, if
    [NODE_ENV] is [production], [JWT_SECRET] is set to a non-empty value
    other than the development default.  It fails with one of two messages
    only: [JWT_SECRET] is never reported as missing, because the default
    fills it in before the check. *)
Theorem startup_check_accepts_exactly vars :
  (validateConfig (load vars) = inr tt
   <-> (exists url, vars !! "DATABASE_URL" = Some url /\ url <> "")
       /\ (vars !! "NODE_ENV" = Some "production" ->
           exists secret, vars !! "JWT_SECRET" = Some secret
                          /\ secret <> "" /\ secret <> developmentSecret))
  /\ (validateConfig (load vars) = inr tt
      \/ validateConfig (load vars)
         = inl "Missing required environment variables: DATABASE_URL"
      \/ validateConfig (load vars) = inl "JWT_SECRET must be changed in production").
Proof.
  assert (Hj : jwtSecret (load vars) <> "").
  { cbn [load jwtSecret]. intros H. apply or_else_eq in H.
    destruct H as [(v & _ & Hne & Hv) | [_ H]]; [contradiction | discriminate]. }
  destruct (validateConfig_cases (load vars) Hj) as [Hiff Hcases].
  split; [|exact Hcases]. rewrite Hiff. cbn [load databaseUrl env jwtSecret].
  assert (Hurl : or_else (vars !! "DATABASE_URL") "" <> ""
                 <-> exists url, vars !! "DATABASE_URL" = Some url /\ url <> "").
  { split.
    - intros H. destruct (vars !! "DATABASE_URL") as [url|]; [|now destruct H].
      exists url. split; [reflexivity|]. intros ->. now destruct H.
    - intros (url & -> & Hne) H. apply or_else_eq in H.
      destruct H as [(v & [= <-] & _ & Hv) | [H _]]; [contradiction|].
      destruct H. eauto. }
  assert (Henv : or_else (vars !! "NODE_ENV") "development" = "production"
                 <-> vars !! "NODE_ENV" = Some "production").
  { rewrite or_else_eq. split.
    - intros [(v & -> & _ & ->) | [_ H]]; [reflexivity | discriminate].
    - intros ->. left. exists "production". repeat split. discriminate. }
  assert (Hsec : or_else (vars !! "JWT_SECRET") developmentSecret = developmentSecret
                 <-> ~ exists secret, vars !! "JWT_SECRET" = Some secret
                                      /\ secret <> "" /\ secret <> developmentSecret).
  { rewrite or_else_eq. split.
    - intros [(v & -> & Hne & ->) | [H _]].
      + intros (x & [= <-] & _ & Hx). contradiction.
      + intros (x & Hx & Hne & _). destruct H. eauto.
    - intros H. destruct (vars !! "JWT_SECRET") as [v|]; [|right; split; [|reflexivity]].
      + destruct (decide (v = "")) as [-> | Hne].
        * right. split; [|reflexivity]. intros (x & [= <-] & Hx). contradiction.
        * left. exists v. split; [reflexivity|]. split; [exact Hne|].
          destruct (decide (v = developmentSecret)) as [-> | Hd]; [reflexivity|].
          destruct H. eauto.
      + intros (x & Hx & _). discriminate. }
  rewrite Hurl, Henv, Hsec. split.
  - intros [Hu Hn]. split; [exact Hu|]. intros Hp.
    destruct (vars !! "JWT_SECRET") as [v|] eqn:Hv.
    + destruct (decide (v = "")) as [-> | Hne].
      * destruct Hn. split; [exact Hp|]. intros (x & [= <-] & Hx & _). contradiction.
      * destruct (decide (v = developmentSecret)) as [-> | Hd].
        -- destruct Hn. split; [exact Hp|]. intros (x & [= <-] & _ & Hx). contradiction.
        -- eauto.
    + destruct Hn. split; [exact Hp|]. intros (x & Hx & _). discriminate.
  - intros [Hu Hn]. split; [exact Hu|]. intros [Hp Hno]. apply Hno. now apply Hn.
Qed.

End EnvFacts.

(** ** Ledger Watcher: the status query and the sweep *)
Module StatusFacts.
Import BlockchainService SweepOutcome TransactionStatus.

(** X28: the status query and the sweep read the ledger's answer alike: the
    sweep orphans the row exactly when the query says the transaction does
    not exist, confirms it (with the receipt's block number) exactly when
    the query says confirmed, marks it FAILED when the transaction exists
    unconfirmed, and leaves it alone when the query is rejected. *)
Theorem status_query_agrees_with_sweep now answer d :
  match getTransactionStatus answer with
  | inl _ => verdict now answer d = d
  | inr s =>
      Donation.status (verdict now answer d)
      = (if negb (exists_ s) then ORPHANED
         else if confirmed s then CONFIRMED else FAILED)
      /\ (confirmed s = true ->
          exists_ s = true
          /\ Donation.blockNumber (verdict now answer d) = blockNumber s)
  end.
Proof.
  destruct answer as [|st bn|msg]; cbn [getTransactionStatus verdict].
  - cbn. split; [reflexivity | discriminate].
  - cbn [exists_ confirmed blockNumber negb].
    destruct (bool_decide (st = Some 1)); cbn; split; try reflexivity;
      [intros _; split; reflexivity | discriminate].
  - reflexivity.
Qed.

End StatusFacts.

(** ** Donor rows *)
Module DonorFacts.
Import BlockchainService SdsListenerService StoreFacts AggregateUpdaterFacts
       ReconcilerFacts LedgerWatcherFacts StreamListenerFacts StreamCreationFacts
       NotificationFacts InvariantFacts Invariants.

Lemma settlement_keeps_donors now ev w :
  donors (exec (processDonationConfirmation now ev) w) = donors w.
Proof.
  destruct (find (fun x => bool_decide
                    (Donation.txHash x = DonationReceivedEvent.transactionHash ev))
                 (donations w)) as [d|] eqn:Hf.
  - now destruct (processDonationConfirmation_announced now ev d w Hf)
      as (_ & _ & _ & _ & _ & Hdo & _).
  - destruct (find (fun x => bool_decide
                      (Campaign.onChainId x
                       = toString (DonationReceivedEvent.campaignId ev)))
                   (campaigns w)) as [c|] eqn:Hc.
    + destruct (process_unannounced_store now ev c w Hf Hc)
        as (w1 & _ & _ & _ & Hdo1 & _ & _ & Hrun).
      unfold exec. rewrite Hrun.
      destruct (updateCampaignTotals_same (Campaign.id c)
                  (DonationReceivedEvent.amount ev) w1) as (_ & Hdo & _).
      now rewrite Hdo.
    + unfold exec. now rewrite (process_unknown_campaign now ev w Hf Hc).
Qed.

Lemma sweep_keeps_donors now rpc w :
  donors (exec (runReconciliation now rpc) w) = donors w.
Proof.
  destruct (runReconciliation_donations now rpc w) as (w0 & _ & Hdo0 & _ & Hdo).
  now rewrite Hdo, forEach_keeps_donors.
Qed.

(** What the event handler does to the donor table: nothing, or one upsert. *)
Lemma stream_event_donors now ev w :
  donors (exec (handleEvent now ev) w) = donors w
  \/ exists p key,
       donors (exec (handleEvent now ev) w)
       = <[key := match donors w !! key with
                  | None => donorCreate now p
                  | Some d => donorUpdate now p d
                  end]> (donors w).
Proof.
  destruct (handleEvent_decompose now ev w)
    as (w0 & w1 & (_ & _ & Hdo0 & _) & H1 & (_ & _ & Hdo & _) & _).
  rewrite Hdo. destruct H1 as [-> | ->]; [left; exact Hdo0|].
  destruct (handleDonationEvent_cases now ev w0) as [(line & Hrun) | (p & c & Hp & Hf & Hc)].
  - left. unfold exec. now rewrite Hrun.
  - right. destruct (handleDonationEvent_created now ev p c w0 Hp Hf Hc)
      as (_ & _ & _ & _ & Hd & _).
    cbv zeta in Hd. rewrite Hd, Hdo0. eauto.
Qed.

(** X29: a donor row is created with campaign count 1 and no writer raises it:
    the stream handler's upsert adds to the donated total and the donation
    count only, whichever campaign the donation goes to, and the settlement
    handler and the sweep write no donor row at all - so the donor totals
    stand as announced whether the donation is later confirmed, marked
    FAILED or orphaned. *)
Theorem donor_campaign_count_is_never_raised w :
  map_Forall (fun _ d => Donor.campaignCount d = 1) (donors w) ->
  (forall now ev,
     map_Forall (fun _ d => Donor.campaignCount d = 1)
                (donors (exec (handleEvent now ev) w)))
  /\ (forall now ev, donors (exec (processDonationConfirmation now ev) w) = donors w)
  /\ (forall now rpc, donors (exec (runReconciliation now rpc) w) = donors w).
Proof.
  intros Hinv. split; [|split].
  - intros now ev.
    destruct (stream_event_donors now ev w) as [-> | (p & key & ->)]; [exact Hinv|].
    apply map_Forall_insert_2; [|exact Hinv].
    destruct (donors w !! key) as [d|] eqn:Hk; [|reflexivity].
    cbn [donorUpdate Donor.campaignCount]. exact (Hinv key d Hk).
  - intros now ev. apply settlement_keeps_donors.
  - intros now rpc. apply sweep_keeps_donors.
Qed.

Lemma donor_campaign_count_witness :
  map_Forall (fun _ d => Donor.campaignCount d = 1)
             (donors (exec (handleEvent 1699999998500 Examples.streamAA) Examples.world0)).
Proof.
  refine (proj1 (donor_campaign_count_is_never_raised Examples.world0 _)
                1699999998500 Examples.streamAA).
  apply map_Forall_empty.
Defined.

End DonorFacts.

(** ** Ledger Watcher: a settlement the stream never announced *)
Module LedgerFirstFacts.
Import BlockchainService SdsListenerService StoreFacts AggregateUpdaterFacts
       ReconcilerFacts LedgerWatcherFacts InvariantFacts DonorFacts.

(** C4 (what the code does on the ledger-first path): for a settlement
    whose transaction hash has no row, no donor row is written, whatever the
    campaign.  If the campaign's on-chain id is unknown, no table changes
    and the two log lines are the creation notice and the error.  Otherwise
    the row appended is the CONFIRMED row with the settlement's transaction
    hash, campaign, lower-cased donor, amount, block number, block time and
    the confirmation time, and the campaign table ends up exactly as on the
    path where the row had been announced first (the updater run once with
    the settled amount) - but the Donor aggregate, which the stream-first
    path raises once for the donation, is left as it was. *)
Theorem C4_unannounced_settlement_skips_donor_aggregate now ev w :
  find (fun x => bool_decide (Donation.txHash x = DonationReceivedEvent.transactionHash ev))
       (donations w) = None ->
  let w' := exec (processDonationConfirmation now ev) w in
  donors w' = donors w
  /\ match find (fun x => bool_decide
                   (Campaign.onChainId x = toString (DonationReceivedEvent.campaignId ev)))
                (campaigns w) with
     | None =>
         donations w' = donations w /\ campaigns w' = campaigns w
         /\ trace w'
            = trace w ++ [Log Info "On-chain donation not found in DB, creating...";
                          Log Error "Campaign not found for on-chain donation"]
     | Some c =>
         (exists row,
            donations w' = donations w ++ [row]
            /\ Donation.status row = CONFIRMED
            /\ Donation.txHash row = DonationReceivedEvent.transactionHash ev
            /\ Donation.campaignId row = Campaign.id c
            /\ Donation.donorAddress row
               = JsString.toLowerCase (DonationReceivedEvent.donor ev)
            /\ Donation.amount row = DonationReceivedEvent.amount ev
            /\ Donation.blockNumber row = Some (DonationReceivedEvent.blockNumber ev)
            /\ Donation.blockTimestamp row
               = Some (DonationReceivedEvent.blockTimestamp ev * 1000)
            /\ Donation.confirmedAt row = Some now
            /\ Donation.sdsEventId row = None)
         /\ campaigns w'
            = campaigns (exec (updateCampaignTotals (Campaign.id c)
                                 (DonationReceivedEvent.amount ev)) w)
         /\ (forall ws d,
               campaigns ws = campaigns w ->
               find (fun x => bool_decide
                       (Donation.txHash x = DonationReceivedEvent.transactionHash ev))
                    (donations ws) = Some d ->
               Donation.campaignId d = Campaign.id c ->
               campaigns (exec (processDonationConfirmation now ev) ws) = campaigns w')
     end.
Proof.
  intros Hf w'. split; [apply settlement_keeps_donors|].
  destruct (find _ (campaigns w)) as [c|] eqn:Hc.
  - destruct (process_unannounced now ev c w Hf Hc) as (w1 & Hd1 & Hc1 & Hrun).
    assert (Hw' : w' = exec (updateCampaignTotals (Campaign.id c)
                               (DonationReceivedEvent.amount ev)) w1).
    { subst w'. unfold exec. now rewrite Hrun. }
    split; [|split].
    + exists (confirmedRow now ev c (nextId w) now).
      split; [|repeat split].
      rewrite Hw'. unfold exec.
      destruct (updateCampaignTotals_frame (Campaign.id c)
                  (DonationReceivedEvent.amount ev) w1) as [H _].
      now rewrite H.
    + rewrite Hw'. now apply updateCampaignTotals_campaigns_ext.
    + intros ws d Hcs Hfs Hcid.
      destruct (process_announced now ev d ws Hfs) as (w2 & _ & Hc2 & Hrun2 & _).
      rewrite Hrun2, Hw', Hcid.
      apply updateCampaignTotals_campaigns_ext. congruence.
  - subst w'. unfold exec. rewrite (process_unknown_campaign now ev w Hf Hc).
    cbn. rewrite <- app_assoc. repeat split.
Qed.

(** The same settlement on the two paths: ledger first, and announced by
    the stream before the ledger confirms. *)
Lemma C4_unannounced_settlement_witness :
  donors (exec (processDonationConfirmation 1700000000500 Examples.ledgerAA) Examples.world0)
  = donors Examples.world0
  /\ donors Examples.world0 = ∅
  /\ (Donation.status <$> donations Runs.ledgerFirst) = [CONFIRMED]
  /\ campaigns Runs.ledgerFirst = campaigns Runs.confirmed
  /\ donors Runs.confirmed !! Examples.donorLower
     = Some (Donor.mk Examples.oneUnit 1 1 1699999998500 1699999998500).
Proof.
  split.
  - exact (proj1 (C4_unannounced_settlement_skips_donor_aggregate 1700000000500
                    Examples.ledgerAA Examples.world0 eq_refl)).
  - vm_compute. repeat split.
Defined.

End LedgerFirstFacts.

